(** * Contract field extraction (app/ocr.py, app/models.py)

    A shallow embedding of the text-processing core of the contract
    extraction service: the text normaliser, the section slicer, the
    primitive extractors, the field resolvers and [parse_contract_text],
    with the properties of the specification that are about them.

    Conventions of the embedding.
    - A Python [str] is a list of 8-bit characters read as the code points
      0..255; the character predicates below ([is_space], [is_digit],
      [is_word], [lower]) are those of Python restricted to that range.
    - Python exceptions are explicit: a function that can raise returns a
      [result], and [try ... except ValueError] becomes a match on it.
    - The calls into [re] are interpreted by a backtracking matcher with
      the priorities of Python's engine (leftmost start, greedy or lazy
      repetition, ordered alternation); every pattern of the program is
      written as a syntax tree next to its source text.
    - [datetime.strptime] follows the library: the format becomes a
      pattern, the text must match it to its end, and the fields must form
      a calendar date.  [datetime.fromisoformat] is a parameter.
    - A float is held as the exact decimal value it was read from.
    - The record is a pydantic model with the default configuration. *)

From Stdlib Require Import Ascii String.
From Stdlib Require Import List Arith Lia Bool NArith.
Import ListNotations.

Set Implicit Arguments.

(* ================================================================== *)
(** ** Characters and strings *)

Definition str := list ascii.

(** [py] reads a literal the way Python does: backslash-n, backslash-t,
    backslash-r and a doubled backslash are escapes. *)
Fixpoint py (s : string) : str :=
  match s with
  | EmptyString => []
  | String "\" (String "n" s') => "010"%char :: py s'
  | String "\" (String "t" s') => "009"%char :: py s'
  | String "\" (String "r" s') => "013"%char :: py s'
  | String "\" (String "\" s') => "\"%char :: py s'
  | String c s' => c :: py s'
  end.

Definition code (c : ascii) : nat := nat_of_ascii c.

Definition in_range (lo hi : nat) (c : ascii) : bool :=
  (lo <=? code c) && (code c <=? hi).

(** [str.isspace] on one character, which is also the class [\s]. *)
Definition is_space (c : ascii) : bool :=
  in_range 9 13 c || in_range 28 32 c || (code c =? 133) || (code c =? 160).

(** The class [\d]. *)
Definition is_digit (c : ascii) : bool := in_range 48 57 c.

Definition is_upper (c : ascii) : bool :=
  in_range 65 90 c || (in_range 192 222 c && negb (code c =? 215)).

Definition is_lower (c : ascii) : bool :=
  in_range 97 122 c || (in_range 224 254 c && negb (code c =? 247)).

Definition lower (c : ascii) : ascii :=
  if is_upper c then ascii_of_nat (code c + 32) else c.

Definition upper (c : ascii) : ascii :=
  if is_lower c then ascii_of_nat (code c - 32) else c.

(** Alphanumeric characters and the underscore: the class [\w]. *)
Definition is_word (c : ascii) : bool :=
  is_digit c || in_range 65 90 c || in_range 97 122 c || (code c =? 95)
  || (code c =? 170) || (code c =? 178) || (code c =? 179) || (code c =? 181)
  || (code c =? 185) || (code c =? 186) || in_range 188 190 c
  || in_range 192 214 c || in_range 216 246 c || in_range 248 255 c.

Definition newline : ascii := "010"%char.

Definition str_eqb (a b : str) : bool :=
  if list_eq_dec ascii_dec a b then true else false.

(** [s[a:b]] for [0 <= a], [0 <= b]. *)
Definition slice (s : str) (a b : nat) : str := firstn (b - a) (skipn a s).

Fixpoint lstrip_with (p : ascii -> bool) (s : str) : str :=
  match s with
  | c :: s' => if p c then lstrip_with p s' else s
  | [] => []
  end.

Definition rstrip_with (p : ascii -> bool) (s : str) : str :=
  rev (lstrip_with p (rev s)).

Definition strip_with (p : ascii -> bool) (s : str) : str :=
  rstrip_with p (lstrip_with p s).

(** [s.strip()] *)
Definition strip (s : str) : str := strip_with is_space s.

Definition mem_char (cs : str) (c : ascii) : bool :=
  existsb (Ascii.eqb c) cs.

(** [s.strip(chars)] *)
Definition strip_chars (cs : str) (s : str) : str := strip_with (mem_char cs) s.

(** [s.replace(old, new)] for a one-character [old]. *)
Definition replace_char (old : ascii) (new : str) (s : str) : str :=
  flat_map (fun c => if Ascii.eqb c old then new else [c]) s.

(** [s.split(sep)] for a one-character separator. *)
Fixpoint split_on (sep : ascii) (s : str) : list str :=
  match s with
  | [] => [[]]
  | c :: s' =>
      if Ascii.eqb c sep then [] :: split_on sep s'
      else match split_on sep s' with
           | piece :: rest => (c :: piece) :: rest
           | [] => [[c]]
           end
  end.

(** Truthiness of an optional string: [None] and the empty string are
    false. *)
Definition truthy (v : option str) : bool :=
  match v with
  | Some (_ :: _) => true
  | _ => false
  end.

(* ================================================================== *)
(** ** Exceptions *)

Inductive exn : Type :=
| AttributeError
| TypeError
| IndexError
| ValueError
| ReError
| ValidationError.

Inductive result (A : Type) : Type :=
| Ok (a : A)
| Raise (e : exn).

Arguments Ok {A} a.
Arguments Raise {A} e.

Definition bind {A B : Type} (m : result A) (f : A -> result B) : result B :=
  match m with
  | Ok a => f a
  | Raise e => Raise e
  end.

Notation "x <- m ;; k" := (bind m (fun x => k))
  (at level 61, m at next level, right associativity).
Notation "' pat <- m ;; k" := (bind m (fun x => match x with pat => k end))
  (at level 61, pat pattern, m at next level, right associativity).

(** [a or b] on optional strings; [b] is evaluated only when [a] is
    falsy. *)
Definition or_else (a : result (option str)) (b : result (option str))
  : result (option str) :=
  v <- a ;; if truthy v then Ok v else b.

(** [a or b] where [b] is a plain string. *)
Definition or_text (a : str) (b : str) : str :=
  match a with
  | [] => b
  | _ => a
  end.

(* ================================================================== *)
(** ** Regular expressions *)

Module Re.

Inductive citem : Type :=
| CChar (c : ascii)
| CRange (lo hi : ascii)
| CDigit
| CSpace.

(** A bracket class, or a category such as [\D] as a negated class. *)
Record cclass : Type := { c_neg : bool; c_items : list citem }.

Inductive atom : Type :=
| AClass (c : cclass)
| ADot.

(** The patterns of the program repeat single characters only; an optional
    group is an alternation with the empty pattern. *)
Inductive regex : Type :=
| Eps
| Lit (l : str)
| One (a : atom)
| Rep (a : atom) (lo : nat) (hi : option nat) (greedy : bool)
| Seq (r1 r2 : regex)
| Alt (r1 r2 : regex)
| Group (n : nat) (r : regex)
| Look (r : regex)
| Bos
| Eol
| Eos
| WordB.

Record flags : Type := { IGNORECASE : bool; DOTALL : bool }.

Definition no_flags : flags := {| IGNORECASE := false; DOTALL := false |}.
Definition f_I : flags := {| IGNORECASE := true; DOTALL := false |}.
Definition f_IS : flags := {| IGNORECASE := true; DOTALL := true |}.

Definition chr_eq (fl : flags) (p c : ascii) : bool :=
  if IGNORECASE fl then Ascii.eqb (lower p) (lower c) else Ascii.eqb p c.

Definition item_plain (it : citem) (c : ascii) : bool :=
  match it with
  | CChar x => Ascii.eqb x c
  | CRange lo hi => in_range (code lo) (code hi) c
  | CDigit => is_digit c
  | CSpace => is_space c
  end.

Definition item_ok (fl : flags) (it : citem) (c : ascii) : bool :=
  item_plain it c
  || (IGNORECASE fl && (item_plain it (lower c) || item_plain it (upper c))).

Definition class_ok (fl : flags) (cl : cclass) (c : ascii) : bool :=
  xorb (c_neg cl) (existsb (fun it => item_ok fl it c) (c_items cl)).

Definition atom_ok (fl : flags) (a : atom) (c : ascii) : bool :=
  match a with
  | AClass cl => class_ok fl cl c
  | ADot => DOTALL fl || negb (Ascii.eqb c newline)
  end.

(** Does the literal [l] start the text [s]? *)
Fixpoint lit_prefix (fl : flags) (l s : str) : bool :=
  match l, s with
  | [], _ => true
  | p :: l', c :: s' => chr_eq fl p c && lit_prefix fl l' s'
  | _ :: _, [] => false
  end.

(** Length of the longest prefix of [s] whose characters satisfy [p]. *)
Fixpoint run_len (p : ascii -> bool) (s : str) : nat :=
  match s with
  | c :: s' => if p c then S (run_len p s') else 0
  | [] => 0
  end.

Definition cap_len (hi : option nat) (n : nat) : nat :=
  match hi with
  | Some h => Nat.min h n
  | None => n
  end.

(** The state of a match attempt: the position, the character before it,
    the text from it on, and the spans of the groups closed so far. *)
Record mstate : Type :=
  { pos : nat; prev : option ascii; rest : str; caps : list (nat * (nat * nat)) }.

Fixpoint last_of (p : option ascii) (s : str) : option ascii :=
  match s with
  | [] => p
  | c :: s' => last_of (Some c) s'
  end.

(** Consume [j] characters. *)
Definition adv (st : mstate) (j : nat) : mstate :=
  {| pos := pos st + j;
     prev := last_of (prev st) (firstn j (rest st));
     rest := skipn j (rest st);
     caps := caps st |}.

Definition set_cap (st : mstate) (n : nat) (span : nat * nat) : mstate :=
  {| pos := pos st; prev := prev st; rest := rest st;
     caps := (n, span) :: caps st |}.

Section Tries.
Variable R : Type.
Variable k : nat -> option R.

(** Greedy backtracking: [lo + d], then one less, down to [lo]. *)
Fixpoint try_down (lo d : nat) : option R :=
  match k (lo + d) with
  | Some r => Some r
  | None => match d with
            | 0 => None
            | S d' => try_down lo d'
            end
  end.

(** Lazy extension: [j], then one more, up to [j + d]. *)
Fixpoint try_up (j d : nat) : option R :=
  match k j with
  | Some r => Some r
  | None => match d with
            | 0 => None
            | S d' => try_up (S j) d'
            end
  end.
End Tries.

Definition opt_word (c : option ascii) : bool :=
  match c with
  | Some x => is_word x
  | None => false
  end.

(** The matcher, in continuation-passing style: [k] is what remains of the
    pattern, and a [None] from it makes the matcher try its next choice. *)
Fixpoint rx (fl : flags) (r : regex) (st : mstate)
  (k : mstate -> option mstate) {struct r} : option mstate :=
  match r with
  | Eps => k st
  | Lit l => if lit_prefix fl l (rest st) then k (adv st (length l)) else None
  | One a =>
      match rest st with
      | c :: _ => if atom_ok fl a c then k (adv st 1) else None
      | [] => None
      end
  | Rep a lo hi g =>
      let n := cap_len hi (run_len (atom_ok fl a) (rest st)) in
      if n <? lo then None
      else if g then try_down (fun j => k (adv st j)) lo (n - lo)
           else try_up (fun j => k (adv st j)) lo (n - lo)
  | Seq r1 r2 => rx fl r1 st (fun st' => rx fl r2 st' k)
  | Alt r1 r2 =>
      match rx fl r1 st k with
      | Some m => Some m
      | None => rx fl r2 st k
      end
  | Group n r1 => rx fl r1 st (fun st' => k (set_cap st' n (pos st, pos st')))
  | Look r1 =>
      match rx fl r1 st (fun st' => Some st') with
      | Some _ => k st
      | None => None
      end
  | Bos => if pos st =? 0 then k st else None
  | Eol =>
      match rest st with
      | [] => k st
      | [c] => if Ascii.eqb c newline then k st else None
      | _ => None
      end
  | Eos =>
      match rest st with
      | [] => k st
      | _ => None
      end
  | WordB =>
      if xorb (opt_word (prev st)) (opt_word (hd_error (rest st)))
      then k st else None
  end.

(** [re.compile] rejects a repetition whose minimum exceeds its maximum. *)
Fixpoint well_formed (r : regex) : bool :=
  match r with
  | Rep _ lo (Some hi) _ => lo <=? hi
  | Seq r1 r2 | Alt r1 r2 => well_formed r1 && well_formed r2
  | Group _ r1 | Look r1 => well_formed r1
  | _ => true
  end.

Record rmatch : Type :=
  { m_start : nat; m_end : nat; m_caps : list (nat * (nat * nat)) }.

(** One attempt at position [i]; [must_adv] forbids the empty match. *)
Definition match_here (fl : flags) (r : regex) (must_adv : bool)
  (p : option ascii) (i : nat) (s : str) : option rmatch :=
  match rx fl r {| pos := i; prev := p; rest := s; caps := [] |}
          (fun st => if must_adv && (pos st =? i) then None else Some st) with
  | Some st => Some {| m_start := i; m_end := pos st; m_caps := caps st |}
  | None => None
  end.

Fixpoint search_from (fl : flags) (r : regex) (p : option ascii) (i : nat)
  (s : str) : option rmatch :=
  match match_here fl r false p i s with
  | Some m => Some m
  | None =>
      match s with
      | c :: s' => search_from fl r (Some c) (S i) s'
      | [] => None
      end
  end.

(** [re.search(r, s, flags)] *)
Definition search (fl : flags) (r : regex) (s : str) : option rmatch :=
  search_from fl r None 0 s.

(** [re.match(r, s, flags)] *)
Definition match_ (fl : flags) (r : regex) (s : str) : option rmatch :=
  match_here fl r false None 0 s.

Fixpoint lookup_cap (n : nat) (cs : list (nat * (nat * nat)))
  : option (nat * nat) :=
  match cs with
  | [] => None
  | (m, span) :: cs' => if m =? n then Some span else lookup_cap n cs'
  end.

(** [m.group(n)]: [None] when the group took no part in the match. *)
Definition group (s : str) (m : rmatch) (n : nat) : option str :=
  match lookup_cap n (m_caps m) with
  | Some (a, b) => Some (slice s a b)
  | None => None
  end.

(** The text cut by the successive non-overlapping matches: a character
    outside every match, or a match with the text it covers. *)
Inductive seg : Type :=
| Txt (c : ascii)
| Hit (m : rmatch) (text : str).

(** The scan of [finditer]: [skip] counts the characters still covered by
    the last match.  After an empty match the same position is tried once
    more for a match that advances. *)
Fixpoint segments (fl : flags) (r : regex) (p : option ascii) (i : nat)
  (s : str) (skip : nat) {struct s} : list seg :=
  match skip with
  | S k =>
      match s with
      | c :: s' => segments fl r (Some c) (S i) s' k
      | [] => []
      end
  | 0 =>
      match match_here fl r false p i s with
      | None =>
          match s with
          | c :: s' => Txt c :: segments fl r (Some c) (S i) s' 0
          | [] => []
          end
      | Some m =>
          if m_end m =? i then
            Hit m [] ::
            match match_here fl r true p i s with
            | Some m2 =>
                Hit m2 (firstn (m_end m2 - i) s) ::
                match s with
                | c :: s' => segments fl r (Some c) (S i) s' (m_end m2 - i - 1)
                | [] => []
                end
            | None =>
                match s with
                | c :: s' => Txt c :: segments fl r (Some c) (S i) s' 0
                | [] => []
                end
            end
          else
            Hit m (firstn (m_end m - i) s) ::
            match s with
            | c :: s' => segments fl r (Some c) (S i) s' (m_end m - i - 1)
            | [] => []
            end
      end
  end.

Definition finditer (fl : flags) (r : regex) (s : str) : list seg :=
  segments fl r None 0 s 0.

(** [re.sub(r, repl, s, flags)] for a replacement without group
    references. *)
Definition sub (fl : flags) (r : regex) (repl : str) (s : str) : str :=
  flat_map (fun sg => match sg with Txt c => [c] | Hit _ _ => repl end)
           (finditer fl r s).

(** [re.findall(r, s)] for a pattern without groups. *)
Definition findall (fl : flags) (r : regex) (s : str) : list str :=
  flat_map (fun sg => match sg with Txt _ => [] | Hit _ t => [t] end)
           (finditer fl r s).

(** [re.split(r, s, flags)]: the pieces between the matches; when the
    pattern has a group [g], each match also leaves the text of its group
    ([None] if the group took no part). *)
Fixpoint split_segs (s : str) (g : option nat) (acc : str) (sgs : list seg)
  : list (option str) :=
  match sgs with
  | [] => [Some (rev acc)]
  | Txt c :: sgs' => split_segs s g (c :: acc) sgs'
  | Hit m _ :: sgs' =>
      Some (rev acc) ::
      match g with
      | Some n => group s m n :: split_segs s g [] sgs'
      | None => split_segs s g [] sgs'
      end
  end.

Definition split (fl : flags) (r : regex) (g : option nat) (s : str)
  : list (option str) :=
  split_segs s g [] (finditer fl r s).

(** Pattern building blocks. *)
Definition cls (items : list citem) : atom :=
  AClass {| c_neg := false; c_items := items |}.
Definition ncls (items : list citem) : atom :=
  AClass {| c_neg := true; c_items := items |}.
Definition a_space : atom := cls [CSpace].
Definition a_digit : atom := cls [CDigit].
Definition chr (c : ascii) : atom := cls [CChar c].
Definition star (a : atom) : regex := Rep a 0 None true.
Definition plus (a : atom) : regex := Rep a 1 None true.
Definition opt (a : atom) : regex := Rep a 0 (Some 1) true.
Definition exactly (n : nat) (a : atom) : regex := Rep a n (Some n) true.
Definition seqs (rs : list regex) : regex := fold_right Seq Eps rs.
Definition alts (rs : list regex) : regex :=
  match rs with
  | [] => Eps
  | r :: rs' => fold_left Alt rs' r
  end.

End Re.

Import Re.

(* ================================================================== *)
(** ** Numbers and dates *)

(** A float obtained by [float] from a literal with at most two decimals,
    held as its exact value in hundredths (the rounding to a double is
    left out). *)
Definition pyfloat := N.

Definition digit_val (c : ascii) : N := N.of_nat (code c - 48).

(** The value of a string of decimal digits. *)
Definition digits_val (s : str) : N :=
  fold_left (fun acc c => (10 * acc + digit_val c)%N) s 0%N.

(** [float(s)] on the literals the money pattern lets through: an integer
    part and at most two decimals.  [ValueError] stands for every other
    argument. *)
Definition py_float (s : str) : result pyfloat :=
  let n := run_len is_digit s in
  let ip := firstn n s in
  match n, skipn n s with
  | 0, _ => Raise ValueError
  | _, [] => Ok (100 * digits_val ip)%N
  | _, "."%char :: fp =>
      if forallb is_digit fp then
        match fp with
        | [a] => Ok (100 * digits_val ip + 10 * digit_val a)%N
        | [a; b] => Ok (100 * digits_val ip + 10 * digit_val a + digit_val b)%N
        | _ => Raise ValueError
        end
      else Raise ValueError
  | _, _ => Raise ValueError
  end.

(** [int(s)] on an unsigned decimal literal, surrounding blanks allowed. *)
Definition py_int (s : str) : result nat :=
  match strip s with
  | [] => Raise ValueError
  | c :: t =>
      if forallb is_digit (c :: t) then Ok (N.to_nat (digits_val (c :: t)))
      else Raise ValueError
  end.

Record date : Type := { d_year : nat; d_month : nat; d_day : nat }.

(** A [datetime] without its time zone, which the program never reads. *)
Record datetime : Type :=
  { year : nat; month : nat; day : nat;
    hour : nat; minute : nat; second : nat; microsecond : nat }.

(** [dt.date()] *)
Definition to_date (dt : datetime) : date :=
  {| d_year := year dt; d_month := month dt; d_day := day dt |}.

Definition is_leap (y : nat) : bool :=
  (y mod 4 =? 0) && (negb (y mod 100 =? 0) || (y mod 400 =? 0)).

Definition days_in_month (y m : nat) : nat :=
  match m with
  | 2 => if is_leap y then 29 else 28
  | 4 | 6 | 9 | 11 => 30
  | _ => 31
  end.

(** The constructor [datetime(y, m, d)]: [ValueError] outside the
    calendar. *)
Definition mk_datetime (y m d : nat) : result datetime :=
  if (1 <=? y) && (N.of_nat y <=? 9999)%N && (1 <=? m) && (m <=? 12)
     && (1 <=? d) && (d <=? days_in_month y m)
  then Ok {| year := y; month := m; day := d;
             hour := 0; minute := 0; second := 0; microsecond := 0 |}
  else Raise ValueError.

(** *** [datetime.strptime] in the C locale *)

Definition f_month : list str :=
  map py ["january"; "february"; "march"; "april"; "may"; "june"; "july";
          "august"; "september"; "october"; "november"; "december"]%string.

Definition a_month : list str :=
  map py ["jan"; "feb"; "mar"; "apr"; "may"; "jun"; "jul";
          "aug"; "sep"; "oct"; "nov"; "dec"]%string.

(** [sorted(names, key=len, reverse=True)]: longest first, equal lengths in
    their given order. *)
Fixpoint insert_by_len (x : str) (l : list str) : list str :=
  match l with
  | [] => [x]
  | y :: l' => if length y <? length x then x :: l
               else y :: insert_by_len x l'
  end.

Definition sorted_by_len_desc (l : list str) : list str :=
  fold_left (fun acc x => insert_by_len x acc) l [].

Definition digit_range (lo hi : string) : regex :=
  match lo, hi with
  | String a _, String b _ => One (cls [CRange a b])
  | _, _ => Eps
  end.

Definition one_digit : regex := One a_digit.

(** The pattern of one directive; the group is numbered by the code of the
    directive's letter. *)
Definition directive (d : ascii) : option regex :=
  let g := Group (code d) in
  if Ascii.eqb d "d" then
    (* 3[0-1]|[1-2]\d|0[1-9]|[1-9]| [1-9] *)
    Some (g (alts [Seq (Lit (py "3")) (digit_range "0" "1");
                   Seq (digit_range "1" "2") one_digit;
                   Seq (Lit (py "0")) (digit_range "1" "9");
                   digit_range "1" "9";
                   Seq (Lit (py " ")) (digit_range "1" "9")]))
  else if Ascii.eqb d "m" then
    (* 1[0-2]|0[1-9]|[1-9] *)
    Some (g (alts [Seq (Lit (py "1")) (digit_range "0" "2");
                   Seq (Lit (py "0")) (digit_range "1" "9");
                   digit_range "1" "9"]))
  else if Ascii.eqb d "Y" then
    (* \d\d\d\d *)
    Some (g (seqs [one_digit; one_digit; one_digit; one_digit]))
  else if Ascii.eqb d "B" then
    Some (g (alts (map Lit (sorted_by_len_desc f_month))))
  else if Ascii.eqb d "b" then
    Some (g (alts (map Lit (sorted_by_len_desc a_month))))
  else None.

(** The pattern of a format: a run of blanks becomes [\s+], a directive its
    pattern, any other character itself. *)
Fixpoint format_regex (in_ws : bool) (fmt : str) : option regex :=
  match fmt with
  | [] => Some Eps
  | "%"%char :: d :: fmt' =>
      match directive d, format_regex false fmt' with
      | Some r, Some r' => Some (Seq r r')
      | _, _ => None
      end
  | c :: fmt' =>
      match format_regex (is_space c) fmt' with
      | Some r' =>
          if is_space c then Some (if in_ws then r' else Seq (plus a_space) r')
          else Some (Seq (Lit [c]) r')
      | None => None
      end
  end.

Fixpoint index_of (x : str) (l : list str) (i : nat) : option nat :=
  match l with
  | [] => None
  | y :: l' => if str_eqb x y then Some i else index_of x l' (S i)
  end.

(** The month of a parse: from [%m], else from [%B], else from [%b], else
    the default 1. *)
Definition parsed_month (s : str) (m : rmatch) : result nat :=
  match group s m (code "m"), group s m (code "B"), group s m (code "b") with
  | Some t, _, _ => py_int t
  | None, Some t, _ =>
      match index_of (map lower t) f_month 1 with
      | Some i => Ok i
      | None => Raise ValueError
      end
  | None, None, Some t =>
      match index_of (map lower t) a_month 1 with
      | Some i => Ok i
      | None => Raise ValueError
      end
  | None, None, None => Ok 1
  end.

Definition parsed_field (s : str) (m : rmatch) (d : ascii) (default : nat)
  : result nat :=
  match group s m (code d) with
  | Some t => py_int t
  | None => Ok default
  end.

(** [datetime.strptime(s, fmt)] for formats over [%Y %m %d %B %b]. *)
Definition strptime (s fmt : str) : result datetime :=
  match format_regex false fmt with
  | None => Raise ValueError
  | Some r =>
      match Re.match_ f_I r s with
      | None => Raise ValueError
      | Some m =>
          if negb (m_end m =? length s) then Raise ValueError
          else
            y <- parsed_field s m "Y" 1900 ;;
            mo <- parsed_month s m ;;
            d <- parsed_field s m "d" 1 ;;
            mk_datetime y mo d
      end
  end.

(* ================================================================== *)
(** ** The output record (app/models.py) *)

Record AddOn : Type := { name : str; monthly_charge : pyfloat }.

Record ContractExtraction : Type :=
  { customer_name : option str;
    customer_phone : option str;
    customer_address : option str;
    plan_name : option str;
    plan_charge : option pyfloat;
    minimum_monthly_plan : option pyfloat;
    contract_start_date : option date;
    contract_end_date : option date;
    order_number : option str;
    activity : option str;
    down_payment : option pyfloat;
    device_model : option str;
    device_imei : option str;
    serial_number : option str;
    sim_number : option str;
    add_ons : list AddOn }.

(** The values a keyword argument of the constructor can carry. *)
Inductive pyval : Type :=
| VNone
| VStr (s : str)
| VFloat (f : pyfloat)
| VDate (d : date)
| VAddOns (l : list AddOn).

Definition kwargs := list (string * pyval).

Fixpoint lookup_kw (name : string) (kw : kwargs) : option pyval :=
  match kw with
  | [] => None
  | (n, v) :: kw' => if String.eqb n name then Some v else lookup_kw name kw'
  end.

(** Validation of one declared field: a missing keyword takes the default,
    a value of another type is refused. *)
Definition field_str (kw : kwargs) (name : string) : result (option str) :=
  match lookup_kw name kw with
  | None | Some VNone => Ok None
  | Some (VStr s) => Ok (Some s)
  | Some _ => Raise ValidationError
  end.

Definition field_float (kw : kwargs) (name : string) : result (option pyfloat) :=
  match lookup_kw name kw with
  | None | Some VNone => Ok None
  | Some (VFloat f) => Ok (Some f)
  | Some _ => Raise ValidationError
  end.

Definition field_date (kw : kwargs) (name : string) : result (option date) :=
  match lookup_kw name kw with
  | None | Some VNone => Ok None
  | Some (VDate d) => Ok (Some d)
  | Some _ => Raise ValidationError
  end.

Definition field_add_ons (kw : kwargs) (name : string) : result (list AddOn) :=
  match lookup_kw name kw with
  | None => Ok []
  | Some (VAddOns l) => Ok l
  | Some _ => Raise ValidationError
  end.

(** The constructor [ContractExtraction] on keyword arguments.  The class
    is a [BaseModel] with the default configuration: the declared fields
    are read from the keyword arguments and validated, and a keyword that
    names no declared field is ignored. *)
Definition ContractExtraction_init (kw : kwargs) : result ContractExtraction :=
  v_customer_name <- field_str kw "customer_name" ;;
  v_customer_phone <- field_str kw "customer_phone" ;;
  v_customer_address <- field_str kw "customer_address" ;;
  v_plan_name <- field_str kw "plan_name" ;;
  v_plan_charge <- field_float kw "plan_charge" ;;
  v_minimum_monthly_plan <- field_float kw "minimum_monthly_plan" ;;
  v_contract_start_date <- field_date kw "contract_start_date" ;;
  v_contract_end_date <- field_date kw "contract_end_date" ;;
  v_order_number <- field_str kw "order_number" ;;
  v_activity <- field_str kw "activity" ;;
  v_down_payment <- field_float kw "down_payment" ;;
  v_device_model <- field_str kw "device_model" ;;
  v_device_imei <- field_str kw "device_imei" ;;
  v_serial_number <- field_str kw "serial_number" ;;
  v_sim_number <- field_str kw "sim_number" ;;
  v_add_ons <- field_add_ons kw "add_ons" ;;
  Ok {| customer_name := v_customer_name;
        customer_phone := v_customer_phone;
        customer_address := v_customer_address;
        plan_name := v_plan_name;
        plan_charge := v_plan_charge;
        minimum_monthly_plan := v_minimum_monthly_plan;
        contract_start_date := v_contract_start_date;
        contract_end_date := v_contract_end_date;
        order_number := v_order_number;
        activity := v_activity;
        down_payment := v_down_payment;
        device_model := v_device_model;
        device_imei := v_device_imei;
        serial_number := v_serial_number;
        sim_number := v_sim_number;
        add_ons := v_add_ons |}.

Definition of_str (v : option str) : pyval :=
  match v with Some s => VStr s | None => VNone end.
Definition of_float (v : option pyfloat) : pyval :=
  match v with Some f => VFloat f | None => VNone end.
Definition of_date (v : option date) : pyval :=
  match v with Some d => VDate d | None => VNone end.

(* ================================================================== *)
(** ** Helpers (app/ocr.py) *)

Definition DATE_PATTERNS : list str :=
  map py ["%B %d, %Y"; "%b %d, %Y"; "%Y-%m-%d"; "%m/%d/%Y"; "%d/%m/%Y"]%string.

Definition cr : ascii := "013"%char.
Definition tab : ascii := "009"%char.

Definition _norm_text (s : str) : str :=
  let s := replace_char cr (py "\n") s in
  (* [ \t]+ *)
  let s := Re.sub no_flags (plus (cls [CChar " "; CChar tab])) (py " ") s in
  (* \n{2,} *)
  let s := Re.sub no_flags (Rep (chr newline) 2 None true) (py "\n") s in
  strip s.

Definition _collapse_spaces (s : option str) : option str :=
  match s with
  | None | Some [] => None
  | Some s =>
      (* \s+ *)
      Some (strip (Re.sub no_flags (plus a_space) (py " ") s))
  end.

Definition _digits_only (s : option str) : str :=
  (* \D *)
  Re.sub no_flags (One (ncls [CDigit])) []
         (match s with Some s => s | None => [] end).

(** [m.group(1).strip() if m else None]; a group that took no part in the
    match is [None], which has no [strip]. *)
Definition _first_group (pattern : regex) (text : str) (fl : flags)
  : result (option str) :=
  match Re.search fl pattern text with
  | Some m =>
      match Re.group text m 1 with
      | Some g => Ok (Some (strip g))
      | None => Raise AttributeError
      end
  | None => Ok None
  end.

(** [try: ... except ValueError: handler] *)
Definition except_ValueError {A : Type} (body : result A) (handler : result A)
  : result A :=
  match body with
  | Raise ValueError => handler
  | other => other
  end.

Definition _money_to_float (s : option str) : result (option pyfloat) :=
  match s with
  | None | Some [] => Ok None
  | Some s =>
      let s := replace_char "," [] s in
      (* (\d+(?:\.\d{1,2})?) *)
      let pat := Group 1 (Seq (plus a_digit)
                   (Alt (Seq (Lit (py ".")) (Rep a_digit 1 (Some 2) true)) Eps)) in
      match Re.search no_flags pat s with
      | None => Ok None
      | Some m =>
          except_ValueError
            (match Re.group s m 1 with
             | Some g => f <- py_float g ;; Ok (Some f)
             | None => Raise TypeError
             end)
            (Ok None)
      end
  end.

Section Parsing.

(** [datetime.fromisoformat], a library function whose accepted forms
    depend on the Python version: it is kept abstract. *)
Variable fromisoformat : str -> result datetime.

Fixpoint try_formats (s : str) (fmts : list str) : result (option datetime) :=
  match fmts with
  | [] =>
      (* fallback: try ISO-ish *)
      except_ValueError (d <- fromisoformat s ;; Ok (Some d)) (Ok None)
  | fmt :: fmts' =>
      except_ValueError (d <- strptime s fmt ;; Ok (Some d))
                        (try_formats s fmts')
  end.

Definition _parse_date_str (s : option str) : result (option datetime) :=
  match s with
  | None | Some [] => Ok None
  | Some _ =>
      match _collapse_spaces s with
      | None | Some [] => Ok None
      | Some s =>
          (* strip trailing punctuation / label fragments: [;|]+$ *)
          let s := strip (Re.sub no_flags
                            (Seq (plus (cls [CChar ";"; CChar "|"])) Eol) [] s) in
          try_formats s DATE_PATTERNS
      end
  end.

Definition _extract_section (text start_marker : str) (end_markers : list str)
  : str :=
  match Re.search f_I (Lit start_marker) text with
  | None => []
  | Some start =>
      let start_pos := m_end start in
      let end_pos :=
        fold_left
          (fun end_pos em =>
             match Re.search f_I (Lit em) (skipn start_pos text) with
             | Some m => Nat.min end_pos (start_pos + m_start m)
             | None => end_pos
             end)
          end_markers (length text) in
      strip (slice text start_pos end_pos)
  end.

(** The pattern [label\s*:\s*] that opens every labelled extraction. *)
Definition label_colon (label : str) : list regex :=
  [Lit label; star a_space; Lit (py ":"); star a_space].

Definition _extract_value_by_label (text label : str) (max_len : nat)
  : result (option str) :=
  (* label\s*:\s*([^\n]+) *)
  let pat := seqs (label_colon label ++ [Group 1 (plus (ncls [CChar newline]))]) in
  v <- _first_group pat text f_I ;;
  match v with
  | None | Some [] => Ok None
  | Some v =>
      let v := strip v in
      let v := if max_len <? length v then strip (firstn max_len v) else v in
      Ok (Some v)
  end.

Definition a_AZ : citem := CRange "A" "Z".

Definition _extract_block_after_label (text label : str) (stop_labels : list str)
  : result (option str) :=
  let stop_union := alts (map Lit stop_labels) in
  (* label\s*:\s*(.*?)(?=\n(?:stop_union)\s*:|\n[A-Z][A-Z ]{3,}:|\Z) *)
  let pat :=
    seqs (label_colon label ++
          [Group 1 (Rep ADot 0 None false);
           Look (alts
             [seqs [Lit (py "\n"); stop_union; star a_space; Lit (py ":")];
              seqs [Lit (py "\n"); One (cls [a_AZ]);
                    Rep (cls [a_AZ; CChar " "]) 3 None true; Lit (py ":")];
              Eos])]) in
  v <- _first_group pat text f_IS ;;
  Ok (if truthy v then _collapse_spaces v else None).

(** [s[-n:]] for [n > 0]. *)
Definition last_n (n : nat) (s : str) : str := skipn (length s - n) s.

Definition _extract_phone_from_chunk (chunk : str) : result (option str) :=
  match chunk with
  | [] => Ok None
  | _ =>
      (* (\(?\d{3}\)?\s*[- ]?\s*\d{3}\s*[- ]?\s*\d{4}) *)
      let sep := opt (cls [CChar "-"; CChar " "]) in
      let pat :=
        Group 1 (seqs [opt (chr "("); exactly 3 a_digit; opt (chr ")");
                       star a_space; sep; star a_space; exactly 3 a_digit;
                       star a_space; sep; star a_space; exactly 4 a_digit]) in
      match Re.search no_flags pat chunk with
      | None => Ok None
      | Some m =>
          let digits := _digits_only (Re.group chunk m 1) in
          if 10 <=? length digits
          then Ok (Some (last_n 10 digits))  (* safe in case OCR adds country code *)
          else Ok None
      end
  end.

(** [max(runs, key=len)]: the first of the longest. *)
Fixpoint max_by_len (best : str) (runs : list str) : str :=
  match runs with
  | [] => best
  | r :: runs' => max_by_len (if length best <? length r then r else best) runs'
  end.

Definition _extract_long_digit_run (chunk : option str) (min_len max_len : nat)
  : result (option str) :=
  match chunk with
  | None | Some [] => Ok None
  | Some _ =>
      let digits := _digits_only chunk in
      (* \d{min_len,max_len} *)
      let pat := Rep a_digit min_len (Some max_len) true in
      if negb (well_formed pat) then Raise ReError
      else
        match Re.findall no_flags pat digits with
        | [] => Ok None
        | r :: runs => Ok (Some (max_by_len r runs))
        end
  end.

Definition a_letter : atom := cls [CRange "A" "Z"; CRange "a" "z"].

Definition _extract_labeled_date (text label : str) : result (option datetime) :=
  (* label\s*:\s*([A-Za-z]{3,9}\s+\d{1,2},\s+\d{4}|\d{4}-\d{2}-\d{2}|\d{1,2}/\d{1,2}/\d{4}) *)
  let pat :=
    seqs (label_colon label ++
          [Group 1 (alts
             [seqs [Rep a_letter 3 (Some 9) true; plus a_space;
                    Rep a_digit 1 (Some 2) true; Lit (py ","); plus a_space;
                    exactly 4 a_digit];
              seqs [exactly 4 a_digit; Lit (py "-"); exactly 2 a_digit;
                    Lit (py "-"); exactly 2 a_digit];
              seqs [Rep a_digit 1 (Some 2) true; Lit (py "/");
                    Rep a_digit 1 (Some 2) true; Lit (py "/");
                    exactly 4 a_digit]])]) in
  raw <- _first_group pat text f_I ;;
  _parse_date_str raw.

(** [re.split(pattern, v, flags)[0].strip()] *)
Definition split_head (fl : flags) (r : regex) (g : option nat) (v : str)
  : result str :=
  match Re.split fl r g v with
  | [] => Raise IndexError
  | Some piece :: _ => Ok (strip piece)
  | None :: _ => Raise AttributeError
  end.

Definition lits (names : list string) : regex := alts (map (fun n => Lit (py n)) names).

Fixpoint _pick_customer_name_loop (info_section : str) (labels : list str)
  : result (option str) :=
  match labels with
  | [] => Ok None
  | label :: labels' =>
      v <- _extract_value_by_label info_section label 200 ;;
      match _collapse_spaces v with
      | Some (c :: t) =>
          (* (Monthly Payment Method|...|Address)\s*: *)
          v <- split_head f_I
                 (seqs [Group 1 (lits ["Monthly Payment Method"; "First Bill Date";
                                       "User Name"; "Account Number"; "Phone Number";
                                       "Default Voicemail Password"; "Address"]%string);
                        star a_space; Lit (py ":")])
                 (Some 1) (c :: t) ;;
          match v with
          | [] => _pick_customer_name_loop info_section labels'
          | _ => Ok (Some v)
          end
      | _ => _pick_customer_name_loop info_section labels'
      end
  end.

Definition _pick_customer_name (info_section : str) : result (option str) :=
  _pick_customer_name_loop info_section
    (map py ["Customer Name"; "Company Name"; "Customer ID"; "Account Number"]%string).

(** Label, optional dollar sign, amount:
    [label\s*:\s*\$?\s*([0-9.,]+)]. *)
Definition charge_pattern (label : list regex) : regex :=
  seqs (label ++
        [star a_space; Lit (py ":"); star a_space; opt (chr "$"); star a_space;
         Group 1 (plus (cls [CRange "0" "9"; CChar "."; CChar ","]))]).

Definition monthly_rate_plan_charge : regex :=
  charge_pattern [Lit (py "Monthly Rate Plan Charge")].

Definition minimum_monthly_charge : regex :=
  charge_pattern [Lit (py "Minimum Monthly Charge")].

(** The characters of [ln.strip(...)] in the fallback below that lie in the
    range of the model: a-circumflex, the cent sign, the asterisk, the blank
    and the tab. *)
Definition bullet_chars : str := ["226"%char; "162"%char; "*"%char; " "%char; tab].

(** The loop of the fallback: the first line that is neither a section
    header nor a Plan line; [plan_name] is kept when there is none. *)
Fixpoint _plan_name_fallback (plan_name : option str) (lines : list str)
  : option str :=
  match lines with
  | [] => plan_name
  | ln :: lines' =>
      (* ^(YOUR RATE PLAN DETAILS|YOUR RATE PLAN ADD-ONS|MINIMUM MONTHLY CHARGE|TOTAL MONTHLY CHARGE) *)
      match Re.search f_I
              (Seq Bos (Group 1 (lits ["YOUR RATE PLAN DETAILS"; "YOUR RATE PLAN ADD-ONS";
                                       "MINIMUM MONTHLY CHARGE"; "TOTAL MONTHLY CHARGE"]%string)))
              ln with
      | Some _ => _plan_name_fallback plan_name lines'
      | None =>
          (* ^(Plan\s*:) *)
          match Re.search f_I
                  (Seq Bos (Group 1 (seqs [Lit (py "Plan"); star a_space; Lit (py ":")])))
                  ln with
          | Some _ => _plan_name_fallback plan_name lines'
          | None => _collapse_spaces (Some ln)  (* likely description line *)
          end
      end
  end.

Definition _pick_plan_name_and_charge (rate_section full_text : str)
  : result (option str * option pyfloat) :=
  (* First: get the Plan line (most reliable for name) *)
  plan_line <- or_else (_extract_value_by_label rate_section (py "Plan") 250)
                       (_extract_value_by_label full_text (py "Plan") 250) ;;
  '(plan_name, plan_charge) <-
    match plan_line with
    | Some (c :: t) =>
        let plan_line := c :: t in
        (* Plan charge: try Monthly Rate Plan Charge *)
        charge_raw <- _first_group monthly_rate_plan_charge plan_line f_I ;;
        plan_charge <- (if truthy charge_raw then _money_to_float charge_raw
                        else Ok None) ;;
        (* If not found, try Minimum Monthly Charge (BYOD header style) *)
        plan_charge <-
          match plan_charge with
          | None =>
              charge_raw <- _first_group minimum_monthly_charge plan_line f_I ;;
              if truthy charge_raw then _money_to_float charge_raw else Ok None
          | Some f => Ok (Some f)
          end ;;
        (* Monthly Rate Plan Charge\s*:|Minimum Monthly Charge\s*: *)
        name_part <- split_head f_I
                       (Alt (seqs [Lit (py "Monthly Rate Plan Charge"); star a_space; Lit (py ":")])
                            (seqs [Lit (py "Minimum Monthly Charge"); star a_space; Lit (py ":")]))
                       None plan_line ;;
        Ok (_collapse_spaces (Some name_part), plan_charge)
    | _ => Ok (None, None)
    end ;;
  (* Fallback: the first descriptive line of the rate section *)
  let plan_name :=
    if truthy plan_name then plan_name
    else
      let lines := map (strip_chars bullet_chars)
                       (filter (fun ln => truthy (Some (strip ln)))
                               (split_on newline rate_section)) in
      _plan_name_fallback plan_name lines in
  Ok (plan_name, plan_charge).

(** [a or b] on optional dates (a [datetime] is always truthy). *)
Definition or_else_dt (a b : result (option datetime)) : result (option datetime) :=
  v <- a ;;
  match v with
  | Some d => Ok (Some d)
  | None => b
  end.

(* ================================================================== *)
(** ** Parsing *)

Definition parse_contract_text (full_text : str) : result ContractExtraction :=
  let text := _norm_text full_text in

  (* Targeted sections (prevents Store Phone Number bleeding into customer phone) *)
  let info_section :=
    _extract_section text (py "YOUR INFORMATION:")
      (map py ["YOUR DEVICE DETAILS:"; "YOUR DEVICE DETAILS";
               "YOUR RATE PLAN DETAILS:"; "CRITICAL INFORMATION SUMMARY"]%string) in
  let device_section :=
    _extract_section text (py "YOUR DEVICE DETAILS:")
      (map py ["YOUR RATE PLAN DETAILS:"; "YOUR RATE PLAN DETAILS";
               "MINIMUM MONTHLY CHARGE"; "TOTAL MONTHLY CHARGE"]%string) in
  let rate_section :=
    _extract_section text (py "YOUR RATE PLAN DETAILS:")
      (map py ["YOUR RATE PLAN ADD-ONS:"; "YOUR PROMOTIONS:";
               "TOTAL MONTHLY CHARGE:"; "ONE-TIME CHARGES:"]%string) in

  (* --- Customer Name (Customer Name OR Company Name OR Customer ID) --- *)
  v_customer_name <- _pick_customer_name (or_text info_section text) ;;

  (* --- Customer Phone (from YOUR INFORMATION only) --- *)
  raw_phone_line <-
    or_else (_extract_value_by_label (or_text info_section text) (py "Phone Number") 200)
            (_extract_value_by_label (or_text info_section text) (py "Phone") 200) ;;
  v_customer_phone <-
    match raw_phone_line with
    | Some (c :: t) => _extract_phone_from_chunk (c :: t)
    | _ => Ok None
    end ;;

  (* --- Customer Address (multi-line) --- *)
  v_customer_address <-
    _extract_block_after_label (or_text info_section text) (py "Address")
      (map py ["Monthly Payment Method"; "First Bill Date"; "User Name";
               "Account Number"; "Phone Number"; "Default Voicemail Password";
               "Customer ID"]%string) ;;

  (* --- Order Number / Activity (from Critical Info area; safe on whole text) --- *)
  v_order_number <- _extract_value_by_label text (py "Order Number") 200 ;;
  v_order_number <-
    match v_order_number with
    | Some (c :: t) =>
        (* \b(Store|Date|Activity)\s*: *)
        v <- split_head f_I
               (seqs [WordB; Group 1 (lits ["Store"; "Date"; "Activity"]%string);
                      star a_space; Lit (py ":")])
               (Some 1) (c :: t) ;;
        Ok (Some v)
    | other => Ok other
    end ;;
  let v_order_number := _collapse_spaces v_order_number in

  v_activity <- _extract_value_by_label text (py "Activity") 200 ;;
  v_activity <-
    match v_activity with
    | Some (c :: t) =>
        (* \b(Store Phone Number|Store|Date)\s*: *)
        v <- split_head f_I
               (seqs [WordB; Group 1 (lits ["Store Phone Number"; "Store"; "Date"]%string);
                      star a_space; Lit (py ":")])
               (Some 1) (c :: t) ;;
        Ok (Some v)
    | other => Ok other
    end ;;
  let v_activity := _collapse_spaces v_activity in

  (* --- Dates (robust label->date extractor) --- *)
  contract_start <-
    or_else_dt (_extract_labeled_date (or_text device_section text) (py "Start Date"))
               (_extract_labeled_date text (py "Start Date")) ;;
  contract_end <-
    or_else_dt (_extract_labeled_date (or_text device_section text) (py "End Date"))
               (_extract_labeled_date text (py "End Date")) ;;

  (* --- Plan name & plan charge --- *)
  '(v_plan_name, v_plan_charge) <-
    _pick_plan_name_and_charge (or_text rate_section text) text ;;

  (* --- Minimum Monthly Plan (SmartPay docs) --- *)
  (* MINIMUM MONTHLY CHARGE\s*\(FOR DEVICE AND RATE PLAN\)\s*:\s*\$?\s*([0-9.,]+) *)
  raw <- _first_group
           (charge_pattern [Lit (py "MINIMUM MONTHLY CHARGE"); star a_space;
                            Lit (py "(FOR DEVICE AND RATE PLAN)")])
           text f_I ;;
  v_minimum_monthly_plan <- _money_to_float raw ;;

  (* If plan_charge still missing:
     BYOD commonly has "Minimum Monthly Charge: $85.00" elsewhere *)
  v_plan_charge <-
    match v_plan_charge with
    | None =>
        raw <- _first_group minimum_monthly_charge text f_I ;;
        byod_min <- _money_to_float raw ;;
        match byod_min with
        | Some f => Ok (Some f)
        | None =>
            (* SmartPay: "Monthly Rate Plan Charge: $20.00" may appear elsewhere *)
            raw <- _first_group monthly_rate_plan_charge text f_I ;;
            mrc <- _money_to_float raw ;;
            match mrc with
            | Some f => Ok (Some f)
            | None => Ok v_plan_charge
            end
        end
    | Some f => Ok (Some f)
    end ;;

  (* --- Device model / IMEI / SIM --- *)
  model_raw <- _extract_value_by_label (or_text device_section text) (py "Model") 200 ;;
  model_raw <-
    match model_raw with
    | Some (c :: t) =>
        (* \b(Early Cancellation Fee|IMEI/ESN/MEID|SIM Number|Commitment Period|Start Date|End Date)\b *)
        v <- split_head f_I
               (seqs [WordB;
                      Group 1 (lits ["Early Cancellation Fee"; "IMEI/ESN/MEID";
                                     "SIM Number"; "Commitment Period";
                                     "Start Date"; "End Date"]%string);
                      WordB])
               (Some 1) (c :: t) ;;
        Ok (Some v)
    | other => Ok other
    end ;;
  let v_device_model := _collapse_spaces model_raw in

  imei_chunk <-
    or_else (_extract_value_by_label (or_text device_section text) (py "IMEI/ESN/MEID") 200)
            (_extract_value_by_label (or_text device_section text) (py "IMEI") 200) ;;
  v_device_imei <- _extract_long_digit_run imei_chunk 10 20 ;;

  sim_chunk <-
    or_else (_extract_value_by_label (or_text device_section text) (py "SIM Number") 250)
            (_extract_value_by_label (or_text device_section text) (py "SIM") 250) ;;
  v_sim_number <- _extract_long_digit_run sim_chunk 18 22 ;;

  ContractExtraction_init
    [("customer_name", of_str v_customer_name);
     ("customer_phone", of_str v_customer_phone);
     ("customer_address", of_str v_customer_address);
     ("plan_name", of_str v_plan_name);
     ("plan_charge", of_float v_plan_charge);
     ("minimum_monthly_plan", of_float v_minimum_monthly_plan);
     ("contract_start_date", of_date (option_map to_date contract_start));
     ("contract_end_date", of_date (option_map to_date contract_end));
     ("order_number", of_str v_order_number);
     ("activity", of_str v_activity);
     ("down_payment", VNone);
     ("device_model", of_str v_device_model);
     ("device_imei", of_str v_device_imei);
     ("sim_number", of_str v_sim_number);
     ("raw_text", VStr full_text)]%string.

End Parsing.

Unset Implicit Arguments.

(* ================================================================== *)
(** ** Vocabulary of the properties *)

Definition hd_ok (p : ascii -> bool) (s : str) : bool :=
  match s with
  | c :: _ => negb (p c)
  | [] => true
  end.

(** A text is stripped when neither end is a character of the set. *)
Definition stripped (p : ascii -> bool) (s : str) : Prop :=
  hd_ok p s = true /\ hd_ok p (rev s) = true.

Inductive piece : Type :=
| PTxt (c : ascii)
| PHit (text : str).

Definition erase (sg : seg) : piece :=
  match sg with
  | Txt c => PTxt c
  | Hit _ t => PHit t
  end.

Section Scan.
Variable P : ascii -> bool.
Variables (lo : nat) (hi : option nat).

Inductive Scan : str -> list piece -> Prop :=
| scan_nil : Scan [] []
| scan_txt c s out :
    cap_len hi (run_len P (c :: s)) < lo ->
    Scan s out -> Scan (c :: s) (PTxt c :: out)
| scan_hit s n out :
    n = cap_len hi (run_len P s) -> lo <= n ->
    Scan (skipn n s) out -> Scan s (PHit (firstn n s) :: out).
End Scan.

(** The scan of [a{0,hi}], which also matches the empty text: an empty
    match where no matching character follows, and at the end. *)
Inductive Scan0 (P : ascii -> bool) (hi : option nat) : str -> list piece -> Prop :=
| scan0_nil : Scan0 P hi [] [PHit []]
| scan0_empty c s out :
    cap_len hi (run_len P (c :: s)) = 0 ->
    Scan0 P hi s out -> Scan0 P hi (c :: s) (PHit [] :: PTxt c :: out)
| scan0_hit s n out :
    n = cap_len hi (run_len P s) -> 1 <= n ->
    Scan0 P hi (skipn n s) out -> Scan0 P hi s (PHit (firstn n s) :: out).

Definition pieces_sub (repl : str) (ps : list piece) : str :=
  flat_map (fun p => match p with PTxt c => [c] | PHit _ => repl end) ps.

Definition pieces_hits (ps : list piece) : list str :=
  flat_map (fun p => match p with PTxt _ => [] | PHit t => [t] end) ps.

(** A text is tidy for a pattern [a{lo,}] replaced by the character [r]
    when every run the pattern matches is the single character [r]: the
    substitution then changes nothing. *)
Fixpoint tidy (P : ascii -> bool) (lo : nat) (r : ascii) (s : str) : Prop :=
  match s with
  | [] => True
  | c :: s' => (lo <= run_len P s -> run_len P s = 1 /\ c = r) /\ tidy P lo r s'
  end.

Definition blank : atom := cls [CChar " "; CChar tab].

Definition P_blank : ascii -> bool := atom_ok no_flags blank.

Definition P_nl : ascii -> bool := atom_ok no_flags (chr newline).

Definition no_cr (s : str) : Prop := Forall (fun c => c <> cr) s.

(** The normal form the normaliser produces: no carriage return, single
    blanks, single newlines, stripped ends. *)
Definition normal (s : str) : Prop :=
  no_cr s /\ tidy P_blank 1 " " s /\ tidy P_nl 2 newline s /\ stripped is_space s.

(** The marker [l] occurs in [s] at offset [j], letter case apart. *)
Definition occurs (l s : str) (j : nat) : Prop :=
  j <= length s /\ lit_prefix f_I l (skipn j s) = true.





(** Does every match of [r] close the group [n]? *)
Fixpoint sets_group (n : nat) (r : regex) : bool :=
  match r with
  | Group m r1 => (m =? n) || sets_group n r1
  | Seq r1 r2 => sets_group n r1 || sets_group n r2
  | Alt r1 r2 => sets_group n r1 && sets_group n r2
  | _ => false
  end.

Definition has_cap (n : nat) (st : mstate) : Prop := lookup_cap n (caps st) <> None.

Definition keeps (n : nat) (k : mstate -> option mstate) : Prop :=
  forall st res, has_cap n st -> k st = Some res -> has_cap n res.

(** The label occurs in the text at offset [j], letter case apart, and a
    colon follows it after optional blanks. *)
Definition label_colon_at (label text : str) (j : nat) : Prop :=
  j <= length text /\ lit_prefix f_I label (skipn j text) = true /\
  exists t, lstrip_with is_space (skipn (j + length label) text) = ":"%char :: t.

(** The sections [parse_contract_text] slices. *)
Definition info_section_of (text : str) : str :=
  _extract_section text (py "YOUR INFORMATION:")
    (map py ["YOUR DEVICE DETAILS:"; "YOUR DEVICE DETAILS";
             "YOUR RATE PLAN DETAILS:"; "CRITICAL INFORMATION SUMMARY"]%string).

Definition rate_section_of (text : str) : str :=
  _extract_section text (py "YOUR RATE PLAN DETAILS:")
    (map py ["YOUR RATE PLAN ADD-ONS:"; "YOUR PROMOTIONS:";
             "TOTAL MONTHLY CHARGE:"; "ONE-TIME CHARGES:"]%string).

(** The amount that follows a charge label in a text. *)
Definition amount_in (pattern : regex) (text : str) : result (option pyfloat) :=
  raw <- _first_group pattern text f_I ;; _money_to_float raw.

(** A [fromisoformat] for closed examples: the calendar form YYYY-MM-DD,
    which every version of the library accepts, and nothing else. *)
Definition fromisoformat_calendar (s : str) : result datetime :=
  if (length s =? 10)
     && forallb is_digit (slice s 0 4) && str_eqb (slice s 4 5) (py "-")
     && forallb is_digit (slice s 5 7) && str_eqb (slice s 7 8) (py "-")
     && forallb is_digit (slice s 8 10)
  then mk_datetime (N.to_nat (digits_val (slice s 0 4)))
                   (N.to_nat (digits_val (slice s 5 7)))
                   (N.to_nat (digits_val (slice s 8 10)))
  else Raise ValueError.

Definition mk_date (y m d : nat) : datetime :=
  {| year := y; month := m; day := d;
     hour := 0; minute := 0; second := 0; microsecond := 0 |}.

(** The retry order as the specification states it: when the Plan line
    leaves the plan charge absent, the record takes the amount after
    Monthly Rate Plan Charge in the whole text, and only when there is
    none the amount after Minimum Monthly Charge. *)
Definition retry_order_as_stated (fromisoformat : str -> result datetime)
  (full_text : str) : Prop :=
  forall r pn mrc byod,
    let text := _norm_text full_text in
    parse_contract_text fromisoformat full_text = Ok r ->
    _pick_plan_name_and_charge (or_text (rate_section_of text) text) text
      = Ok (pn, None) ->
    amount_in monthly_rate_plan_charge text = Ok mrc ->
    amount_in minimum_monthly_charge text = Ok byod ->
    plan_charge r = match mrc with Some f => Some f | None => byod end.


(** Texts of the closed examples. *)
Definition two_charges : str :=
  py "Monthly Rate Plan Charge: $20.00\nMinimum Monthly Charge: $85.00".


Definition sliced_text : str := py "A: x\nSTART:\nfoo\nEND:\nbar".

Definition scenario : str :=
  py "YOUR INFORMATION:\nCustomer Name: Jane Doe\nPhone Number: (780) 617-4431\nAddress: 123 Main St\nEdmonton, AB\nYOUR DEVICE DETAILS:\nModel: Galaxy S21\nIMEI/ESN/MEID: 356789012345678\nStart Date: November 19, 2025\nEnd Date: November 18, 2027".

(** A clean value: not empty, its only white space single blanks between
    words. *)
Definition clean (v : str) : Prop :=
  v <> []
  /\ (forall c, In c v -> is_space c = true -> c = " "%char)
  /\ (forall pre post, v <> pre ++ " "%char :: " "%char :: post)
  /\ strip v = v.

(** The characters of a scan before its first match. *)
Fixpoint leading_txt (sgs : list seg) : str :=
  match sgs with
  | Txt c :: sgs' => c :: leading_txt sgs'
  | _ => []
  end.

(** The amount a text shows, read without a pattern: from the first digit
    on, the digits are the whole part; a point and one or two digits after
    them are the hundredths. *)
Definition read_amount (t : str) : option pyfloat :=
  let u := lstrip_with (fun c => negb (is_digit c)) t in
  let n := run_len is_digit u in
  let whole := digits_val (firstn n u) in
  match u with
  | [] => None
  | _ =>
      Some (100 * whole +
            match skipn n u with
            | c :: a :: rest' =>
                if Ascii.eqb c "." && is_digit a
                then 10 * digit_val a +
                     match rest' with
                     | b :: _ => if is_digit b then digit_val b else 0
                     | [] => 0
                     end
                else 0
            | _ => 0
            end)%N
  end.

(** The pattern of an amount, [(\d+(?:\.\d{1,2})?)]. *)
Definition amount_pattern : regex :=
  Group 1 (Seq (plus a_digit)
             (Alt (Seq (Lit (py ".")) (Rep a_digit 1 (Some 2) true)) Eps)).

(** The length of the decimals an amount shows at the head of [t]: a
    point and one or two digits, or nothing. *)
Definition frac_len (t : str) : nat :=
  match t with
  | c :: a :: rest' =>
      if Ascii.eqb c "." && is_digit a
      then 2 + match rest' with
               | b :: _ => if is_digit b then 1 else 0
               | [] => 0
               end
      else 0
  | _ => 0
  end.

(** The length of the amount at the head of [u]. *)
Definition amount_len (u : str) : nat :=
  run_len is_digit u + frac_len (skipn (run_len is_digit u) u).

(** Does every match of [r] take a colon from the text? *)
Fixpoint needs_colon (r : regex) : bool :=
  match r with
  | Lit l => existsb (Ascii.eqb ":") l
  | Seq r1 r2 => needs_colon r1 || needs_colon r2
  | Alt r1 r2 => needs_colon r1 && needs_colon r2
  | Group _ r1 => needs_colon r1
  | _ => false
  end.

(** The lines the plan-name fallback walks through. *)
Definition fallback_lines (rate_section : str) : list str :=
  map (strip_chars bullet_chars)
      (filter (fun ln => truthy (Some (strip ln))) (split_on newline rate_section)).

(** [v] is a contiguous piece of [s]. *)
Definition piece_of (v s : str) : Prop := exists pre post, s = pre ++ v ++ post.

(** The state of a match attempt is in step with the text searched. *)
Definition in_step (text : str) (st : mstate) : Prop :=
  rest st = skipn (pos st) text.

(** The label is nowhere in the text followed by a colon. *)
Definition unlabelled (label : string) (text : str) : Prop :=
  forall j, ~ label_colon_at (py label) text j.

(** A line that opens with a header of the rate section, letter case
    apart. *)
Definition is_header_line (ln : str) : bool :=
  existsb (fun h => lit_prefix f_I (py h) ln)
    ["YOUR RATE PLAN DETAILS"; "YOUR RATE PLAN ADD-ONS";
     "MINIMUM MONTHLY CHARGE"; "TOTAL MONTHLY CHARGE"]%string.

(** A line that opens with the label Plan, optional blanks and a colon. *)
Definition is_plan_line (ln : str) : bool :=
  lit_prefix f_I (py "Plan") ln
  && match lstrip_with is_space (skipn 4 ln) with
     | c :: _ => Ascii.eqb c ":"
     | [] => false
     end.

(** Did the search find a match? *)
Definition found (m : option rmatch) : bool :=
  match m with Some _ => true | None => false end.

(** The characters dropped from the end of a date text. *)
Definition is_date_tail (c : ascii) : bool :=
  Ascii.eqb ";" c || Ascii.eqb "|" c.

(** The pattern of these characters at the end of the text, [[;|]+$]. *)
Definition date_tail : regex := Seq (plus (cls [CChar ";"; CChar "|"])) Eol.

(** The text up to the first newline. *)
Definition line_of (u : str) : str :=
  firstn (run_len (fun c => negb (Ascii.eqb c newline)) u) u.

(** [v[:max_len].strip()] for a value longer than the maximum. *)
Definition cut_to (max_len : nat) (v : str) : str :=
  if max_len <? length v then strip (firstn max_len v) else v.

(** The first place [j] of the text where the label stands, letter case
    apart, followed by optional white space and a colon; [r] is the text
    after this colon. *)
Definition first_label_colon (label text : str) (j : nat) (r : str) : Prop :=
  j <= length text
  /\ lit_prefix f_I label (skipn j text) = true
  /\ lstrip_with is_space (skipn (j + length label) text) = ":"%char :: r
  /\ forall j', j' < j -> ~ label_colon_at label text j'.

(** Label-to-line extraction as the specification words it: absent when
    the label and its colon do not occur, and otherwise a value that is
    not empty, trimmed and at most the maximum long. *)
Definition value_by_label_as_stated (text label : str) (max_len : nat) : Prop :=
  ((forall j, ~ label_colon_at label text j) ->
   _extract_value_by_label text label max_len = Ok None)
  /\ ((exists j, label_colon_at label text j) ->
      exists v, _extract_value_by_label text label max_len = Ok (Some v)
                /\ v <> [] /\ length v <= max_len /\ strip v = v).

(* ================================================================== *)
(** ** The pipeline and the endpoint (app/ocr.py, app/main.py) *)

(** [sep.join(parts)] *)
Fixpoint join (sep : str) (parts : list str) : str :=
  match parts with
  | [] => []
  | [p] => p
  | p :: rest => p ++ sep ++ join sep rest
  end.

(** [s.endswith(suffix)] *)
Definition endswith (s suffix : str) : bool :=
  str_eqb (skipn (length s - length suffix) s) suffix
  && (length suffix <=? length s).

Section Service.

(** Page images, and the exceptions of the rendering and OCR libraries
    (subclasses of [Exception]). *)
Variable image : Type.
Variable ext_error : Type.

(** What a call of the service layer can raise. *)
Inductive failure : Type :=
| Core (e : exn)
| External (e : ext_error)
| HTTPException (status_code : nat) (detail : str).

Inductive outcome (A : Type) : Type :=
| Done (a : A)
| Fail (e : failure).

Arguments Done {A} a.
Arguments Fail {A} e.

Definition and_then {A B : Type} (m : outcome A) (f : A -> outcome B) : outcome B :=
  match m with
  | Done a => f a
  | Fail e => Fail e
  end.

Definition of_core {A : Type} (m : result A) : outcome A :=
  match m with
  | Ok a => Done a
  | Raise e => Fail (Core e)
  end.

(** The rendering of a document into page images and the OCR of one page
    call into external libraries: they are parameters. *)
Variable pdf_to_images : list Byte.byte -> outcome (list image).
Variable ocr_image : image -> outcome str.
Variable fromisoformat : str -> result datetime.

(** [ocr_image(img) for img in images], in page order. *)
Fixpoint ocr_pages (images : list image) : outcome (list str) :=
  match images with
  | [] => Done []
  | img :: images' =>
      and_then (ocr_image img) (fun t =>
      and_then (ocr_pages images') (fun ts => Done (t :: ts)))
  end.

Definition extract_from_pdf (pdf_bytes : list Byte.byte) : outcome ContractExtraction :=
  and_then (pdf_to_images pdf_bytes) (fun images =>
  and_then (ocr_pages images) (fun texts =>
  let full_text := join (py "\n") texts in
  of_core (parse_contract_text fromisoformat full_text))).

(** What the endpoint answers: the response model, or a JSON body with a
    status code. *)
Inductive response : Type :=
| ExtractResponse (success : bool) (message : str)
                  (extraction : option ContractExtraction)
| JSONResponse (status_code : nat) (success : bool) (message : str)
               (extraction : option ContractExtraction).

(** [str(ex)], which depends on the class of the exception. *)
Variable str_of : failure -> str.

(** [try: body except Exception as ex: handler(ex)] *)
Definition except_Exception {A : Type} (body : outcome A)
  (handler : failure -> outcome A) : outcome A :=
  match body with
  | Done a => Done a
  | Fail ex => handler ex
  end.

(** The endpoint; [filename] is [file.filename] and [read] what
    [await file.read()] gives. *)
Definition extract_contract (filename : option str)
  (read : outcome (list Byte.byte)) : outcome response :=
  (* Basic validation *)
  and_then (match filename with
            | Some f => Done (endswith (map lower f) (py ".pdf"))
            | None => Fail (Core AttributeError)
            end) (fun is_pdf =>
  if negb is_pdf
  then Fail (HTTPException 400 (py "Only PDF files are supported."))
  else
    except_Exception
      (and_then read (fun pdf_bytes =>
       and_then (match pdf_bytes with
                 | [] => Fail (HTTPException 400 (py "Empty file."))
                 | _ => Done tt
                 end) (fun _ =>
       and_then (extract_from_pdf pdf_bytes) (fun extraction =>
       Done (ExtractResponse true (py "Extraction completed.") (Some extraction))))))
      (fun ex =>
         (* In production, log ex with traceback *)
         Done (JSONResponse 500 false
                 (py "Error during extraction: " ++ str_of ex) None))).

End Service.

Arguments Done {ext_error A} a.
Arguments Fail {ext_error A} e.

(** A closed instance of the service: documents of two pages, of which
    the first is read and the second is not. *)
Definition sample_render (pdf_bytes : list Byte.byte) : outcome unit (list nat) :=
  Done [0; 1].

Definition sample_ocr (img : nat) : outcome unit str :=
  match img with
  | 0 => Done (py "Order Number: 42")
  | _ => Fail (External unit tt)
  end.

Definition sample_str_of (ex : failure unit) : str :=
  match ex with
  | HTTPException _ _ detail => detail
  | _ => py "error"
  end.

(* ================================================================== *)
(** ** Facts about strings *)



Lemma lstrip_suffix (p : ascii -> bool) (s : str) :
  exists pre, s = pre ++ lstrip_with p s /\ forallb p pre = true.
Proof.
  induction s as [|c s IH]; simpl.
  - exists []. auto.
  - destruct (p c) eqn:E.
    + destruct IH as [pre [H1 H2]]. exists (c :: pre). simpl.
      rewrite E, H2. split; [f_equal; exact H1 | reflexivity].
    + exists []. auto.
Qed.

Lemma lstrip_hd_ok (p : ascii -> bool) (s : str) : hd_ok p (lstrip_with p s) = true.
Proof.
  induction s as [|c s IH]; simpl; auto.
  destruct (p c) eqn:E; auto. simpl. rewrite E. reflexivity.
Qed.

Lemma lstrip_id (p : ascii -> bool) (s : str) :
  hd_ok p s = true -> lstrip_with p s = s.
Proof.
  destruct s as [|c s]; simpl; auto.
  destruct (p c); simpl; congruence.
Qed.

Lemma lstrip_length (p : ascii -> bool) (s : str) :
  length (lstrip_with p s) <= length s.
Proof.
  induction s as [|c s IH]; simpl; auto.
  destruct (p c); simpl; lia.
Qed.

Lemma rstrip_prefix (p : ascii -> bool) (s : str) :
  exists post, s = rstrip_with p s ++ post /\ forallb p post = true.
Proof.
  unfold rstrip_with.
  destruct (lstrip_suffix p (rev s)) as [pre [H1 H2]].
  exists (rev pre). split.
  - rewrite <- rev_app_distr, <- H1, rev_involutive. reflexivity.
  - rewrite forallb_forall in *. intros x Hx. apply H2, in_rev, Hx.
Qed.

Lemma rstrip_length (p : ascii -> bool) (s : str) :
  length (rstrip_with p s) <= length s.
Proof.
  unfold rstrip_with. rewrite length_rev.
  pose proof (lstrip_length p (rev s)) as H. rewrite length_rev in H. exact H.
Qed.

Lemma rstrip_hd_ok (p : ascii -> bool) (s : str) :
  hd_ok p s = true -> hd_ok p (rstrip_with p s) = true.
Proof.
  intros H. destruct (rstrip_prefix p s) as [post [H1 _]].
  destruct (rstrip_with p s) as [|c t] eqn:E; auto.
  rewrite H1 in H. exact H.
Qed.

Lemma rstrip_last_ok (p : ascii -> bool) (s : str) :
  hd_ok p (rev (rstrip_with p s)) = true.
Proof.
  unfold rstrip_with. rewrite rev_involutive. apply lstrip_hd_ok.
Qed.

Lemma rstrip_id (p : ascii -> bool) (s : str) :
  hd_ok p (rev s) = true -> rstrip_with p s = s.
Proof.
  intros H. unfold rstrip_with. rewrite lstrip_id by exact H.
  apply rev_involutive.
Qed.



Lemma strip_with_stripped (p : ascii -> bool) (s : str) :
  stripped p (strip_with p s).
Proof.
  unfold strip_with. split.
  - apply rstrip_hd_ok, lstrip_hd_ok.
  - apply rstrip_last_ok.
Qed.

Lemma strip_with_id (p : ascii -> bool) (s : str) :
  stripped p s -> strip_with p s = s.
Proof.
  intros [H1 H2]. unfold strip_with.
  rewrite lstrip_id by exact H1. apply rstrip_id, H2.
Qed.

Lemma strip_with_idem (p : ascii -> bool) (s : str) :
  strip_with p (strip_with p s) = strip_with p s.
Proof. apply strip_with_id, strip_with_stripped. Qed.

Lemma strip_with_length (p : ascii -> bool) (s : str) :
  length (strip_with p s) <= length s.
Proof.
  unfold strip_with.
  pose proof (rstrip_length p (lstrip_with p s)).
  pose proof (lstrip_length p s). lia.
Qed.

(** Stripping keeps a text that starts with a character outside the set
    non-empty. *)
Lemma strip_with_nonempty (p : ascii -> bool) (c : ascii) (s : str) :
  p c = false -> strip_with p (c :: s) <> [].
Proof.
  intros Hc. unfold strip_with. cbn [lstrip_with]. rewrite Hc.
  unfold rstrip_with. intros H.
  apply (f_equal (@rev ascii)) in H. rewrite rev_involutive in H.
  change (rev []) with (@nil ascii) in H.
  destruct (lstrip_suffix p (rev (c :: s))) as [pre [H1 H2]].
  rewrite H, app_nil_r in H1.
  rewrite forallb_forall in H2.
  assert (In c pre) as Hin.
  { rewrite <- H1. apply in_rev. rewrite rev_involutive. left. reflexivity. }
  apply H2 in Hin. congruence.
Qed.

(** The text between the stripped ends: what [strip] keeps is a segment of
    the text. *)
Lemma strip_with_segment (p : ascii -> bool) (s : str) :
  exists pre post, s = pre ++ strip_with p s ++ post.
Proof.
  destruct (lstrip_suffix p s) as [pre [H1 _]].
  destruct (rstrip_prefix p (lstrip_with p s)) as [post [H2 _]].
  exists pre, post. unfold strip_with. rewrite <- H2. exact H1.
Qed.

(* ================================================================== *)
(** ** Facts about the matcher *)

Lemma run_len_le (p : ascii -> bool) (s : str) : run_len p s <= length s.
Proof.
  induction s as [|c s IH]; simpl; auto. destruct (p c); simpl; lia.
Qed.

Lemma cap_len_le (hi : option nat) (n : nat) : cap_len hi n <= n.
Proof. destruct hi; simpl; lia. Qed.

Lemma try_down_accept (R : Type) (k : nat -> option R) (lo d : nat) (r : R) :
  k (lo + d) = Some r -> try_down k lo d = Some r.
Proof. intros H. destruct d; simpl; rewrite H; reflexivity. Qed.

Lemma try_down_none (R : Type) (k : nat -> option R) (lo d : nat) :
  (forall j, lo <= j <= lo + d -> k j = None) -> try_down k lo d = None.
Proof.
  induction d as [|d IH]; intros H; simpl.
  - rewrite H by lia. reflexivity.
  - rewrite H by lia. apply IH. intros j Hj. apply H. lia.
Qed.

Lemma try_down_some (R : Type) (k : nat -> option R) (lo d : nat) (r : R) :
  try_down k lo d = Some r -> exists j, lo <= j <= lo + d /\ k j = Some r.
Proof.
  induction d as [|d IH]; simpl; intros H.
  - destruct (k (lo + 0)) eqn:E; [|discriminate].
    exists (lo + 0). split; [lia | congruence].
  - destruct (k (lo + S d)) eqn:E.
    + exists (lo + S d). split; [lia | congruence].
    + destruct (IH H) as [j [Hj Hk]]. exists j. split; [lia | exact Hk].
Qed.

Lemma try_up_some (R : Type) (k : nat -> option R) (d j : nat) (r : R) :
  try_up k j d = Some r -> exists j', j <= j' <= j + d /\ k j' = Some r.
Proof.
  revert j. induction d as [|d IH]; simpl; intros j H.
  - destruct (k j) eqn:E; [|discriminate].
    exists j. split; [lia | congruence].
  - destruct (k j) eqn:E.
    + exists j. split; [lia | congruence].
    + destruct (IH _ H) as [j' [Hj Hk]]. exists j'. split; [lia | exact Hk].
Qed.

Lemma try_up_none (R : Type) (k : nat -> option R) (d j : nat) :
  (forall j', j <= j' <= j + d -> k j' = None) -> try_up k j d = None.
Proof.
  revert j. induction d as [|d IH]; intros j H; simpl.
  - rewrite H by lia. reflexivity.
  - rewrite H by lia. apply IH. intros j' Hj. apply H. lia.
Qed.

Section RepFacts.
Variable fl : flags.
Variable a : atom.
Variables (lo : nat) (hi : option nat).

Let P := atom_ok fl a.
Let r := Rep a lo hi true.

(** A greedy repetition with nothing after it takes the whole run, up to
    its maximum. *)
Lemma match_here_rep (p : option ascii) (i : nat) (s : str) :
  match_here fl r false p i s =
  let n := cap_len hi (run_len P s) in
  if n <? lo then None
  else Some {| m_start := i; m_end := i + n; m_caps := [] |}.
Proof.
  unfold match_here, r. cbn [rx rest andb].
  fold P. set (n := cap_len hi (run_len P s)). cbv zeta.
  destruct (n <? lo) eqn:E; [reflexivity|].
  apply Nat.ltb_ge in E.
  erewrite try_down_accept; [|reflexivity].
  cbn [pos adv caps]. replace (lo + (n - lo)) with n by lia. reflexivity.
Qed.
End RepFacts.

(** When the match must advance, [a{0,hi}] needs one matching character. *)
Lemma match_here_rep_adv (fl : flags) (a : atom) (hi : option nat)
  (p : option ascii) (i : nat) (s : str) :
  match_here fl (Rep a 0 hi true) true p i s =
  let n := cap_len hi (run_len (atom_ok fl a) s) in
  if n =? 0 then None
  else Some {| m_start := i; m_end := i + n; m_caps := [] |}.
Proof.
  unfold match_here. cbn [rx rest andb].
  set (n := cap_len hi (run_len (atom_ok fl a) s)). cbv zeta.
  replace (n <? 0) with false by (symmetry; apply Nat.ltb_ge; lia).
  rewrite Nat.sub_0_r. destruct (n =? 0) eqn:E.
  - apply Nat.eqb_eq in E. rewrite E. cbn [try_down Nat.add adv pos].
    rewrite Nat.add_0_r, Nat.eqb_refl. reflexivity.
  - apply Nat.eqb_neq in E.
    rewrite (try_down_accept _ _ 0 n
               (adv {| pos := i; prev := p; rest := s; caps := [] |} n)).
    + reflexivity.
    + cbn [Nat.add adv pos caps].
      replace (i + n =? i) with false by (symmetry; apply Nat.eqb_neq; lia).
      reflexivity.
Qed.

Lemma match_here_lit (fl : flags) (l : str) (p : option ascii) (i : nat) (s : str) :
  match_here fl (Lit l) false p i s =
  if lit_prefix fl l s
  then Some {| m_start := i; m_end := i + length l; m_caps := [] |}
  else None.
Proof.
  unfold match_here. cbn [rx rest andb].
  destruct (lit_prefix fl l s); reflexivity.
Qed.

(** A single character is a repetition of exactly one. *)
Lemma rx_one_rep (fl : flags) (a : atom) (st : mstate) (k : mstate -> option mstate) :
  rx fl (One a) st k = rx fl (Rep a 1 (Some 1) true) st k.
Proof.
  cbn [rx]. destruct (rest st) as [|c t]; cbn [run_len cap_len]; [reflexivity|].
  destruct (atom_ok fl a c); cbn; [|reflexivity].
  destruct (k (adv st 1)); reflexivity.
Qed.

Lemma match_here_one_rep (fl : flags) (a : atom) (must : bool) (p : option ascii)
  (i : nat) (s : str) :
  match_here fl (One a) must p i s = match_here fl (Rep a 1 (Some 1) true) must p i s.
Proof. unfold match_here. rewrite rx_one_rep. reflexivity. Qed.

(** The scan depends on the pattern through [match_here] only. *)
Lemma segments_ext (fl : flags) (r1 r2 : regex) :
  (forall must p i s, match_here fl r1 must p i s = match_here fl r2 must p i s) ->
  forall s p i skip, segments fl r1 p i s skip = segments fl r2 p i s skip.
Proof.
  intros H. induction s as [|c s IH]; intros p i skip.
  - destruct skip; cbn [segments]; [|reflexivity]. rewrite !H. reflexivity.
  - destruct skip; cbn [segments].
    + rewrite !H. rewrite !IH.
      destruct (match_here fl r2 false p i (c :: s)); [|reflexivity].
      destruct (m_end r =? i); [|rewrite IH; reflexivity].
      destruct (match_here fl r2 true p i (c :: s)); rewrite ?IH; reflexivity.
    + apply IH.
Qed.

(** Skipping the characters under a match resumes the scan after them. *)
Lemma segments_skip (fl : flags) (r : regex) :
  forall k s p i, k <= length s ->
    segments fl r p i s k =
    segments fl r (last_of p (firstn k s)) (i + k) (skipn k s) 0.
Proof.
  induction k as [|k IH]; intros s p i Hk.
  - cbn [firstn skipn last_of]. rewrite Nat.add_0_r. reflexivity.
  - destruct s as [|c s]; [simpl in Hk; lia|].
    cbn [segments firstn skipn last_of]. rewrite IH by (simpl in Hk; lia).
    replace (S i + k) with (i + S k) by lia. reflexivity.
Qed.

(** *** The scan of a greedy repetition

    With a minimum of at least one, the scan of [a{lo,hi}] cuts the text
    into single characters where fewer than [lo] matching characters
    follow, and maximal pieces of at most [hi] matching characters. *)






Lemma scan_segments (fl : flags) (a : atom) (lo : nat) (hi : option nat) :
  1 <= lo ->
  forall s p i,
    Scan (atom_ok fl a) lo hi s
         (map erase (segments fl (Rep a lo hi true) p i s 0)).
Proof.
  intros Hlo s.
  remember (length s) as m eqn:Hm. assert (length s <= m) as Hle by lia.
  clear Hm. revert s Hle.
  induction m as [m IH] using lt_wf_ind.
  intros s Hle p i. destruct s as [|c s].
  - cbn [segments]. rewrite match_here_rep. cbn [run_len].
    assert (cap_len hi 0 = 0) as -> by (destruct hi; simpl; lia).
    cbv zeta. destruct (0 <? lo) eqn:E; [constructor|].
    apply Nat.ltb_ge in E. lia.
  - cbn [segments]. rewrite match_here_rep. cbv zeta.
    set (n := cap_len hi (run_len (atom_ok fl a) (c :: s))).
    destruct (n <? lo) eqn:E.
    + apply Nat.ltb_lt in E. cbn [map erase]. apply scan_txt; [exact E|].
      apply (IH (length s)); simpl in *; lia.
    + apply Nat.ltb_ge in E. cbn [m_end].
      assert (n <= length (c :: s)) as Hn.
      { unfold n. etransitivity; [apply cap_len_le | apply run_len_le]. }
      destruct (i + n =? i) eqn:E2; [apply Nat.eqb_eq in E2; lia|].
      replace (i + n - i) with n by lia.
      cbn [map erase]. apply scan_hit; [reflexivity | exact E |].
      rewrite segments_skip by (simpl in Hn; lia).
      replace (skipn n (c :: s)) with (skipn (n - 1) s)
        by (destruct n; [lia | simpl; rewrite Nat.sub_0_r; reflexivity]).
      apply (IH (length s)); [simpl in *; lia | rewrite length_skipn; lia].
Qed.

Lemma scan0_segments (fl : flags) (a : atom) (hi : option nat) :
  forall s p i,
    Scan0 (atom_ok fl a) hi s
          (map erase (segments fl (Rep a 0 hi true) p i s 0)).
Proof.
  intros s.
  remember (length s) as m eqn:Hm. assert (length s <= m) as Hle by lia.
  clear Hm. revert s Hle.
  induction m as [m IH] using lt_wf_ind.
  intros s Hle p i. destruct s as [|c s].
  - cbn [segments]. rewrite match_here_rep, match_here_rep_adv. cbn [run_len].
    assert (cap_len hi 0 = 0) as -> by (destruct hi; simpl; lia).
    cbn. rewrite Nat.add_0_r, Nat.eqb_refl. cbn. constructor.
  - cbn [segments]. rewrite match_here_rep, match_here_rep_adv. cbv zeta.
    set (n := cap_len hi (run_len (atom_ok fl a) (c :: s))).
    replace (n <? 0) with false by (symmetry; apply Nat.ltb_ge; lia).
    cbn [m_end].
    assert (n <= length (c :: s)) as Hn.
    { unfold n. etransitivity; [apply cap_len_le | apply run_len_le]. }
    destruct (n =? 0) eqn:E.
    + apply Nat.eqb_eq in E. rewrite E, Nat.add_0_r, Nat.eqb_refl.
      cbn [map erase]. apply scan0_empty; [exact E|].
      apply (IH (length s)); simpl in *; lia.
    + apply Nat.eqb_neq in E.
      replace (i + n =? i) with false by (symmetry; apply Nat.eqb_neq; lia).
      replace (i + n - i) with n by lia.
      cbn [map erase]. apply scan0_hit; [reflexivity | lia |].
      rewrite segments_skip by (simpl in Hn; lia).
      replace (skipn n (c :: s)) with (skipn (n - 1) s)
        by (destruct n; [lia | simpl; rewrite Nat.sub_0_r; reflexivity]).
      apply (IH (length s)); [simpl in *; lia | rewrite length_skipn; lia].
Qed.





Lemma sub_pieces (fl : flags) (r : regex) (repl s : str) :
  Re.sub fl r repl s = pieces_sub repl (map erase (finditer fl r s)).
Proof.
  unfold Re.sub, pieces_sub. induction (finditer fl r s) as [|sg l IH]; simpl.
  - reflexivity.
  - rewrite IH. destruct sg; reflexivity.
Qed.

Lemma findall_pieces (fl : flags) (r : regex) (s : str) :
  Re.findall fl r s = pieces_hits (map erase (finditer fl r s)).
Proof.
  unfold Re.findall, pieces_hits. induction (finditer fl r s) as [|sg l IH]; simpl.
  - reflexivity.
  - rewrite IH. destruct sg; reflexivity.
Qed.

Lemma run_len_all (p : ascii -> bool) (s : str) :
  forallb p s = true -> run_len p s = length s.
Proof.
  induction s as [|c s IH]; simpl; auto.
  destruct (p c); simpl; [intros H; rewrite IH by exact H; reflexivity | discriminate].
Qed.

Lemma run_len_skipn (p : ascii -> bool) (s : str) :
  run_len p (skipn (run_len p s) s) = 0.
Proof.
  induction s as [|c s IH]; simpl; auto.
  destruct (p c) eqn:E; simpl; [exact IH | rewrite E; reflexivity].
Qed.

Lemma run_len_pos (p : ascii -> bool) (s : str) :
  1 <= run_len p s -> exists c t, s = c :: t /\ p c = true.
Proof.
  destruct s as [|c t]; simpl; [lia|].
  destruct (p c) eqn:E; [|lia]. intros _. exists c, t. auto.
Qed.

Lemma run_len_zero (p : ascii -> bool) (c : ascii) (s : str) :
  run_len p (c :: s) = 0 -> p c = false.
Proof. simpl. destruct (p c); [discriminate | reflexivity]. Qed.

(** *** Deleting single characters: [re.sub] with a one-character pattern
    and an empty replacement is a filter. *)
Lemma scan_one_filter (P : ascii -> bool) (s : str) (out : list piece) :
  Scan P 1 (Some 1) s out ->
  pieces_sub [] out = filter (fun c => negb (P c)) s.
Proof.
  induction 1 as [|c s out Hlt _ IH|s n out Hn Hlo _ IH].
  - reflexivity.
  - cbn [cap_len] in Hlt.
    assert (P c = false) as Hc.
    { apply run_len_zero with (s := s). lia. }
    cbn [pieces_sub flat_map filter app]. rewrite Hc. cbn [negb].
    f_equal. exact IH.
  - cbn [cap_len] in Hn.
    destruct (run_len_pos P s) as [c [t [-> Hc]]]; [lia|].
    assert (n = 1) as -> by lia.
    cbn [skipn] in IH. cbn [pieces_sub flat_map filter app].
    rewrite Hc. cbn [negb]. exact IH.
Qed.

Lemma not_digit_class (c : ascii) :
  atom_ok no_flags (ncls [CDigit]) c = negb (is_digit c).
Proof.
  unfold atom_ok, ncls, class_ok, item_ok. simpl.
  destruct (is_digit c); reflexivity.
Qed.

Lemma digit_class (c : ascii) : atom_ok no_flags a_digit c = is_digit c.
Proof.
  unfold atom_ok, a_digit, cls, class_ok, item_ok. simpl.
  destruct (is_digit c); reflexivity.
Qed.

Lemma digits_only_filter (s : str) : _digits_only (Some s) = filter is_digit s.
Proof.
  unfold _digits_only. rewrite sub_pieces. unfold finditer.
  rewrite (segments_ext no_flags _ _ (match_here_one_rep no_flags (ncls [CDigit]))).
  rewrite (scan_one_filter (atom_ok no_flags (ncls [CDigit])) s).
  - apply filter_ext. intros c. rewrite not_digit_class. apply negb_involutive.
  - apply scan_segments. lia.
Qed.

Lemma digits_only_digits (chunk : option str) :
  forallb is_digit (_digits_only chunk) = true.
Proof.
  destruct chunk as [s|].
  - rewrite digits_only_filter. apply forallb_forall. intros c Hc.
    apply filter_In in Hc. tauto.
  - reflexivity.
Qed.

(** *** The pieces of a digit pattern on a text of digits *)
Section ScanAll.
Variable P : ascii -> bool.
Variables lo hi : nat.
Hypothesis Hlo : 1 <= lo.

Lemma scan_hits_bound (s : str) (out : list piece) :
  Scan P lo (Some hi) s out ->
  Forall (fun t => length t <= Nat.min hi (length s)) (pieces_hits out).
Proof.
  induction 1 as [|c s out _ _ IH|s n out Hn Hle _ IH].
  - constructor.
  - cbn [pieces_hits flat_map app]. eapply Forall_impl; [|exact IH].
    cbn. intros t Ht. simpl. lia.
  - cbn [pieces_hits flat_map app]. constructor.
    + rewrite length_firstn. cbn [cap_len] in Hn.
      pose proof (run_len_le P s). lia.
    + eapply Forall_impl; [|exact IH]. cbn. intros t Ht.
      rewrite length_skipn in Ht. lia.
Qed.

Lemma scan_short (s : str) (out : list piece) :
  Scan P lo (Some hi) s out -> length s < lo -> pieces_hits out = [].
Proof.
  induction 1 as [|c s out _ _ IH|s n out Hn Hle _ IH]; intros Hs.
  - reflexivity.
  - cbn [pieces_hits flat_map app]. apply IH. simpl in Hs. lia.
  - cbn [cap_len] in Hn. pose proof (run_len_le P s). lia.
Qed.

Lemma scan_long (s : str) (out : list piece) :
  Scan P lo (Some hi) s out -> forallb P s = true ->
  lo <= hi -> lo <= length s ->
  exists rest,
    pieces_hits out = firstn (Nat.min hi (length s)) s :: rest /\
    Forall (fun t => length t <= Nat.min hi (length s)) rest.
Proof.
  intros HS Hall Hlh Hs.
  pose proof (run_len_all P s Hall) as Hrun.
  inversion HS as [|c s' out' Hlt HS'|s' n out' Hn Hle HS']; subst.
  - simpl in Hs. lia.
  - cbn [cap_len] in Hlt. rewrite Hrun in Hlt. lia.
  - cbn [cap_len]. rewrite Hrun. eexists. split; [reflexivity|].
    apply scan_hits_bound in HS'. eapply Forall_impl; [|exact HS'].
    cbn. intros t Ht. rewrite length_skipn in Ht. lia.
Qed.
End ScanAll.

Lemma scan0_hits_bound (P : ascii -> bool) (hi : nat) (s : str) (out : list piece) :
  Scan0 P (Some hi) s out ->
  Forall (fun t => length t <= Nat.min hi (length s)) (pieces_hits out).
Proof.
  induction 1 as [|c s out _ _ IH|s n out Hn Hle _ IH].
  - cbn [pieces_hits flat_map app]. constructor; [simpl; lia | constructor].
  - cbn [pieces_hits flat_map app]. constructor; [simpl; lia|].
    eapply Forall_impl; [|exact IH]. cbn. intros t Ht. simpl. lia.
  - cbn [pieces_hits flat_map app]. constructor.
    + rewrite length_firstn. cbn [cap_len] in Hn.
      pose proof (run_len_le P s). lia.
    + eapply Forall_impl; [|exact IH]. cbn. intros t Ht.
      rewrite length_skipn in Ht. lia.
Qed.

Lemma scan0_first (P : ascii -> bool) (hi : nat) (s : str) (out : list piece) :
  Scan0 P (Some hi) s out -> forallb P s = true ->
  exists rest,
    pieces_hits out = firstn (Nat.min hi (length s)) s :: rest /\
    Forall (fun t => length t <= Nat.min hi (length s)) rest.
Proof.
  intros HS Hall.
  pose proof (run_len_all P s Hall) as Hrun.
  inversion HS as [|c s' out' Hz HS'|s' n out' Hn Hle HS']; subst.
  - exists []. split; [rewrite firstn_nil; reflexivity | constructor].
  - cbn [cap_len] in Hz. rewrite Hrun in Hz. rewrite Hz.
    eexists. split; [reflexivity|].
    apply scan0_hits_bound in HS'. eapply Forall_impl; [|exact HS'].
    cbn. intros t Ht. simpl in Hz. lia.
  - cbn [cap_len]. rewrite Hrun. eexists. split; [reflexivity|].
    apply scan0_hits_bound in HS'. eapply Forall_impl; [|exact HS'].
    cbn. intros t Ht. rewrite length_skipn in Ht. lia.
Qed.

Lemma max_by_len_first (r : str) (runs : list str) :
  Forall (fun t => length t <= length r) runs -> max_by_len r runs = r.
Proof.
  induction 1 as [|t runs Ht _ IH]; simpl; auto.
  destruct (length r <? length t) eqn:E; [apply Nat.ltb_lt in E; lia | exact IH].
Qed.

(* ================================================================== *)
(** ** Groups *)

Lemma rx_from_k (fl : flags) (r : regex) :
  forall st k res, rx fl r st k = Some res -> exists st', k st' = Some res.
Proof.
  induction r as [|l|a|a lo hi g|r1 IH1 r2 IH2|r1 IH1 r2 IH2|n r1 IH1|r1 IH1| | | |];
    intros st k res H; cbn [rx] in H.
  - eauto.
  - destruct (lit_prefix fl l (rest st)); [eauto | discriminate].
  - destruct (rest st) as [|c t]; [discriminate|].
    destruct (atom_ok fl a c); [eauto | discriminate].
  - destruct (_ <? lo); [discriminate|]. destruct g.
    + apply try_down_some in H. destruct H as [j [_ H]]. eauto.
    + apply try_up_some in H. destruct H as [j [_ H]]. eauto.
  - apply IH1 in H. destruct H as [st1 H]. apply IH2 in H. exact H.
  - destruct (rx fl r1 st k) eqn:E.
    + injection H as <-. apply IH1 in E. exact E.
    + apply IH2 in H. exact H.
  - apply IH1 in H. destruct H as [st1 H]. eauto.
  - destruct (rx fl r1 st _); [eauto | discriminate].
  - destruct (pos st =? 0); [eauto | discriminate].
  - destruct (rest st) as [|c [|c' t]]; [eauto | | discriminate].
    destruct (Ascii.eqb c newline); [eauto | discriminate].
  - destruct (rest st); [eauto | discriminate].
  - destruct (xorb _ _); [eauto | discriminate].
Qed.

Lemma rx_keeps (fl : flags) (n : nat) (r : regex) :
  forall k, keeps n k -> keeps n (fun st => rx fl r st k).
Proof.
  induction r as [|l|a|a lo hi g|r1 IH1 r2 IH2|r1 IH1 r2 IH2|m r1 IH1|r1 IH1| | | |];
    intros k Hk st res Hst H; cbn [rx] in H.
  - eauto.
  - destruct (lit_prefix fl l (rest st)); [|discriminate]. (eapply Hk; [|exact H]; exact Hst).
  - destruct (rest st) as [|c t]; [discriminate|].
    destruct (atom_ok fl a c); [|discriminate]. (eapply Hk; [|exact H]; exact Hst).
  - destruct (_ <? lo); [discriminate|]. destruct g.
    + apply try_down_some in H. destruct H as [j [_ H]]. (eapply Hk; [|exact H]; exact Hst).
    + apply try_up_some in H. destruct H as [j [_ H]]. (eapply Hk; [|exact H]; exact Hst).
  - apply (IH1 _ (IH2 _ Hk) _ _ Hst H).
  - destruct (rx fl r1 st k) eqn:E.
    + injection H as <-. apply (IH1 _ Hk _ _ Hst E).
    + apply (IH2 _ Hk _ _ Hst H).
  - refine (IH1 _ _ _ _ Hst H). intros st' res' Hst' H'.
    apply (Hk (set_cap st' m (pos st, pos st')) _); [|exact H'].
    unfold has_cap in *. cbn. destruct (m =? n); [discriminate | exact Hst'].
  - destruct (rx fl r1 st _); [|discriminate]. (eapply Hk; [|exact H]; exact Hst).
  - destruct (pos st =? 0); [|discriminate]. (eapply Hk; [|exact H]; exact Hst).
  - destruct (rest st) as [|c [|c' t]]; [(eapply Hk; [|exact H]; exact Hst) | | discriminate].
    destruct (Ascii.eqb c newline); [|discriminate]. (eapply Hk; [|exact H]; exact Hst).
  - destruct (rest st); [|discriminate]. (eapply Hk; [|exact H]; exact Hst).
  - destruct (xorb _ _); [|discriminate]. (eapply Hk; [|exact H]; exact Hst).
Qed.

(** A successful match of a pattern that sets a group has the group. *)
Lemma rx_sets (fl : flags) (n : nat) (r : regex) :
  sets_group n r = true ->
  forall k, keeps n k ->
  forall st res, rx fl r st k = Some res -> has_cap n res.
Proof.
  induction r as [|l|a|a lo hi g|r1 IH1 r2 IH2|r1 IH1 r2 IH2|m r1 IH1|r1 IH1| | | |];
    cbn [sets_group]; try discriminate; intros Hs k Hk st res H; cbn [rx] in H.
  - apply orb_prop in Hs. destruct Hs as [Hs|Hs].
    + apply (IH1 Hs _ (rx_keeps fl n r2 k Hk) _ _ H).
    + apply rx_from_k in H. destruct H as [st1 H]. apply (IH2 Hs _ Hk _ _ H).
  - apply andb_prop in Hs. destruct Hs as [Hs1 Hs2].
    destruct (rx fl r1 st k) eqn:E.
    + injection H as <-. apply (IH1 Hs1 _ Hk _ _ E).
    + apply (IH2 Hs2 _ Hk _ _ H).
  - destruct (m =? n) eqn:E.
    + apply rx_from_k in H. destruct H as [st1 H].
      apply (Hk (set_cap st1 m (pos st, pos st1)) _); [|exact H].
      unfold has_cap. cbn. rewrite E. discriminate.
    + cbn [orb] in Hs. refine (IH1 Hs _ _ _ _ H).
      intros st' res' Hst' H'.
      apply (Hk (set_cap st' m (pos st, pos st')) _); [|exact H'].
      unfold has_cap in *. cbn. rewrite E. exact Hst'.
Qed.

Lemma match_here_group (fl : flags) (r : regex) (n : nat) (must : bool)
  (p : option ascii) (i : nat) (s : str) (m : rmatch) :
  sets_group n r = true ->
  match_here fl r must p i s = Some m -> lookup_cap n (m_caps m) <> None.
Proof.
  intros Hs H. unfold match_here in H.
  destruct (rx fl r _ _) as [st|] eqn:E; [|discriminate].
  injection H as <-. cbn [m_caps].
  refine (rx_sets fl n r Hs _ _ _ _ E).
  intros st0 res Hst0 H0.
  destruct (must && (pos st0 =? i)); [discriminate|]. injection H0 as <-. exact Hst0.
Qed.

Lemma search_from_group (fl : flags) (r : regex) (n : nat) :
  sets_group n r = true ->
  forall s p i m, search_from fl r p i s = Some m -> lookup_cap n (m_caps m) <> None.
Proof.
  intros Hs. induction s as [|c s IH]; intros p i m H; cbn [search_from] in H.
  - destruct (match_here fl r false p i []) eqn:E; [|discriminate].
    injection H as <-. apply (match_here_group _ _ _ _ _ _ _ _ Hs E).
  - destruct (match_here fl r false p i (c :: s)) eqn:E.
    + injection H as <-. apply (match_here_group _ _ _ _ _ _ _ _ Hs E).
    + apply (IH _ _ _ H).
Qed.

(** [_first_group] does not raise on a pattern whose matches all have
    group 1, and what it returns is stripped. *)
Lemma first_group_ok (pattern : regex) (text : str) (fl : flags) :
  sets_group 1 pattern = true ->
  exists v, _first_group pattern text fl = Ok v /\
            (Re.search fl pattern text = None -> v = None) /\
            (forall g, v = Some g -> stripped is_space g).
Proof.
  intros Hs. unfold _first_group, Re.search, Re.group.
  destruct (search_from fl pattern None 0 text) as [m|] eqn:E.
  - pose proof (search_from_group fl pattern 1 Hs _ _ _ _ E) as Hc.
    destruct (lookup_cap 1 (m_caps m)) as [[a b]|]; [|congruence].
    eexists. split; [reflexivity|]. split; [discriminate|].
    intros g Hg. injection Hg as <-. apply strip_with_stripped.
  - exists None. split; [reflexivity|]. split; [reflexivity | discriminate].
Qed.

(* ================================================================== *)
(** ** The digit-run extractor *)


Lemma forallb_digit_class (s : str) :
  forallb is_digit s = true -> forallb (atom_ok no_flags a_digit) s = true.
Proof.
  intros H. rewrite forallb_forall in *. intros c Hc.
  rewrite digit_class. auto.
Qed.


(* ================================================================== *)
(** ** The text normaliser *)



Lemma Forall_drop (Q : ascii -> Prop) (n : nat) (s : str) :
  Forall Q s -> Forall Q (skipn n s).
Proof.
  revert s. induction n as [|n IH]; intros s H; [exact H|].
  destruct s as [|c s]; [exact H|]. simpl. apply IH. inversion H; assumption.
Qed.

Section Tidy.
Variable P : ascii -> bool.
Variable lo : nat.
Variable r : ascii.
Hypothesis Hlo : 1 <= lo.

Lemma tidy_skipn (n : nat) (s : str) : tidy P lo r s -> tidy P lo r (skipn n s).
Proof.
  revert s. induction n as [|n IH]; intros s H; [exact H|].
  destruct s as [|c s]; [exact H|]. simpl. apply IH. apply H.
Qed.

Lemma run_len_app_le (s t : str) : run_len P s <= run_len P (s ++ t).
Proof.
  induction s as [|c s IH]; simpl; [lia|]. destruct (P c); lia.
Qed.

Lemma tidy_app_r (pre s : str) : tidy P lo r (pre ++ s) -> tidy P lo r s.
Proof.
  induction pre as [|c pre IH]; simpl; [auto|]. intros [_ H]. auto.
Qed.

Lemma tidy_app_l (s post : str) : tidy P lo r (s ++ post) -> tidy P lo r s.
Proof.
  induction s as [|c s IH]; [simpl; auto|].
  intros [H1 H2]. split; [|apply IH, H2].
  intros Hrun.
  pose proof (run_len_app_le (c :: s) post) as Hle.
  change ((c :: s) ++ post) with (c :: s ++ post) in Hle.
  destruct H1 as [H1 ->]; [lia|]. split; [lia | reflexivity].
Qed.

(** The substitution leaves a tidy text as it is. *)
Lemma sub_tidy (s : str) (out : list piece) :
  Scan P lo None s out -> tidy P lo r s -> pieces_sub [r] out = s.
Proof.
  induction 1 as [|c s out _ _ IH|s n out Hn Hle _ IH]; intros Ht.
  - reflexivity.
  - cbn [pieces_sub flat_map app]. f_equal. apply IH, Ht.
  - cbn [cap_len] in Hn. subst n.
    destruct (run_len_pos P s) as [c [t [-> Hc]]]; [lia|].
    destruct Ht as [H1 H2]. destruct (H1 Hle) as [Hone ->].
    rewrite Hone in IH. cbn [skipn] in IH.
    cbn [pieces_sub flat_map app]. f_equal. apply IH, H2.
Qed.

(** What the substitution emits starts outside the class when the text
    does. *)
Lemma sub_head (Q : ascii -> bool) (s : str) (out : list piece) :
  Scan P lo None s out -> Q r = false ->
  run_len Q s = 0 -> run_len Q (pieces_sub [r] out) = 0.
Proof.
  intros HS Hr Hs.
  inversion HS as [|c s' out' _ _|s' n out' _ _ _]; subst.
  - reflexivity.
  - cbn [pieces_sub flat_map app run_len].
    apply run_len_zero in Hs. rewrite Hs. reflexivity.
  - cbn [pieces_sub flat_map app run_len]. rewrite Hr. reflexivity.
Qed.

Lemma sub_head_same (s : str) (out : list piece) :
  Scan P lo None s out ->
  run_len P s = 0 -> run_len P (pieces_sub [r] out) = 0.
Proof.
  intros HS Hs.
  inversion HS as [|c s' out' _ _|s' n out' Hn Hle _]; subst.
  - reflexivity.
  - cbn [pieces_sub flat_map app run_len].
    apply run_len_zero in Hs. rewrite Hs. reflexivity.
  - cbn [cap_len] in Hle. lia.
Qed.

(** What the substitution emits is tidy. *)
Lemma sub_is_tidy (s : str) (out : list piece) :
  Scan P lo None s out -> P r = true -> lo <= 2 ->
  tidy P lo r (pieces_sub [r] out).
Proof.
  intros HS Hr Hlo2.
  induction HS as [|c s out Hlt HS IH|s n out Hn Hle HS IH].
  - exact I.
  - cbn [pieces_sub flat_map app]. split; [|exact IH].
    cbn [cap_len] in Hlt. intros Hrun.
    destruct (P c) eqn:Hc.
    + cbn [run_len] in Hlt, Hrun |- *. rewrite Hc in *.
      assert (run_len P s = 0) as Hs by lia.
      pose proof (sub_head_same s out HS Hs) as Hh.
      unfold pieces_sub in Hh. rewrite Hh in Hrun. lia.
    + cbn [run_len] in Hrun. rewrite Hc in Hrun. lia.
  - cbn [pieces_sub flat_map app]. split; [|exact IH].
    cbn [cap_len] in Hn. subst n.
    pose proof (sub_head_same _ out HS (run_len_skipn P s)) as Hh.
    intros _. cbn [run_len]. rewrite Hr.
    unfold pieces_sub in Hh. rewrite Hh. auto.
Qed.

(** A property of single characters that holds of [r] goes through. *)
Lemma sub_forall (Q : ascii -> Prop) (s : str) (out : list piece) :
  Scan P lo None s out -> Q r -> Forall Q s -> Forall Q (pieces_sub [r] out).
Proof.
  intros HS Hr.
  induction HS as [|c s out _ _ IH|s n out _ _ _ IH]; intros Hs.
  - constructor.
  - inversion Hs; subst. constructor; auto.
  - constructor; [exact Hr|]. apply IH. apply Forall_drop; exact Hs.
Qed.
End Tidy.

(** Tidiness for one pattern survives the substitution of another one
    whose replacement lies outside the class. *)
Lemma sub_keeps_tidy (P1 : ascii -> bool) (r1 : ascii)
  (P2 : ascii -> bool) (lo2 : nat) (r2 : ascii) (s : str) (out : list piece) :
  1 <= lo2 -> P1 r2 = false ->
  Scan P2 lo2 None s out -> tidy P1 1 r1 s -> tidy P1 1 r1 (pieces_sub [r2] out).
Proof.
  intros Hlo Hr2 HS.
  induction HS as [|c s out _ HS IH|s n out _ _ HS IH]; intros Ht.
  - exact I.
  - destruct Ht as [H1 H2]. cbn [pieces_sub flat_map app].
    split; [|apply IH, H2]. intros Hrun.
    destruct (P1 c) eqn:Hc.
    + cbn [run_len] in H1. rewrite Hc in H1.
      destruct H1 as [H1 ->]; [lia|].
      assert (run_len P1 s = 0) as Hs by lia.
      pose proof (sub_head P2 lo2 r2 P1 s out HS Hr2 Hs) as Hh.
      cbn [run_len]. rewrite Hc. unfold pieces_sub in Hh. rewrite Hh. auto.
    + cbn [run_len] in Hrun. rewrite Hc in Hrun. lia.
  - cbn [pieces_sub flat_map app]. split.
    + cbn [run_len]. rewrite Hr2. lia.
    + apply IH. apply tidy_skipn, Ht.
Qed.







Lemma replace_cr_no_cr (s : str) : no_cr (replace_char cr (py "\n") s).
Proof.
  induction s as [|c s IH]; simpl; [constructor|].
  destruct (Ascii.eqb c cr) eqn:E; simpl.
  - constructor; [discriminate | exact IH].
  - constructor; [|exact IH]. apply Ascii.eqb_neq. exact E.
Qed.

Lemma replace_cr_id (s : str) : no_cr s -> replace_char cr (py "\n") s = s.
Proof.
  induction 1 as [|c s Hc _ IH]; simpl; [reflexivity|].
  apply Ascii.eqb_neq in Hc. rewrite Hc. simpl. f_equal. exact IH.
Qed.

Lemma Forall_segment (Q : ascii -> Prop) (pre s post : str) :
  Forall Q (pre ++ s ++ post) -> Forall Q s.
Proof.
  intros H. apply Forall_app in H. destruct H as [_ H].
  apply Forall_app in H. tauto.
Qed.



Lemma norm_text_normal (s : str) : normal (_norm_text s).
Proof.
  unfold _norm_text. rewrite !sub_pieces. unfold finditer.
  set (s0 := replace_char cr (py "\n") s).
  pose proof (scan_segments no_flags blank 1 None (le_n 1) s0 None 0) as HS1.
  set (o1 := map erase (segments no_flags (plus (cls [CChar " "; CChar tab])) None 0 s0 0)) in *.
  change (py " ") with [" "%char]. change (py "\n") with [newline].
  set (s1 := pieces_sub [" "%char] o1).
  pose proof (scan_segments no_flags (chr newline) 2 None (le_S _ _ (le_n 1)) s1 None 0) as HS2.
  set (o2 := map erase (segments no_flags (Rep (chr newline) 2 None true) None 0 s1 0)) in *.
  set (s2 := pieces_sub [newline] o2).
  assert (no_cr s2 /\ tidy P_blank 1 " " s2 /\ tidy P_nl 2 newline s2) as [Hc [Hb Hn]].
  { split; [|split].
    - apply (sub_forall P_nl 2 newline _ s1 o2 HS2); [discriminate|].
      apply (sub_forall P_blank 1 " "%char _ s0 o1 HS1); [discriminate|].
      apply replace_cr_no_cr.
    - apply (sub_keeps_tidy P_blank " "%char P_nl 2 newline s1 o2);
        [lia | reflexivity | exact HS2 |].
      apply (sub_is_tidy P_blank 1 " "%char (le_n 1) s0 o1 HS1); [reflexivity | lia].
    - apply (sub_is_tidy P_nl 2 newline (le_S _ _ (le_n 1)) s1 o2 HS2);
        [reflexivity | lia]. }
  destruct (strip_with_segment is_space s2) as [pre [post Hseg]].
  unfold normal, strip. repeat split.
  - unfold no_cr in *. rewrite Hseg in Hc. eapply Forall_segment, Hc.
  - rewrite Hseg in Hb. apply tidy_app_r in Hb. apply tidy_app_l in Hb; [exact Hb | lia].
  - rewrite Hseg in Hn. apply tidy_app_r in Hn. apply tidy_app_l in Hn; [exact Hn | lia].
  - apply strip_with_stripped.
  - apply strip_with_stripped.
Qed.

Lemma norm_text_fixed (s : str) : normal s -> _norm_text s = s.
Proof.
  intros [Hc [Hb [Hn Hs]]]. unfold _norm_text.
  rewrite replace_cr_id by exact Hc.
  rewrite !sub_pieces. unfold finditer.
  change (py " ") with [" "%char]. change (py "\n") with [newline].
  rewrite (sub_tidy P_blank 1 " " (le_n 1) s).
  - rewrite (sub_tidy P_nl 2 newline (le_S _ _ (le_n 1)) s).
    + apply strip_with_id, Hs.
    + apply scan_segments. lia.
    + exact Hn.
  - apply scan_segments. lia.
  - exact Hb.
Qed.

(** Claim C7.  The text normaliser is idempotent: normalising a normalised
    text changes nothing. *)
Theorem norm_text_idempotent (s : str) :
  _norm_text (_norm_text s) = _norm_text s.
Proof. apply norm_text_fixed, norm_text_normal. Qed.

(* ================================================================== *)
(** ** The section slicer *)



Lemma lit_prefix_length (fl : flags) (l s : str) :
  lit_prefix fl l s = true -> length l <= length s.
Proof.
  revert s. induction l as [|p l IH]; intros s H; simpl; [lia|].
  destruct s as [|c s]; [discriminate|]. simpl in H.
  apply andb_prop in H. destruct H as [_ H]. apply IH in H. simpl. lia.
Qed.

Lemma search_from_lit_some (fl : flags) (l : str) :
  forall s p i m,
    search_from fl (Lit l) p i s = Some m ->
    exists j, j <= length s /\ lit_prefix fl l (skipn j s) = true /\
              (forall j', j' < j -> lit_prefix fl l (skipn j' s) = false) /\
              m_start m = i + j /\ m_end m = i + j + length l.
Proof.
  induction s as [|c s IH]; intros p i m H.
  - cbn [search_from] in H. rewrite match_here_lit in H.
    destruct (lit_prefix fl l []) eqn:E; [|discriminate].
    injection H as <-. exists 0. cbn [skipn m_start m_end length].
    split; [lia|]. split; [exact E|]. split; [intros j' Hj'; lia|]. split; lia.
  - cbn [search_from] in H. rewrite match_here_lit in H.
    destruct (lit_prefix fl l (c :: s)) eqn:E.
    + injection H as <-. exists 0. cbn [skipn m_start m_end length].
      split; [lia|]. split; [exact E|]. split; [intros j' Hj'; lia|]. split; lia.
    + destruct (IH _ _ _ H) as [j [Hj [Hp [Hmin [Hs He]]]]].
      exists (S j). cbn [skipn length].
      split; [lia|]. split; [exact Hp|]. split; [|split; lia].
      intros [|j'] Hlt; [exact E|]. cbn [skipn]. apply Hmin. lia.
Qed.

Lemma search_from_lit_none (fl : flags) (l : str) :
  forall s p i,
    search_from fl (Lit l) p i s = None ->
    forall j, j <= length s -> lit_prefix fl l (skipn j s) = false.
Proof.
  induction s as [|c s IH]; intros p i H j Hj.
  - cbn [search_from] in H. rewrite match_here_lit in H.
    assert (j = 0) as -> by (simpl in Hj; lia). cbn [skipn].
    destruct (lit_prefix fl l []); [discriminate | reflexivity].
  - cbn [search_from] in H. rewrite match_here_lit in H.
    destruct (lit_prefix fl l (c :: s)) eqn:E; [discriminate|].
    destruct j as [|j]; [exact E|]. cbn [skipn].
    apply (IH _ _ H). simpl in Hj. lia.
Qed.

Lemma occurs_dec (ems : list str) (rest : str) :
  (exists em k, In em ems /\ occurs em rest k) \/
  (forall em k, In em ems -> ~ occurs em rest k).
Proof.
  induction ems as [|em ems IH].
  - right. intros em k [].
  - destruct (search_from f_I (Lit em) None 0 rest) as [m|] eqn:E.
    + destruct (search_from_lit_some _ _ _ _ _ _ E) as [j [Hj [Hp _]]].
      left. exists em, j. split; [left; reflexivity | split; assumption].
    + destruct IH as [[em' [k [Hin Hocc]]]|Hnone].
      * left. exists em', k. split; [right; exact Hin | exact Hocc].
      * right. intros em' k [<-|Hin] Hocc; [|apply (Hnone em' k Hin Hocc)].
        destruct Hocc as [Hk Hpk].
        rewrite (search_from_lit_none _ _ _ _ _ E k Hk) in Hpk. discriminate.
Qed.

(** The end of the section: the least offset of an end marker, or the
    bound [e0] the loop starts from. *)
Lemma end_pos_fold (rest : str) (a : nat) (ems : list str) :
  forall e0,
    let b := fold_left
               (fun end_pos em =>
                  match Re.search f_I (Lit em) rest with
                  | Some m => Nat.min end_pos (a + m_start m)
                  | None => end_pos
                  end) ems e0 in
    b <= e0 /\
    (forall em k, In em ems -> occurs em rest k -> b <= a + k) /\
    (b = e0 \/ exists em k, In em ems /\ occurs em rest k /\ b = a + k).
Proof.
  induction ems as [|em ems IH]; intros e0; cbn [fold_left].
  - cbv zeta. split; [lia|]. split; [intros em k []|]. left. reflexivity.
  - cbv zeta.
    destruct (Re.search f_I (Lit em) rest) as [m|] eqn:E; unfold Re.search in E.
    + destruct (search_from_lit_some _ _ _ _ _ _ E) as [j [Hj [Hp [Hmin [Hs _]]]]].
      cbn [Nat.add] in Hs.
      specialize (IH (Nat.min e0 (a + m_start m))). cbv zeta in IH.
      destruct IH as [H1 [H2 H3]]. split; [lia|]. split.
      * intros em' k [<-|Hin] Hocc.
        -- destruct Hocc as [Hk Hpk].
           assert (j <= k) as Hjk.
           { destruct (Nat.le_gt_cases j k) as [|Hlt]; [assumption|].
             rewrite (Hmin _ Hlt) in Hpk. discriminate. }
           lia.
        -- apply (H2 em' k Hin Hocc).
      * destruct H3 as [H3|[em' [k [Hin [Hocc Hb]]]]].
        -- destruct (Nat.le_gt_cases e0 (a + m_start m)) as [Hle|Hgt].
           ++ left. lia.
           ++ right. exists em, j. split; [left; reflexivity|].
              split; [split; assumption|]. lia.
        -- right. exists em', k. split; [right; exact Hin|]. auto.
    + specialize (IH e0). cbv zeta in IH. destruct IH as [H1 [H2 H3]].
      split; [exact H1|]. split.
      * intros em' k [<-|Hin] Hocc.
        -- destruct Hocc as [Hk Hpk].
           rewrite (search_from_lit_none _ _ _ _ _ E k Hk) in Hpk. discriminate.
        -- apply (H2 em' k Hin Hocc).
      * destruct H3 as [H3|[em' [k [Hin [Hocc Hb]]]]]; [left; exact H3|].
        right. exists em', k. split; [right; exact Hin|]. auto.
Qed.

(** Claim C6.  When the start marker does not occur in the text (letter
    case apart) the section is empty.  Otherwise, with [a] the position
    just after its first occurrence, the section is the stripped text from
    [a] to [b], where [b] is the least position at which an end marker
    occurs after [a], or the end of the text when none does. *)
Theorem extract_section_spec (text start_marker : str) (end_markers : list str) :
  ((forall j, ~ occurs start_marker text j) ->
   _extract_section text start_marker end_markers = [])
  /\
  (forall j,
     occurs start_marker text j ->
     (forall j', j' < j -> ~ occurs start_marker text j') ->
     let a := j + length start_marker in
     exists b,
       a <= b <= length text /\
       _extract_section text start_marker end_markers = strip (slice text a b) /\
       (forall em k, In em end_markers -> occurs em (skipn a text) k -> b <= a + k) /\
       ((exists em k, In em end_markers /\ occurs em (skipn a text) k /\ b = a + k)
        \/ ((forall em k, In em end_markers -> ~ occurs em (skipn a text) k)
            /\ b = length text))).
Proof.
  unfold _extract_section. cbv zeta.
  destruct (Re.search f_I (Lit start_marker) text) as [m|] eqn:E;
    unfold Re.search in E.
  - destruct (search_from_lit_some _ _ _ _ _ _ E) as [j0 [Hj0 [Hp0 [Hmin0 [_ He0]]]]].
    cbn [Nat.add] in He0. split.
    + intros Hno. exfalso. apply (Hno j0). split; assumption.
    + intros j [Hj Hp] Hfirst.
      assert (j = j0) as ->.
      { destruct (Nat.lt_trichotomy j j0) as [Hlt|[Heq|Hgt]]; [|exact Heq|].
        - rewrite (Hmin0 _ Hlt) in Hp. discriminate.
        - exfalso. apply (Hfirst j0 Hgt). split; assumption. }
      rewrite He0. set (a := j0 + length start_marker).
      assert (a <= length text) as Ha.
      { apply lit_prefix_length in Hp0. rewrite length_skipn in Hp0. unfold a. lia. }
      pose proof (end_pos_fold (skipn a text) a end_markers (length text)) as Hf.
      cbv zeta in Hf. destruct Hf as [H1 [H2 H3]].
      eexists. split; [|split; [reflexivity|split; [exact H2|]]].
      * split; [|exact H1].
        destruct H3 as [->|[em [k [_ [_ ->]]]]]; lia.
      * destruct H3 as [H3|H3]; [|left; exact H3].
        destruct (occurs_dec end_markers (skipn a text)) as [Hsome|Hnone].
        -- left. destruct Hsome as [em [k [Hin Hocc]]].
           exists em, k. split; [exact Hin|]. split; [exact Hocc|].
           pose proof (H2 em k Hin Hocc) as Hle.
           destruct Hocc as [Hk _]. rewrite length_skipn in Hk. lia.
        -- right. split; [exact Hnone | exact H3].
  - split; [reflexivity|].
    intros j [Hj Hp] _. rewrite (search_from_lit_none _ _ _ _ _ E j Hj) in Hp.
    discriminate.
Qed.

(* ================================================================== *)
(** ** Label to line value *)

Ltac each_char c :=
  destruct c as [[] [] [] [] [] [] [] []]; try reflexivity; try discriminate.

Lemma space_class (fl : flags) (c : ascii) : atom_ok fl a_space c = is_space c.
Proof. destruct fl as [[] d]; each_char c. Qed.

Lemma colon_eq (c : ascii) : chr_eq f_I ":" c = true -> c = ":"%char.
Proof. each_char c. Qed.

Lemma colon_not_space (c : ascii) : is_space c = true -> chr_eq f_I ":" c = false.
Proof. each_char c. Qed.

Lemma run_len_ext (p q : ascii -> bool) (s : str) :
  (forall c, p c = q c) -> run_len p s = run_len q s.
Proof.
  intros H. induction s as [|c s IH]; simpl; [reflexivity|].
  rewrite H, IH. reflexivity.
Qed.

Lemma skipn_run_len (p : ascii -> bool) (s : str) :
  skipn (run_len p s) s = lstrip_with p s.
Proof.
  induction s as [|c s IH]; simpl; [reflexivity|].
  destruct (p c); [exact IH | reflexivity].
Qed.

Lemma skipn_in_run (p : ascii -> bool) (s : str) (j : nat) :
  j < run_len p s -> exists c t, skipn j s = c :: t /\ p c = true.
Proof.
  revert j. induction s as [|c s IH]; simpl; intros j Hj; [lia|].
  destruct (p c) eqn:E; [|lia].
  destruct j as [|j]; [exists c, s; auto|]. simpl. apply IH. lia.
Qed.

(** After the label and optional blanks the pattern needs a colon. *)
Lemma colon_after_blanks (s : str) (j : nat) :
  j <= run_len is_space s ->
  (forall t, lstrip_with is_space s <> ":"%char :: t) ->
  lit_prefix f_I (py ":") (skipn j s) = false.
Proof.
  intros Hj Hno. change (py ":") with [":"%char].
  destruct (Nat.eq_dec j (run_len is_space s)) as [->|Hne].
  - rewrite skipn_run_len. destruct (lstrip_with is_space s) as [|c t] eqn:E;
      [reflexivity|]. cbn [lit_prefix]. rewrite andb_true_r.
    destruct (chr_eq f_I ":" c) eqn:Ec; [|reflexivity].
    apply colon_eq in Ec. subst c. exfalso. apply (Hno t). reflexivity.
  - destruct (skipn_in_run is_space s j) as [c [t [-> Hc]]]; [lia|].
    cbn [lit_prefix]. rewrite (colon_not_space c Hc). reflexivity.
Qed.

Lemma match_here_label_none (label : str) (R : regex) (must : bool)
  (p : option ascii) (i : nat) (s : str) :
  ~ (lit_prefix f_I label s = true /\
     exists t, lstrip_with is_space (skipn (length label) s) = ":"%char :: t) ->
  match_here f_I (Seq (Lit label) (Seq (star a_space) (Seq (Lit (py ":")) R)))
             must p i s = None.
Proof.
  intros Hno. unfold match_here. cbn [rx rest star].
  destruct (lit_prefix f_I label s) eqn:E; [|reflexivity].
  cbn [cap_len adv rest]. rewrite Nat.sub_0_r.
  rewrite try_down_none; [reflexivity|].
  intros j Hj. cbn [rest].
  rewrite (run_len_ext _ is_space _ (space_class f_I)) in Hj.
  rewrite colon_after_blanks; [reflexivity | lia |].
  intros t Ht. apply Hno. split; [reflexivity|]. exists t. exact Ht.
Qed.

Lemma search_from_label_none (label : str) (R : regex) :
  forall s p i,
    (forall j, j <= length s ->
       ~ (lit_prefix f_I label (skipn j s) = true /\
          exists t, lstrip_with is_space (skipn (length label) (skipn j s))
                    = ":"%char :: t)) ->
    search_from f_I (Seq (Lit label) (Seq (star a_space) (Seq (Lit (py ":")) R)))
                p i s = None.
Proof.
  induction s as [|c s IH]; intros p i Hno; cbn [search_from].
  - rewrite match_here_label_none; [reflexivity|]. apply (Hno 0). simpl. lia.
  - rewrite match_here_label_none; [|apply (Hno 0); simpl; lia].
    apply IH. intros j Hj. apply (Hno (S j)). simpl. lia.
Qed.

Lemma search_label_none (label text : str) (R : regex) :
  (forall j, ~ label_colon_at label text j) ->
  Re.search f_I (Seq (Lit label) (Seq (star a_space) (Seq (Lit (py ":")) R))) text
  = None.
Proof.
  intros Hno. apply search_from_label_none. intros j Hj [H1 [t H2]].
  apply (Hno j). split; [exact Hj|]. split; [exact H1|]. exists t.
  rewrite skipn_skipn in H2. rewrite Nat.add_comm. exact H2.
Qed.

Lemma stripped_nonempty_hd (s : str) :
  stripped is_space s -> s <> [] -> exists c t, s = c :: t /\ is_space c = false.
Proof.
  intros [H _] Hne. destruct s as [|c t]; [congruence|].
  exists c, t. split; [reflexivity|]. simpl in H. apply negb_true_iff. exact H.
Qed.

(** For a maximum of at least one character, label-to-line extraction
    returns absent or a value that is not empty, is at most the maximum
    long and has no blank at either end; it returns absent when the text
    has no occurrence of the label (letter case apart) followed, after
    optional blanks, by a colon. *)
Lemma label_value_shape (text label : str) (max_len : nat) :
  1 <= max_len ->
  (exists v, _extract_value_by_label text label max_len = Ok v /\
             match v with
             | None => True
             | Some v => v <> [] /\ length v <= max_len /\ strip v = v
             end)
  /\ ((forall j, ~ label_colon_at label text j) ->
      _extract_value_by_label text label max_len = Ok None).
Proof.
  intros Hmax. unfold _extract_value_by_label.
  set (pat := seqs (label_colon label ++ [Group 1 (plus (ncls [CChar newline]))])).
  destruct (first_group_ok pat text f_I eq_refl) as [v [-> [Hnone Hstr]]].
  cbn [bind]. split.
  - destruct v as [[|c t]|]; [exists None; auto | | exists None; auto].
    specialize (Hstr _ eq_refl).
    rewrite (strip_with_id is_space (c :: t) Hstr : strip (c :: t) = c :: t).
    eexists. split; [reflexivity|].
    destruct (max_len <? length (c :: t)) eqn:E.
    + destruct (stripped_nonempty_hd _ Hstr) as [c0 [t0 [Heq Hc0]]]; [discriminate|].
      injection Heq as <- <-.
      destruct max_len as [|n]; [lia|]. cbn [firstn].
      split; [apply strip_with_nonempty; exact Hc0|]. split.
      * etransitivity; [apply strip_with_length|]. simpl.
        rewrite length_firstn. lia.
      * apply strip_with_idem.
    + apply Nat.ltb_ge in E. split; [discriminate|]. split; [exact E|].
      apply strip_with_id, Hstr.
  - intros Hno. rewrite Hnone; [reflexivity|].
    apply (search_label_none label text _ Hno).
Qed.

(* ================================================================== *)
(** ** No extractor raises *)

Lemma bind_ok_inv {A B : Type} (m : result A) (f : A -> result B) (b : B) :
  bind m f = Ok b -> exists a, m = Ok a /\ f a = Ok b.
Proof. destruct m as [a|e]; simpl; [eauto | discriminate]. Qed.

Lemma bind_ext {A B : Type} (m : result A) (f g : A -> result B) :
  (forall a, f a = g a) -> bind m f = bind m g.
Proof. intros H. destruct m; simpl; auto. Qed.

Lemma extract_value_by_label_ok (text label : str) (max_len : nat) :
  exists v, _extract_value_by_label text label max_len = Ok v.
Proof.
  unfold _extract_value_by_label.
  destruct (first_group_ok
              (seqs (label_colon label ++ [Group 1 (plus (ncls [CChar newline]))]))
              text f_I eq_refl) as [v [-> _]].
  cbn [bind]. destruct v as [[|c t]|]; eauto.
Qed.

Lemma or_else_ok (a b : result (option str)) :
  (exists v, a = Ok v) -> (exists v, b = Ok v) -> exists v, or_else a b = Ok v.
Proof.
  intros [va ->] [vb ->]. unfold or_else. cbn [bind].
  destruct (truthy va); eauto.
Qed.

Lemma extract_block_after_label_ok (text label : str) (stop_labels : list str) :
  exists v, _extract_block_after_label text label stop_labels = Ok v.
Proof.
  unfold _extract_block_after_label.
  match goal with
  | |- context [_first_group ?pat text f_IS] =>
      destruct (first_group_ok pat text f_IS eq_refl) as [v [-> _]]
  end.
  cbn [bind]. eauto.
Qed.

Lemma split_segs_head (s : str) (g : option nat) (sgs : list seg) :
  forall acc, exists piece rest, split_segs s g acc sgs = Some piece :: rest.
Proof.
  induction sgs as [|sg sgs IH]; intros acc; cbn [split_segs].
  - eauto.
  - destruct sg as [c|m t]; [apply IH | eauto].
Qed.

Lemma split_head_ok (fl : flags) (r : regex) (g : option nat) (v : str) :
  exists piece, split_head fl r g v = Ok piece.
Proof.
  unfold split_head, Re.split.
  destruct (split_segs_head v g (finditer fl r v) []) as [piece [rest ->]].
  eauto.
Qed.

Lemma py_float_raises (s : str) (e : exn) : py_float s = Raise e -> e = ValueError.
Proof.
  unfold py_float. destruct (run_len is_digit s); [congruence|].
  destruct (skipn _ s) as [|c fp]; [discriminate|].
  destruct (Ascii.eqb c ".") eqn:E.
  - apply Ascii.eqb_eq in E. subst c.
    destruct (forallb is_digit fp); [|congruence].
    destruct fp as [|a [|b [|x fp]]]; congruence.
  - destruct c as [[] [] [] [] [] [] [] []]; try congruence; discriminate.
Qed.

Lemma money_to_float_ok (s : option str) : exists v, _money_to_float s = Ok v.
Proof.
  unfold _money_to_float. destruct s as [[|c t]|]; eauto.
  match goal with
  | |- context [Re.search no_flags ?pat ?s] =>
      destruct (Re.search no_flags pat s) as [m|] eqn:E; [|eauto];
      pose proof (search_from_group no_flags pat 1 eq_refl _ _ _ _ E) as Hc
  end.
  unfold Re.group. destruct (lookup_cap 1 (m_caps m)) as [[a b]|]; [|congruence].
  destruct (py_float (slice _ a b)) as [f|e] eqn:Ef; cbn; [eauto|].
  apply py_float_raises in Ef. subst e. cbn. eauto.
Qed.

Lemma extract_phone_from_chunk_ok (chunk : str) :
  exists v, _extract_phone_from_chunk chunk = Ok v.
Proof.
  unfold _extract_phone_from_chunk. destruct chunk as [|c t]; eauto.
  destruct (Re.search _ _ _); eauto.
  destruct (10 <=? _); eauto.
Qed.

Lemma extract_long_digit_run_ok (chunk : option str) (lo hi : nat) :
  lo <= hi -> exists v, _extract_long_digit_run chunk lo hi = Ok v.
Proof.
  intros H. unfold _extract_long_digit_run. destruct chunk as [[|c t]|]; eauto.
  cbn [well_formed]. replace (lo <=? hi) with true
    by (symmetry; apply Nat.leb_le; exact H).
  cbn [negb]. destruct (Re.findall _ _ _); eauto.
Qed.

Lemma pick_customer_name_ok (info_section : str) :
  exists v, _pick_customer_name info_section = Ok v.
Proof.
  unfold _pick_customer_name.
  induction (map py _) as [|label labels IH]; cbn [_pick_customer_name_loop].
  - eauto.
  - destruct (extract_value_by_label_ok info_section label 200) as [v ->].
    cbn [bind]. destruct (_collapse_spaces v) as [[|c t]|]; try exact IH.
    match goal with
    | |- context [split_head ?fl ?r ?g ?x] =>
        destruct (split_head_ok fl r g x) as [piece ->]
    end.
    cbn [bind]. destruct piece; [exact IH | eauto].
Qed.

Lemma sets_group_seqs_app (n : nat) (l l' : list regex) :
  sets_group n (seqs l') = true -> sets_group n (seqs (l ++ l')) = true.
Proof.
  intros H. induction l as [|r l IH]; [exact H|].
  change (seqs ((r :: l) ++ l')) with (Seq r (seqs (l ++ l'))).
  cbn [sets_group]. rewrite IH. apply orb_true_r.
Qed.

Lemma first_group_charge_ok (label : list regex) (text : str) :
  exists v, _first_group (charge_pattern label) text f_I = Ok v.
Proof.
  assert (sets_group 1 (charge_pattern label) = true) as Hs.
  { unfold charge_pattern. apply sets_group_seqs_app. reflexivity. }
  destruct (first_group_ok _ text f_I Hs) as [v [-> _]]. eauto.
Qed.

Lemma pick_plan_name_and_charge_ok (rate_section full_text : str) :
  exists v, _pick_plan_name_and_charge rate_section full_text = Ok v.
Proof.
  unfold _pick_plan_name_and_charge.
  destruct (or_else_ok _ _ (extract_value_by_label_ok rate_section (py "Plan") 250)
                           (extract_value_by_label_ok full_text (py "Plan") 250))
    as [plan_line ->].
  cbn [bind]. destruct plan_line as [[|c t]|]; cbn [bind]; eauto.
  unfold monthly_rate_plan_charge, minimum_monthly_charge.
  destruct (first_group_charge_ok [Lit (py "Monthly Rate Plan Charge")] (c :: t))
    as [raw1 ->].
  cbn [bind].
  assert (exists pc, (if truthy raw1 then _money_to_float raw1 else Ok None) = Ok pc)
    as [pc ->].
  { destruct (truthy raw1); [apply money_to_float_ok | eauto]. }
  cbn [bind].
  assert (exists pc',
            match pc with
            | Some f => Ok (Some f)
            | None =>
                charge_raw <- _first_group
                                (charge_pattern [Lit (py "Minimum Monthly Charge")])
                                (c :: t) f_I ;;
                (if truthy charge_raw then _money_to_float charge_raw else Ok None)
            end = Ok pc') as [pc' ->].
  { destruct pc; [eauto|].
    destruct (first_group_charge_ok [Lit (py "Minimum Monthly Charge")] (c :: t))
      as [raw2 ->].
    cbn [bind]. destruct (truthy raw2); [apply money_to_float_ok | eauto]. }
  cbn [bind].
  match goal with
  | |- context [split_head ?fl ?r ?g ?x] =>
      destruct (split_head_ok fl r g x) as [piece ->]
  end.
  cbn [bind]. eauto.
Qed.

(* ================================================================== *)
(** ** The output record *)

Lemma field_str_of (kw : kwargs) (name : string) (v : option str) :
  lookup_kw name kw = Some (of_str v) -> field_str kw name = Ok v.
Proof. unfold field_str. intros ->. destruct v; reflexivity. Qed.

Lemma field_float_of (kw : kwargs) (name : string) (v : option pyfloat) :
  lookup_kw name kw = Some (of_float v) -> field_float kw name = Ok v.
Proof. unfold field_float. intros ->. destruct v; reflexivity. Qed.

Lemma field_date_of (kw : kwargs) (name : string) (v : option date) :
  lookup_kw name kw = Some (of_date v) -> field_date kw name = Ok v.
Proof. unfold field_date. intros ->. destruct v; reflexivity. Qed.

(** The record built from the keyword arguments of [parse_contract_text]:
    the keyword [raw_text] names no declared field and leaves no trace. *)
Lemma init_of_fields
  (v_name v_phone v_address v_plan : option str) (v_charge v_minimum : option pyfloat)
  (v_start v_end : option date) (v_order v_activity v_model v_imei v_sim : option str)
  (raw : str) :
  ContractExtraction_init
    [("customer_name", of_str v_name);
     ("customer_phone", of_str v_phone);
     ("customer_address", of_str v_address);
     ("plan_name", of_str v_plan);
     ("plan_charge", of_float v_charge);
     ("minimum_monthly_plan", of_float v_minimum);
     ("contract_start_date", of_date v_start);
     ("contract_end_date", of_date v_end);
     ("order_number", of_str v_order);
     ("activity", of_str v_activity);
     ("down_payment", VNone);
     ("device_model", of_str v_model);
     ("device_imei", of_str v_imei);
     ("sim_number", of_str v_sim);
     ("raw_text", VStr raw)]%string
  = Ok {| customer_name := v_name;
          customer_phone := v_phone;
          customer_address := v_address;
          plan_name := v_plan;
          plan_charge := v_charge;
          minimum_monthly_plan := v_minimum;
          contract_start_date := v_start;
          contract_end_date := v_end;
          order_number := v_order;
          activity := v_activity;
          down_payment := None;
          device_model := v_model;
          device_imei := v_imei;
          serial_number := None;
          sim_number := v_sim;
          add_ons := [] |}.
Proof.
  unfold ContractExtraction_init.
  rewrite (field_str_of _ "customer_name" v_name) by reflexivity.
  rewrite (field_str_of _ "customer_phone" v_phone) by reflexivity.
  rewrite (field_str_of _ "customer_address" v_address) by reflexivity.
  rewrite (field_str_of _ "plan_name" v_plan) by reflexivity.
  rewrite (field_float_of _ "plan_charge" v_charge) by reflexivity.
  rewrite (field_float_of _ "minimum_monthly_plan" v_minimum) by reflexivity.
  rewrite (field_date_of _ "contract_start_date" v_start) by reflexivity.
  rewrite (field_date_of _ "contract_end_date" v_end) by reflexivity.
  rewrite (field_str_of _ "order_number" v_order) by reflexivity.
  rewrite (field_str_of _ "activity" v_activity) by reflexivity.
  rewrite (field_str_of _ "device_model" v_model) by reflexivity.
  rewrite (field_str_of _ "device_imei" v_imei) by reflexivity.
  rewrite (field_str_of _ "sim_number" v_sim) by reflexivity.
  reflexivity.
Qed.

(* ================================================================== *)
(** ** Dates *)

Lemma py_int_raises (s : str) (e : exn) : py_int s = Raise e -> e = ValueError.
Proof.
  unfold py_int. destruct (strip s); [congruence|].
  destruct (forallb _ _); congruence.
Qed.

Lemma mk_datetime_raises (y m d : nat) (e : exn) :
  mk_datetime y m d = Raise e -> e = ValueError.
Proof. unfold mk_datetime. destruct (_ && _); congruence. Qed.

Lemma strptime_raises (s fmt : str) (e : exn) :
  strptime s fmt = Raise e -> e = ValueError.
Proof.
  unfold strptime. destruct (format_regex false fmt) as [r|]; [|congruence].
  destruct (Re.match_ f_I r s) as [m|]; [|congruence].
  destruct (negb _); [congruence|].
  unfold parsed_field, parsed_month.
  destruct (group s m (code "Y")) as [ty|].
  - destruct (py_int ty) as [y|e1] eqn:Ey; cbn [bind];
      [|intros H; injection H as <-; apply (py_int_raises _ _ Ey)].
    destruct (group s m (code "m")) as [tm|].
    + destruct (py_int tm) as [mo|e1] eqn:Em; cbn [bind];
        [|intros H; injection H as <-; apply (py_int_raises _ _ Em)].
      destruct (group s m (code "d")) as [td|]; cbn [bind];
        [|apply mk_datetime_raises].
      destruct (py_int td) as [d|e1] eqn:Ed; cbn [bind];
        [apply mk_datetime_raises
        |intros H; injection H as <-; apply (py_int_raises _ _ Ed)].
    + assert (forall (mo : result nat),
                (forall e1, mo = Raise e1 -> e1 = ValueError) ->
                (mo0 <- mo ;;
                 d <- match group s m (code "d") with
                      | Some t => py_int t
                      | None => Ok 1
                      end ;; mk_datetime y mo0 d) = Raise e -> e = ValueError) as Hgen.
      { intros mo Hmo. destruct mo as [mo0|e1]; cbn [bind];
          [|intros H; injection H as <-; apply Hmo; reflexivity].
        destruct (group s m (code "d")) as [td|]; cbn [bind];
          [|apply mk_datetime_raises].
        destruct (py_int td) as [d|e1] eqn:Ed; cbn [bind];
          [apply mk_datetime_raises
          |intros H; injection H as <-; apply (py_int_raises _ _ Ed)]. }
      apply Hgen. intros e1.
      destruct (group s m (code "B")) as [tB|].
      * destruct (index_of _ f_month 1); congruence.
      * destruct (group s m (code "b")) as [tb|]; [|congruence].
        destruct (index_of _ a_month 1); congruence.
  - cbn [bind].
    assert (forall (mo : result nat),
                (forall e1, mo = Raise e1 -> e1 = ValueError) ->
                (mo0 <- mo ;;
                 d <- match group s m (code "d") with
                      | Some t => py_int t
                      | None => Ok 1
                      end ;; mk_datetime 1900 mo0 d) = Raise e -> e = ValueError) as Hgen.
    { intros mo Hmo. destruct mo as [mo0|e1]; cbn [bind];
        [|intros H; injection H as <-; apply Hmo; reflexivity].
      destruct (group s m (code "d")) as [td|]; cbn [bind];
        [|apply mk_datetime_raises].
      destruct (py_int td) as [d|e1] eqn:Ed; cbn [bind];
        [apply mk_datetime_raises
        |intros H; injection H as <-; apply (py_int_raises _ _ Ed)]. }
    apply Hgen. intros e1.
    destruct (group s m (code "m")) as [tm|]; [apply py_int_raises|].
    destruct (group s m (code "B")) as [tB|].
    + destruct (index_of _ f_month 1); congruence.
    + destruct (group s m (code "b")) as [tb|]; [|congruence].
      destruct (index_of _ a_month 1); congruence.
Qed.

(* ================================================================== *)
(** ** The date parser and the document resolver *)

Section ParseFacts.

Variable fromisoformat : str -> result datetime.

Lemma try_formats_first (s : str) (pre : list str) (fmt : str) (post : list str)
  (d : datetime) :
  (forall f, In f pre -> strptime s f = Raise ValueError) ->
  strptime s fmt = Ok d ->
  try_formats fromisoformat s (pre ++ fmt :: post) = Ok (Some d).
Proof.
  intros Hpre Hfmt. induction pre as [|f pre IH]; cbn [app try_formats].
  - rewrite Hfmt. reflexivity.
  - rewrite (Hpre f) by (left; reflexivity). cbn.
    apply IH. intros f' Hf'. apply Hpre. right. exact Hf'.
Qed.

(** Claim C8.  The date parser tries the long month name, the abbreviated
    month, the ISO form, MM/DD/YYYY and DD/MM/YYYY in this order and
    returns the first parse that succeeds; so 11/19/2025 is November 19,
    and 03/04/2025, which DD/MM/YYYY reads as April 3, is March 4. *)
Theorem date_formats_in_order :
  DATE_PATTERNS = map py ["%B %d, %Y"; "%b %d, %Y"; "%Y-%m-%d"; "%m/%d/%Y";
                          "%d/%m/%Y"]%string
  /\ (forall s pre fmt post d,
        DATE_PATTERNS = pre ++ fmt :: post ->
        (forall f, In f pre -> strptime s f = Raise ValueError) ->
        strptime s fmt = Ok d ->
        try_formats fromisoformat s DATE_PATTERNS = Ok (Some d))
  /\ _parse_date_str fromisoformat (Some (py "November 19, 2025"))
     = Ok (Some (mk_date 2025 11 19))
  /\ _parse_date_str fromisoformat (Some (py "2025-11-19"))
     = Ok (Some (mk_date 2025 11 19))
  /\ _parse_date_str fromisoformat (Some (py "11/19/2025"))
     = Ok (Some (mk_date 2025 11 19))
  /\ _parse_date_str fromisoformat (Some (py "03/04/2025"))
     = Ok (Some (mk_date 2025 3 4))
  /\ strptime (py "03/04/2025") (py "%d/%m/%Y") = Ok (mk_date 2025 4 3).
Proof.
  split; [reflexivity|]. split.
  - intros s pre fmt post d -> Hpre Hfmt. apply try_formats_first; assumption.
  - repeat split; vm_compute; reflexivity.
Qed.

(** Claim C1, as the code has it.  The record depends on the input through
    the normalised text only: the raw text is handed to the constructor
    under a keyword that names no field of the record, and is dropped. *)
Theorem raw_text_is_dropped (t1 t2 : str) :
  _norm_text t1 = _norm_text t2 ->
  parse_contract_text fromisoformat t1 = parse_contract_text fromisoformat t2.
Proof.
  intros H. unfold parse_contract_text. cbv zeta. rewrite H.
  repeat (apply bind_ext; intros ?).
  repeat match goal with
         | |- context [match ?x with (_, _) => _ end] => destruct x
         end.
  repeat (apply bind_ext; intros ?).
  reflexivity.
Qed.

(** Claim C2, as the code has it.  On a text without the marker of the
    customer-information section the section is empty, and the customer
    phone is taken from the whole text: here from the store's number. *)
Theorem customer_phone_from_whole_text :
  let full_text := py "Store Phone Number: (780) 617-4431" in
  info_section_of (_norm_text full_text) = []
  /\ exists r, parse_contract_text fromisoformat full_text = Ok r
               /\ customer_phone r = Some (py "7806174431").
Proof.
  cbv zeta. split; [vm_compute; reflexivity|].
  eexists. split; [vm_compute; reflexivity|]. reflexivity.
Qed.

Ltac step H v E :=
  apply bind_ok_inv in H; destruct H as [v [E H]]; cbv beta in H.

(** Claim C3, as amended.  When the Plan line leaves the plan charge
    absent, the record takes the amount after Minimum Monthly Charge in
    the whole text, and only when there is none the amount after Monthly
    Rate Plan Charge. *)
Theorem retry_order (full_text : str) (r : ContractExtraction) (pn : option str)
  (mrc byod : option pyfloat) :
  let text := _norm_text full_text in
  parse_contract_text fromisoformat full_text = Ok r ->
  _pick_plan_name_and_charge (or_text (rate_section_of text) text) text
    = Ok (pn, None) ->
  amount_in monthly_rate_plan_charge text = Ok mrc ->
  amount_in minimum_monthly_charge text = Ok byod ->
  plan_charge r = match byod with Some f => Some f | None => mrc end.
Proof.
  intros text H Hpick Hmrc Hbyod.
  unfold parse_contract_text in H. cbv zeta in H. fold text in H.
  unfold rate_section_of in Hpick.
  step H v1 E1. step H v2 E2. step H v3 E3. step H v4 E4. step H v5 E5.
  step H v6 E6. step H v7 E7. step H v8 E8. step H v9 E9. step H v10 E10.
  step H v11 E11. rewrite Hpick in E11. injection E11 as <-.
  step H v12 E12. step H v13 E13. step H v14 E14. step H v15 E15.
  step H v16 E16. step H v17 E17. step H v18 E18. step H v19 E19.
  step H v20 E20.
  rewrite init_of_fields in H. injection H as <-. cbn [plan_charge].
  unfold amount_in in Hmrc, Hbyod.
  apply bind_ok_inv in Hbyod. destruct Hbyod as [raw1 [Hb1 Hb2]].
  apply bind_ok_inv in Hmrc. destruct Hmrc as [raw2 [Hm1 Hm2]].
  rewrite Hb1 in E14. cbn [bind] in E14. rewrite Hb2 in E14. cbn [bind] in E14.
  destruct byod as [f|]; [congruence|].
  rewrite Hm1 in E14. cbn [bind] in E14. rewrite Hm2 in E14. cbn [bind] in E14.
  destruct mrc; congruence.
Qed.

(** *** Nothing raises *)

Hypothesis fromisoformat_raises :
  forall s e, fromisoformat s = Raise e -> e = ValueError.

Lemma try_formats_ok (s : str) (fmts : list str) :
  exists v, try_formats fromisoformat s fmts = Ok v.
Proof.
  induction fmts as [|fmt fmts IH]; cbn [try_formats].
  - destruct (fromisoformat s) as [d|e] eqn:E; cbn; [eauto|].
    rewrite (fromisoformat_raises _ _ E). cbn. eauto.
  - destruct (strptime s fmt) as [d|e] eqn:E; cbn; [eauto|].
    rewrite (strptime_raises _ _ _ E). cbn. exact IH.
Qed.

(** A candidate that no format parses is absent, not an error. *)
Lemma try_formats_absent (s : str) (fmts : list str) :
  (forall f, In f fmts -> strptime s f = Raise ValueError) ->
  fromisoformat s = Raise ValueError ->
  try_formats fromisoformat s fmts = Ok None.
Proof.
  intros Hf Hiso. induction fmts as [|fmt fmts IH]; cbn [try_formats].
  - rewrite Hiso. reflexivity.
  - rewrite (Hf fmt) by (left; reflexivity). cbn.
    apply IH. intros f Hin. apply Hf. right. exact Hin.
Qed.

Lemma parse_date_str_ok (s : option str) :
  exists v, _parse_date_str fromisoformat s = Ok v.
Proof.
  unfold _parse_date_str. destruct s as [[|c t]|]; eauto.
  destruct (_collapse_spaces _) as [[|c' t']|]; eauto.
  apply try_formats_ok.
Qed.

Lemma extract_labeled_date_ok (text label : str) :
  exists v, _extract_labeled_date fromisoformat text label = Ok v.
Proof.
  unfold _extract_labeled_date.
  match goal with
  | |- context [_first_group ?pat text f_I] =>
      destruct (first_group_ok pat text f_I eq_refl) as [v [-> _]]
  end.
  cbn [bind]. apply parse_date_str_ok.
Qed.

Lemma or_else_dt_ok (a b : result (option datetime)) :
  (exists v, a = Ok v) -> (exists v, b = Ok v) -> exists v, or_else_dt a b = Ok v.
Proof.
  intros [va ->] [vb ->]. unfold or_else_dt. cbn [bind]. destruct va; eauto.
Qed.

Ltac step_ok tac :=
  match goal with
  | |- exists r, bind ?m _ = Ok r =>
      let v := fresh "v" in
      let E := fresh "E" in
      assert (exists x, m = Ok x) as [v E] by tac;
      rewrite E; clear E; cbn [bind]
  end.

Ltac by_split :=
  match goal with
  | |- exists x, ?m = Ok x =>
      match m with
      | context [split_head _ _ _ _] =>
          match goal with
          | v : _ |- _ =>
              match m with
              | context [Ok v] =>
                  destruct v as [[|? ?]|]; eauto;
                  match goal with
                  | |- context [split_head ?fl ?r ?g ?x] =>
                      destruct (split_head_ok fl r g x) as [? ->];
                      cbn [bind]; eauto
                  end
              end
          end
      end
  end.

Lemma parse_contract_text_ok (full_text : str) :
  exists r, parse_contract_text fromisoformat full_text = Ok r.
Proof.
  unfold parse_contract_text. cbv zeta.
  step_ok ltac:(apply pick_customer_name_ok).
  step_ok ltac:(apply or_else_ok; apply extract_value_by_label_ok).
  step_ok ltac:(destruct v0 as [[|? ?]|]; eauto; apply extract_phone_from_chunk_ok).
  step_ok ltac:(apply extract_block_after_label_ok).
  step_ok ltac:(apply extract_value_by_label_ok).
  step_ok ltac:(idtac; by_split).
  step_ok ltac:(apply extract_value_by_label_ok).
  step_ok ltac:(idtac; by_split).
  step_ok ltac:(apply or_else_dt_ok; apply extract_labeled_date_ok).
  step_ok ltac:(apply or_else_dt_ok; apply extract_labeled_date_ok).
  step_ok ltac:(apply pick_plan_name_and_charge_ok).
  destruct v9 as [v_plan_name v_plan_charge].
  step_ok ltac:(apply first_group_charge_ok).
  step_ok ltac:(apply money_to_float_ok).
  step_ok ltac:(
    destruct v_plan_charge; eauto;
    destruct (first_group_charge_ok [Lit (py "Minimum Monthly Charge")]
                                    (_norm_text full_text)) as [? E1];
    unfold minimum_monthly_charge; rewrite E1; cbn [bind];
    match goal with
    | |- context [_money_to_float ?x] =>
        destruct (money_to_float_ok x) as [[?|] ->]; cbn [bind]; eauto
    end;
    destruct (first_group_charge_ok [Lit (py "Monthly Rate Plan Charge")]
                                    (_norm_text full_text)) as [? E2];
    unfold monthly_rate_plan_charge; rewrite E2; cbn [bind];
    match goal with
    | |- context [_money_to_float ?x] =>
        destruct (money_to_float_ok x) as [[?|] ->]; cbn [bind]; eauto
    end).
  step_ok ltac:(apply extract_value_by_label_ok).
  step_ok ltac:(idtac; by_split).
  step_ok ltac:(apply or_else_ok; apply extract_value_by_label_ok).
  step_ok ltac:(apply extract_long_digit_run_ok; lia).
  step_ok ltac:(apply or_else_ok; apply extract_value_by_label_ok).
  step_ok ltac:(apply extract_long_digit_run_ok; lia).
  rewrite init_of_fields. eauto.
Qed.

(** Claim C10.  Given a [fromisoformat] that signals a text it cannot read
    by [ValueError], no primitive extractor raises, a date candidate that
    no format parses is absent, and [parse_contract_text] returns a record
    for every text. *)
Theorem parse_contract_text_total :
  (forall text label max_len, exists v, _extract_value_by_label text label max_len = Ok v)
  /\ (forall text label stops, exists v, _extract_block_after_label text label stops = Ok v)
  /\ (forall s, exists v, _money_to_float s = Ok v)
  /\ (forall chunk, exists v, _extract_phone_from_chunk chunk = Ok v)
  /\ (forall chunk lo hi, lo <= hi -> exists v, _extract_long_digit_run chunk lo hi = Ok v)
  /\ (forall s, exists v, _parse_date_str fromisoformat s = Ok v)
  /\ (forall s, (forall f, In f DATE_PATTERNS -> strptime s f = Raise ValueError) ->
                fromisoformat s = Raise ValueError ->
                try_formats fromisoformat s DATE_PATTERNS = Ok None)
  /\ (forall full_text, exists r, parse_contract_text fromisoformat full_text = Ok r).
Proof.
  split; [exact extract_value_by_label_ok|].
  split; [exact extract_block_after_label_ok|].
  split; [exact money_to_float_ok|].
  split; [exact extract_phone_from_chunk_ok|].
  split; [exact extract_long_digit_run_ok|].
  split; [exact parse_date_str_ok|].
  split; [intros s; apply try_formats_absent|].
  exact parse_contract_text_ok.
Qed.

End ParseFacts.

(* ================================================================== *)
(** ** The phone extractor *)

(** Whatever the phone extractor returns is ten digits. *)
Lemma phone_ten_digits (chunk v : str) :
  _extract_phone_from_chunk chunk = Ok (Some v) ->
  length v = 10 /\ forallb is_digit v = true.
Proof.
  unfold _extract_phone_from_chunk. destruct chunk as [|c t]; [discriminate|].
  destruct (Re.search _ _ _) as [m|]; [|discriminate].
  destruct (10 <=? _) eqn:E; [|discriminate].
  intros H. injection H as <-. apply Nat.leb_le in E. unfold last_n. split.
  - rewrite length_skipn. lia.
  - apply forallb_forall. intros x Hx.
    pose proof (digits_only_digits (group (c :: t) m 1)) as Hd.
    rewrite forallb_forall in Hd. apply Hd.
    rewrite <- (firstn_skipn (length (_digits_only (group (c :: t) m 1)) - 10)).
    apply in_or_app. right. exact Hx.
Qed.

(** Claim C4, as the code has it.  On eleven digits in a row, a phone
    number behind a merged country code, the pattern takes the first ten
    digits and the extractor returns them; the last ten digits of the run
    are another number. *)
Theorem phone_keeps_first_ten_digits :
  _extract_phone_from_chunk (py "17806174431") = Ok (Some (py "1780617443"))
  /\ last_n 10 (_digits_only (Some (py "17806174431"))) = py "7806174431".
Proof. split; vm_compute; reflexivity. Qed.

(* ================================================================== *)
(** ** Closed instances *)

Lemma fromisoformat_calendar_raises (s : str) (e : exn) :
  fromisoformat_calendar s = Raise e -> e = ValueError.
Proof.
  unfold fromisoformat_calendar. destruct (_ && _); [|congruence].
  apply mk_datetime_raises.
Qed.

(** Two inputs with one normalised text and one record. *)
Lemma raw_text_is_dropped_witness :
  py " x" <> py "x"
  /\ parse_contract_text fromisoformat_calendar (py " x")
     = parse_contract_text fromisoformat_calendar (py "x").
Proof.
  split; [discriminate|].
  apply (raw_text_is_dropped fromisoformat_calendar (py " x") (py "x")).
  vm_compute. reflexivity.
Defined.

(** With both labels in the text and no Plan line, the record takes the
    amount after Minimum Monthly Charge: the stated order fails. *)
Lemma retry_order_counterexample :
  ~ retry_order_as_stated fromisoformat_calendar two_charges.
Proof.
  intros H.
  assert (exists r, parse_contract_text fromisoformat_calendar two_charges = Ok r
                    /\ plan_charge r = Some 8500%N) as [r [Hr Hpc]].
  { eexists. split; [vm_compute; reflexivity | reflexivity]. }
  assert (exists pn,
            _pick_plan_name_and_charge
              (or_text (rate_section_of (_norm_text two_charges))
                       (_norm_text two_charges))
              (_norm_text two_charges) = Ok (pn, None)) as [pn Hpn].
  { eexists. vm_compute. reflexivity. }
  specialize (H r pn (Some 2000%N) (Some 8500%N) Hr Hpn).
  rewrite Hpc in H.
  assert (Some 8500%N = Some 2000%N) as Habs.
  { apply H; vm_compute; reflexivity. }
  discriminate Habs.
Qed.

(** The same text under the amended order. *)
Lemma retry_order_witness :
  exists r, parse_contract_text fromisoformat_calendar two_charges = Ok r
            /\ plan_charge r = Some 8500%N.
Proof.
  eexists. split; [vm_compute; reflexivity|].
  apply (retry_order fromisoformat_calendar two_charges _
                     (Some (py "Monthly Rate Plan Charge: $20.00"))
                     (Some 2000%N) (Some 8500%N));
    vm_compute; reflexivity.
Defined.



(** The slicing example of the specification: the section runs from
    position 11, after the start marker, to position 16, the end marker. *)
Lemma extract_section_witness :
  exists b,
    _extract_section (sliced_text) (py "START:") [py "END:"]
    = strip (slice (sliced_text) 11 b)
    /\ b = 16.
Proof.
  destruct (proj2 (extract_section_spec (sliced_text)
                     (py "START:") [py "END:"]) 5) as [b [Hb [Heq [Hmin Hex]]]].
  - split; [vm_compute; lia | reflexivity].
  - intros j' Hj' [_ Hocc].
    do 5 (destruct j' as [|j']; [discriminate Hocc|]). lia.
  - exists b. split; [exact Heq|].
    assert (b <= 11 + 5) as Hle.
    { apply (Hmin (py "END:") 5); [left; reflexivity|].
      split; [vm_compute; lia | reflexivity]. }
    destruct Hex as [[em [k [[<-|[]] [[Hk Hocc] ->]]]]|[Hnone _]].
    + do 5 (destruct k as [|k]; [discriminate Hocc|]).
      change (length (py "START:")) with 6 in *. lia.
    + exfalso. apply (Hnone (py "END:") 5); [left; reflexivity|].
      split; [vm_compute; lia | reflexivity].
Defined.

(** On 03/04/2025 the first three formats fail and the fourth succeeds. *)
Lemma date_formats_in_order_witness :
  try_formats fromisoformat_calendar (py "03/04/2025") DATE_PATTERNS
  = Ok (Some (mk_date 2025 3 4)).
Proof.
  apply (proj1 (proj2 (date_formats_in_order fromisoformat_calendar))
           (py "03/04/2025")
           (map py ["%B %d, %Y"; "%b %d, %Y"; "%Y-%m-%d"]%string)
           (py "%m/%d/%Y") [py "%d/%m/%Y"] (mk_date 2025 3 4)).
  - reflexivity.
  - intros f [<-|[<-|[<-|[]]]]; vm_compute; reflexivity.
  - vm_compute. reflexivity.
Defined.

(** The document resolver under the calendar-only [fromisoformat]. *)
Lemma parse_contract_text_total_witness :
  exists r, parse_contract_text fromisoformat_calendar two_charges = Ok r.
Proof.
  apply (parse_contract_text_total fromisoformat_calendar
           fromisoformat_calendar_raises).
Defined.

(** The end-to-end scenario of the specification. *)
Example end_to_end_scenario :
  exists r,
    parse_contract_text fromisoformat_calendar scenario = Ok r
    /\ customer_name r = Some (py "Jane Doe")
    /\ customer_phone r = Some (py "7806174431")
    /\ customer_address r = Some (py "123 Main St Edmonton, AB")
    /\ device_model r = Some (py "Galaxy S21")
    /\ device_imei r = Some (py "356789012345678")
    /\ contract_start_date r = Some {| d_year := 2025; d_month := 11; d_day := 19 |}
    /\ contract_end_date r = Some {| d_year := 2027; d_month := 11; d_day := 18 |}.
Proof.
  eexists. split; [vm_compute; reflexivity|]. repeat split.
Qed.

(** The slicing example of the specification. *)
Example section_slicing_example :
  _extract_section sliced_text (py "START:") [py "END:"] = py "foo".
Proof. vm_compute. reflexivity. Qed.

(* ================================================================== *)
(** ** More about the normaliser and the space collapser *)

Lemma firstn_run (p : ascii -> bool) (s : str) (n : nat) :
  n <= run_len p s -> forallb p (firstn n s) = true.
Proof.
  revert n. induction s as [|c s IH]; intros n Hn.
  - rewrite firstn_nil. reflexivity.
  - destruct n as [|n]; [reflexivity|]. cbn [run_len] in Hn.
    destruct (p c) eqn:E; [|lia]. cbn [firstn forallb]. rewrite E.
    apply IH. lia.
Qed.

Lemma filter_none (p q : ascii -> bool) (s : str) :
  (forall c, p c = true -> q c = false) ->
  forallb p s = true -> filter q s = [].
Proof.
  intros H. induction s as [|c s IH]; simpl; [reflexivity|].
  intros Hs. apply andb_prop in Hs. destruct Hs as [Hc Hs].
  rewrite (H c Hc). apply IH, Hs.
Qed.

(** A substitution whose matches and replacement are dropped by a filter
    does not change what the filter keeps. *)
Lemma sub_filter (P q : ascii -> bool) (lo : nat) (hi : option nat) (r : ascii)
  (s : str) (out : list piece) :
  (forall c, P c = true -> q c = false) -> q r = false ->
  Scan P lo hi s out -> filter q (pieces_sub [r] out) = filter q s.
Proof.
  intros HP Hr.
  induction 1 as [|c s out _ _ IH|s n out Hn _ _ IH].
  - reflexivity.
  - cbn [pieces_sub flat_map app filter]. unfold pieces_sub in IH. rewrite IH.
    reflexivity.
  - cbn [pieces_sub flat_map app filter]. rewrite Hr.
    unfold pieces_sub in IH. rewrite IH.
    rewrite <- (firstn_skipn n s) at 2. rewrite filter_app.
    rewrite (filter_none P q (firstn n s) HP); [reflexivity|].
    apply firstn_run. rewrite Hn. apply cap_len_le.
Qed.

Lemma strip_with_filter (p q : ascii -> bool) (s : str) :
  (forall c, p c = true -> q c = false) ->
  filter q (strip_with p s) = filter q s.
Proof.
  intros H. unfold strip_with.
  destruct (lstrip_suffix p s) as [pre [H1 H2]].
  destruct (rstrip_prefix p (lstrip_with p s)) as [post [H3 H4]].
  rewrite H1 at 2. rewrite H3 at 2. rewrite !filter_app.
  rewrite (filter_none p q pre H H2), (filter_none p q post H H4).
  rewrite app_nil_r. reflexivity.
Qed.

Lemma blank_is_space (c : ascii) : P_blank c = true -> is_space c = true.
Proof. each_char c. Qed.

Lemma nl_is_space (c : ascii) : P_nl c = true -> is_space c = true.
Proof. each_char c. Qed.

Lemma blank_keep (c : ascii) : P_blank c = true -> negb (is_space c) = false.
Proof. intros H. rewrite (blank_is_space c H). reflexivity. Qed.

Lemma nl_keep (c : ascii) : P_nl c = true -> negb (is_space c) = false.
Proof. intros H. rewrite (nl_is_space c H). reflexivity. Qed.

Lemma replace_cr_filter (s : str) :
  filter (fun c => negb (is_space c)) (replace_char cr (py "\n") s)
  = filter (fun c => negb (is_space c)) s.
Proof.
  induction s as [|c s IH]; [reflexivity|].
  cbn [replace_char flat_map]. rewrite filter_app.
  fold (replace_char cr (py "\n") s). rewrite IH.
  destruct (Ascii.eqb c cr) eqn:E.
  - apply Ascii.eqb_eq in E. subst c. reflexivity.
  - cbn [filter app]. destruct (negb (is_space c)); reflexivity.
Qed.

(** Extra X1.  The normalised text has no carriage return and no tab, no
    two blanks in a row, no two newlines in a row, and no white space at
    either end. *)
Theorem norm_text_shape (s : str) :
  let t := _norm_text s in
  ~ In cr t /\ ~ In tab t
  /\ (forall pre post, t <> pre ++ " "%char :: " "%char :: post)
  /\ (forall pre post, t <> pre ++ newline :: newline :: post)
  /\ strip t = t.
Proof.
  cbv zeta. destruct (norm_text_normal s) as [Hc [Hb [Hn Hs]]].
  split; [|split; [|split; [|split]]].
  - intros Hin. unfold no_cr in Hc. rewrite Forall_forall in Hc.
    apply (Hc cr Hin). reflexivity.
  - intros Hin. apply in_split in Hin. destruct Hin as [pre [post Heq]].
    rewrite Heq in Hb. apply tidy_app_r in Hb. destruct Hb as [Hb _].
    cbn [run_len] in Hb. change (P_blank tab) with true in Hb.
    destruct Hb as [_ Hb]; [lia | discriminate Hb].
  - intros pre post Heq. rewrite Heq in Hb. apply tidy_app_r in Hb.
    destruct Hb as [Hb _]. cbn [run_len] in Hb.
    change (P_blank " ") with true in Hb. destruct Hb as [Hb _]; lia.
  - intros pre post Heq. rewrite Heq in Hn. apply tidy_app_r in Hn.
    destruct Hn as [Hn _]. cbn [run_len] in Hn.
    change (P_nl newline) with true in Hn. destruct Hn as [Hn _]; lia.
  - apply strip_with_id, Hs.
Qed.

(** Normalisation touches white space only. *)
Lemma norm_text_nonspace (s : str) :
  filter (fun c => negb (is_space c)) (_norm_text s)
  = filter (fun c => negb (is_space c)) s.
Proof.
  unfold _norm_text, strip. rewrite !sub_pieces. unfold finditer.
  change (py " ") with [" "%char]. change (py "\n") with [newline].
  rewrite strip_with_filter
    by (intros c Hc; rewrite Hc; reflexivity).
  set (s0 := replace_char cr [newline] s).
  pose proof (scan_segments no_flags blank 1 None (le_n 1) s0 None 0) as HS1.
  set (o1 := map erase (segments no_flags (plus (cls [CChar " "; CChar tab]))
                                 None 0 s0 0)) in *.
  set (s1 := pieces_sub [" "%char] o1).
  pose proof (scan_segments no_flags (chr newline) 2 None (le_S _ _ (le_n 1))
                s1 None 0) as HS2.
  rewrite (sub_filter P_nl _ 2 None newline s1 _ nl_keep eq_refl HS2).
  unfold s1.
  rewrite (sub_filter P_blank _ 1 None " "%char s0 o1 blank_keep eq_refl HS1).
  apply replace_cr_filter.
Qed.

(** Extra X2.  Normalisation touches white space only: the characters
    that are not white space are those of the input, in the same order,
    so a character that is not white space is in the normalised text
    exactly when it is in the input. *)
Theorem norm_text_keeps_content (s : str) :
  filter (fun c => negb (is_space c)) (_norm_text s)
  = filter (fun c => negb (is_space c)) s
  /\ (forall c, is_space c = false -> (In c (_norm_text s) <-> In c s)).
Proof.
  split; [apply norm_text_nonspace|].
  intros c Hc.
  assert (forall t, In c t <-> In c (filter (fun c => negb (is_space c)) t)) as H.
  { intros t. rewrite filter_In, Hc. cbn [negb]. tauto. }
  rewrite (H (_norm_text s)), (H s), norm_text_nonspace. tauto.
Qed.

Lemma space_run_ext (s : str) :
  run_len (atom_ok no_flags a_space) s = run_len is_space s.
Proof. apply run_len_ext, space_class. Qed.

Lemma tidy_ext (p q : ascii -> bool) (lo : nat) (r : ascii) (s : str) :
  (forall c, p c = q c) -> tidy p lo r s -> tidy q lo r s.
Proof.
  intros H. induction s as [|c s IH]; [auto|].
  intros [H1 H2]. split; [|apply IH, H2].
  rewrite <- (run_len_ext p q (c :: s) H). exact H1.
Qed.

(** What the collapser returns is tidy and stripped, and keeps the
    characters that are not white space. *)
Lemma collapse_spaces_facts (s v : str) :
  _collapse_spaces (Some s) = Some v ->
  tidy is_space 1 " " v /\ stripped is_space v
  /\ filter (fun c => negb (is_space c)) v = filter (fun c => negb (is_space c)) s.
Proof.
  unfold _collapse_spaces. destruct s as [|c t]; [discriminate|].
  intros H. injection H as <-. unfold strip.
  rewrite sub_pieces. unfold finditer. change (py " ") with [" "%char].
  pose proof (scan_segments no_flags a_space 1 None (le_n 1) (c :: t) None 0) as HS.
  set (out := map erase _) in *.
  split; [|split].
  - pose proof (sub_is_tidy (atom_ok no_flags a_space) 1 " "%char (le_n 1)
                  (c :: t) out HS eq_refl (le_S _ _ (le_n 1))) as Ht.
    apply (tidy_ext _ is_space) in Ht; [|apply space_class].
    destruct (strip_with_segment is_space (pieces_sub [" "%char] out))
      as [pre [post Hseg]].
    rewrite Hseg in Ht. apply tidy_app_r in Ht.
    apply tidy_app_l in Ht; [exact Ht | lia].
  - apply strip_with_stripped.
  - rewrite strip_with_filter by (intros x Hx; rewrite Hx; reflexivity).
    apply (sub_filter (atom_ok no_flags a_space) _ 1 None " "%char (c :: t) out);
      [|reflexivity | exact HS].
    intros x Hx. rewrite space_class in Hx. rewrite Hx. reflexivity.
Qed.

Lemma all_space_filter (s : str) :
  filter (fun c => negb (is_space c)) s = [] <-> forallb is_space s = true.
Proof.
  induction s as [|c s IH]; simpl; [tauto|].
  destruct (is_space c); simpl; [exact IH|]. split; discriminate.
Qed.

(** Extra X3.  A collapsed value has no white space but single blanks
    between its words: each white-space character in it is a blank, no two
    blanks are adjacent, and neither end is white space. *)
Theorem collapse_spaces_shape (s : option str) (v : str) :
  _collapse_spaces s = Some v ->
  (forall c, In c v -> is_space c = true -> c = " "%char)
  /\ (forall pre post, v <> pre ++ " "%char :: " "%char :: post)
  /\ strip v = v.
Proof.
  destruct s as [s|]; [|discriminate]. intros H.
  destruct (collapse_spaces_facts s v H) as [Ht [Hs _]].
  split; [|split].
  - intros c Hin Hc. apply in_split in Hin. destruct Hin as [pre [post Heq]].
    rewrite Heq in Ht. apply tidy_app_r in Ht. destruct Ht as [Ht _].
    cbn [run_len] in Ht. rewrite Hc in Ht. destruct Ht as [_ Ht]; [lia | exact Ht].
  - intros pre post Heq. rewrite Heq in Ht. apply tidy_app_r in Ht.
    destruct Ht as [Ht _]. cbn [run_len] in Ht.
    change (is_space " ") with true in Ht. destruct Ht as [Ht _]; lia.
  - apply strip_with_id, Hs.
Qed.

(** Extra X4.  The collapser returns absent for an absent or empty
    argument only; for a text that is not empty it returns the empty
    string exactly when the text is all white space. *)
Theorem collapse_spaces_empty (s : option str) :
  (_collapse_spaces s = None <-> s = None \/ s = Some [])
  /\ (forall t, s = Some t -> t <> [] ->
        (_collapse_spaces s = Some [] <-> forallb is_space t = true)).
Proof.
  split.
  - split.
    + destruct s as [[|c t]|]; auto. discriminate.
    + intros [->| ->]; reflexivity.
  - intros t -> Hne.
    destruct (_collapse_spaces (Some t)) as [v|] eqn:E;
      [|destruct t; [congruence | discriminate E]].
    destruct (collapse_spaces_facts t v E) as [_ [[Hs _] Hf]].
    rewrite <- all_space_filter, <- Hf. split.
    + intros Hv. injection Hv as ->. reflexivity.
    + intros Hv. destruct v as [|c v']; [reflexivity|].
      simpl in Hs. cbn [filter] in Hv. rewrite Hs in Hv. discriminate Hv.
Qed.

(* ================================================================== *)
(** ** Clean values, blocks and the head of a split *)

Lemma clean_of_tidy (v : str) :
  v <> [] -> tidy is_space 1 " " v -> stripped is_space v -> clean v.
Proof.
  intros Hne Ht Hs. split; [exact Hne|]. split; [|split].
  - intros c Hin Hc. apply in_split in Hin. destruct Hin as [pre [post Heq]].
    rewrite Heq in Ht. apply tidy_app_r in Ht. destruct Ht as [Ht _].
    cbn [run_len] in Ht. rewrite Hc in Ht. destruct Ht as [_ Ht]; [lia | exact Ht].
  - intros pre post Heq. rewrite Heq in Ht. apply tidy_app_r in Ht.
    destruct Ht as [Ht _]. cbn [run_len] in Ht.
    change (is_space " ") with true in Ht. destruct Ht as [Ht _]; lia.
  - apply strip_with_id, Hs.
Qed.

(** Collapsing a stripped text that is not empty gives a clean value. *)
Lemma collapse_of_stripped (v w : str) :
  v <> [] -> stripped is_space v -> _collapse_spaces (Some v) = Some w ->
  tidy is_space 1 " " w /\ stripped is_space w /\ w <> [].
Proof.
  intros Hne Hs H. destruct (collapse_spaces_facts v w H) as [Ht [Hw Hf]].
  split; [exact Ht|]. split; [exact Hw|].
  destruct (stripped_nonempty_hd v Hs Hne) as [c [t [-> Hc]]].
  intros ->. cbn [filter] in Hf. rewrite Hc in Hf. discriminate Hf.
Qed.

Lemma collapse_some (v : str) : v <> [] -> exists w, _collapse_spaces (Some v) = Some w.
Proof. destruct v; [congruence|]. intros _. eexists. reflexivity. Qed.

(** What label-to-line extraction returns is stripped and not empty. *)
Lemma extract_value_by_label_stripped (text label : str) (max_len : nat) (v : str) :
  1 <= max_len ->
  _extract_value_by_label text label max_len = Ok (Some v) ->
  v <> [] /\ stripped is_space v.
Proof.
  intros Hmax. unfold _extract_value_by_label.
  destruct (first_group_ok
              (seqs (label_colon label ++ [Group 1 (plus (ncls [CChar newline]))]))
              text f_I eq_refl) as [g [-> [_ Hstr]]].
  cbn [bind]. destruct g as [[|c t]|]; try discriminate.
  specialize (Hstr _ eq_refl). intros H. injection H as <-.
  rewrite (strip_with_id is_space (c :: t) Hstr : strip (c :: t) = c :: t).
  destruct (max_len <? length (c :: t)).
  - destruct (stripped_nonempty_hd _ Hstr) as [c0 [t0 [Heq Hc0]]]; [discriminate|].
    injection Heq as <- <-. destruct max_len as [|n]; [lia|]. cbn [firstn].
    split; [apply strip_with_nonempty; exact Hc0 | apply strip_with_stripped].
  - split; [discriminate | exact Hstr].
Qed.

Lemma lit_prefix_ic (fl : flags) (l s : str) :
  IGNORECASE fl = true -> lit_prefix fl l s = lit_prefix f_I l s.
Proof.
  intros H. revert s. induction l as [|p l IH]; intros s; [reflexivity|].
  destruct s as [|c s]; [reflexivity|]. cbn [lit_prefix]. rewrite IH.
  unfold chr_eq. rewrite H. reflexivity.
Qed.

(** Without the label and its colon, a pattern that starts with them
    matches nowhere, whatever the other flags. *)
Lemma search_from_label_none_ic (fl : flags) (label : str) (R : regex) :
  IGNORECASE fl = true ->
  forall s p i,
    (forall j, j <= length s ->
       ~ (lit_prefix f_I label (skipn j s) = true /\
          exists t, lstrip_with is_space (skipn (length label) (skipn j s))
                    = ":"%char :: t)) ->
    search_from fl (Seq (Lit label) (Seq (star a_space) (Seq (Lit (py ":")) R)))
                p i s = None.
Proof.
  intros Hic.
  assert (forall must p i s,
            ~ (lit_prefix f_I label s = true /\
               exists t, lstrip_with is_space (skipn (length label) s)
                         = ":"%char :: t) ->
            match_here fl (Seq (Lit label)
                             (Seq (star a_space) (Seq (Lit (py ":")) R)))
                       must p i s = None) as Hhere.
  { intros must p i s Hno. unfold match_here. cbn [rx rest star].
    rewrite lit_prefix_ic by exact Hic.
    destruct (lit_prefix f_I label s) eqn:E; [|reflexivity].
    cbn [cap_len adv rest]. rewrite Nat.sub_0_r.
    rewrite try_down_none; [reflexivity|].
    intros j Hj. cbn [rest].
    rewrite (run_len_ext _ is_space _ (space_class fl)) in Hj.
    rewrite lit_prefix_ic by exact Hic.
    rewrite colon_after_blanks; [reflexivity | lia |].
    intros t Ht. apply Hno. split; [reflexivity|]. exists t. exact Ht. }
  induction s as [|c s IH]; intros p i Hno; cbn [search_from].
  - rewrite Hhere; [reflexivity|]. apply (Hno 0). simpl. lia.
  - rewrite Hhere; [|apply (Hno 0); simpl; lia].
    apply IH. intros j Hj. apply (Hno (S j)). simpl. lia.
Qed.

Lemma search_label_none_ic (fl : flags) (Hic : IGNORECASE fl = true)
  (label text : str) (R : regex) :
  (forall j, ~ label_colon_at label text j) ->
  Re.search fl (Seq (Lit label) (Seq (star a_space) (Seq (Lit (py ":")) R))) text
  = None.
Proof.
  intros Hno. apply search_from_label_none_ic; [exact Hic|].
  intros j Hj [H1 [t H2]].
  apply (Hno j). split; [exact Hj|]. split; [exact H1|]. exists t.
  rewrite skipn_skipn in H2. rewrite Nat.add_comm. exact H2.
Qed.

(** What the block extractor returns is a clean value. *)
Lemma block_after_label_clean (text label : str) (stop_labels : list str) (v : str) :
  _extract_block_after_label text label stop_labels = Ok (Some v) -> clean v.
Proof.
  unfold _extract_block_after_label.
  match goal with
  | |- context [_first_group ?pat text f_IS] =>
      destruct (first_group_ok pat text f_IS eq_refl) as [g [Hg [_ Hstr]]]; rewrite Hg
  end.
  cbn [bind]. intros H. destruct g as [[|c t]|]; try discriminate.
  cbn [truthy] in H. injection H as H.
  destruct (collapse_of_stripped (c :: t) v) as [Ht [Hs Hne]];
    [discriminate | apply Hstr; reflexivity | rewrite <- H; reflexivity |].
  apply clean_of_tidy; assumption.
Qed.

(** Without the label and its colon there is no block. *)
Lemma block_after_label_absent (text label : str) (stop_labels : list str) :
  (forall j, ~ label_colon_at label text j) ->
  _extract_block_after_label text label stop_labels = Ok None.
Proof.
  unfold _extract_block_after_label.
  match goal with
  | |- context [_first_group ?pat text f_IS] =>
      destruct (first_group_ok pat text f_IS eq_refl) as [g [Hg [Hnone _]]]; rewrite Hg
  end.
  cbn [bind]. intros Hno. rewrite Hnone; [reflexivity|].
  apply (search_label_none_ic f_IS eq_refl label text _ Hno).
Qed.

(** Extra X5.  What the block extractor returns is never empty and has
    no white space but single blanks between its words, also when the
    block spans several lines; without the label followed by a colon
    there is no block. *)
Theorem extract_block_after_label_shape (text label : str) (stop_labels : list str) :
  (forall v, _extract_block_after_label text label stop_labels = Ok (Some v) -> clean v)
  /\ ((forall j, ~ label_colon_at label text j) ->
      _extract_block_after_label text label stop_labels = Ok None).
Proof.
  split; [intros v; apply block_after_label_clean | apply block_after_label_absent].
Qed.

(** *** The head of a split *)

Lemma match_here_start (fl : flags) (r : regex) (must : bool) (p : option ascii)
  (i : nat) (s : str) (m : rmatch) :
  match_here fl r must p i s = Some m -> m_start m = i.
Proof.
  unfold match_here. destruct (rx fl r _ _); [|discriminate].
  intros H. injection H as <-. reflexivity.
Qed.

Lemma search_from_start (fl : flags) (r : regex) :
  forall s p i m, search_from fl r p i s = Some m -> i <= m_start m.
Proof.
  induction s as [|c s IH]; intros p i m H; cbn [search_from] in H.
  - destruct (match_here fl r false p i []) eqn:E; [|discriminate].
    injection H as <-. rewrite (match_here_start _ _ _ _ _ _ _ E). lia.
  - destruct (match_here fl r false p i (c :: s)) eqn:E.
    + injection H as <-. rewrite (match_here_start _ _ _ _ _ _ _ E). lia.
    + apply IH in H. lia.
Qed.

(** The characters before the first match of the scan are those before
    the match [search] finds. *)
Lemma leading_txt_search (fl : flags) (r : regex) :
  forall s p i,
    leading_txt (segments fl r p i s 0) =
    match search_from fl r p i s with
    | Some m => firstn (m_start m - i) s
    | None => s
    end.
Proof.
  induction s as [|c s IH]; intros p i; cbn [segments search_from].
  - destruct (match_here fl r false p i []) as [m|] eqn:E; [|reflexivity].
    destruct (m_end m =? i); cbn [leading_txt]; symmetry; apply firstn_nil.
  - destruct (match_here fl r false p i (c :: s)) as [m|] eqn:E.
    + rewrite (match_here_start _ _ _ _ _ _ _ E), Nat.sub_diag.
      destruct (m_end m =? i); cbn [leading_txt firstn]; reflexivity.
    + cbn [leading_txt]. rewrite IH.
      destruct (search_from fl r (Some c) (S i) s) as [m|] eqn:Es; [|reflexivity].
      apply search_from_start in Es.
      replace (m_start m - i) with (S (m_start m - S i)) by lia. reflexivity.
Qed.

Lemma split_segs_leading (s : str) (g : option nat) (sgs : list seg) :
  forall acc, exists rest,
    split_segs s g acc sgs = Some (rev acc ++ leading_txt sgs) :: rest.
Proof.
  induction sgs as [|sg sgs IH]; intros acc; cbn [split_segs leading_txt].
  - rewrite app_nil_r. eauto.
  - destruct sg as [c|m t].
    + destruct (IH (c :: acc)) as [rest ->]. cbn [rev]. rewrite <- app_assoc.
      eauto.
    + rewrite app_nil_r. eauto.
Qed.

(** The head of a split is a stripped prefix of the value. *)
Lemma split_head_strip (fl : flags) (r : regex) (g : option nat) (v : str) :
  exists n, split_head fl r g v = Ok (strip (firstn n v)).
Proof.
  unfold split_head, Re.split, finditer.
  destruct (split_segs_leading v g (segments fl r None 0 v 0) []) as [rest ->].
  cbn [rev app]. rewrite leading_txt_search.
  destruct (search_from fl r None 0 v) as [m|].
  - exists (m_start m - 0). reflexivity.
  - exists (length v). rewrite firstn_all. reflexivity.
Qed.

(** Extra X6.  The head of a split, as the resolvers take it, is the text
    before the first match of the pattern, stripped; when the pattern
    matches nowhere it is the whole value, stripped. *)
Theorem split_head_before_first_match (fl : flags) (r : regex) (g : option nat)
  (v : str) :
  split_head fl r g v =
  Ok (strip match Re.search fl r v with
            | Some m => firstn (m_start m) v
            | None => v
            end).
Proof.
  unfold split_head, Re.split, finditer, Re.search.
  destruct (split_segs_leading v g (segments fl r None 0 v 0) []) as [rest ->].
  cbn [rev app]. rewrite leading_txt_search.
  destruct (search_from fl r None 0 v); [rewrite Nat.sub_0_r|]; reflexivity.
Qed.

(* ================================================================== *)
(** ** Digits, phone numbers and amounts *)

(** Extra X7.  The digit filter keeps the digits of its argument, in
    their order, and nothing else; an absent argument gives the empty
    string, and filtering twice changes nothing. *)
Theorem digits_only_spec (s : option str) :
  _digits_only s = filter is_digit (match s with Some t => t | None => [] end)
  /\ _digits_only None = []
  /\ _digits_only (Some (_digits_only s)) = _digits_only s.
Proof.
  assert (forall o, _digits_only o
                    = filter is_digit (match o with Some t => t | None => [] end)) as H.
  { intros [t|]; [apply digits_only_filter | apply (digits_only_filter [])]. }
  split; [apply H|]. split; [reflexivity|].
  rewrite (H (Some _)), (H s). cbv beta iota.
  match goal with |- filter _ (filter _ ?x) = _ => generalize x end. intros l.
  induction l as [|c t IH]; [reflexivity|].
  cbn [filter]. destruct (is_digit c) eqn:E; [|exact IH].
  cbn [filter]. rewrite E, IH. reflexivity.
Qed.

Lemma filter_slice_split (p : ascii -> bool) (s : str) (a b : nat) :
  exists pre post, filter p s = pre ++ filter p (slice s a b) ++ post.
Proof.
  unfold slice.
  exists (filter p (firstn a s)), (filter p (skipn (b - a) (skipn a s))).
  rewrite <- (filter_app p (firstn (b - a) (skipn a s))), firstn_skipn.
  rewrite <- filter_app, firstn_skipn. reflexivity.
Qed.

(** Extra X8.  A phone number the extractor returns is ten digits that
    stand next to each other among the digits of the chunk; a chunk with
    fewer than ten digits gives none. *)
Theorem extract_phone_from_chunk_digits (chunk : str) :
  (forall v, _extract_phone_from_chunk chunk = Ok (Some v) ->
     length v = 10 /\ forallb is_digit v = true /\
     exists pre post, filter is_digit chunk = pre ++ v ++ post)
  /\ (length (filter is_digit chunk) < 10 ->
      _extract_phone_from_chunk chunk = Ok None).
Proof.
  assert (forall v, _extract_phone_from_chunk chunk = Ok (Some v) ->
            length v = 10 /\ forallb is_digit v = true /\
            exists pre post, filter is_digit chunk = pre ++ v ++ post) as Hshape.
  { intros v H. destruct (phone_ten_digits chunk v H) as [Hlen Hdig].
    split; [exact Hlen|]. split; [exact Hdig|].
    unfold _extract_phone_from_chunk in H. destruct chunk as [|c t]; [discriminate|].
    destruct (Re.search _ _ _) as [m|]; [|discriminate].
    destruct (10 <=? _); [|discriminate]. injection H as <-.
    unfold last_n, Re.group.
    destruct (lookup_cap 1 (m_caps m)) as [[a b]|].
    - rewrite digits_only_filter.
      destruct (filter_slice_split is_digit (c :: t) a b) as [pre [post ->]].
      set (d := filter is_digit (slice (c :: t) a b)).
      exists (pre ++ firstn (length d - 10) d), post.
      rewrite <- app_assoc. f_equal. rewrite app_assoc. f_equal.
      symmetry. apply firstn_skipn.
    - rewrite (digits_only_filter [] : _digits_only None = _). cbn [filter length Nat.sub skipn].
      exists [], (filter is_digit (c :: t)). reflexivity. }
  split; [exact Hshape|].
  intros Hlt. destruct (extract_phone_from_chunk_ok chunk) as [[v|] Hv]; [|exact Hv].
  destruct (Hshape v Hv) as [Hlen [_ [pre [post Heq]]]].
  rewrite Heq, !length_app in Hlt. lia.
Qed.

(* ------------------------------------------------------------------ *)
(** *** Amounts *)

Lemma run_len_digit_class (s : str) :
  run_len (atom_ok no_flags a_digit) s = run_len is_digit s.
Proof. apply run_len_ext. exact digit_class. Qed.

Lemma money_match_none (p : option ascii) (i : nat) (u : str) :
  hd_ok is_digit u = true ->
  match_here no_flags amount_pattern false p i u = None.
Proof.
  intros H. unfold match_here, amount_pattern. cbn [rx rest plus]. rewrite run_len_digit_class.
  destruct u as [|c t]; [reflexivity|]. cbn [hd_ok] in H. cbn [run_len].
  destruct (is_digit c); [discriminate | reflexivity].
Qed.

Lemma money_match_some (p : option ascii) (i : nat) (c : ascii) (t : str) :
  is_digit c = true ->
  exists e, e = i + amount_len (c :: t) /\
    match_here no_flags amount_pattern false p i (c :: t)
    = Some {| m_start := i; m_end := e; m_caps := [(1, (i, e))] |}.
Proof.
  intros Hc. unfold match_here, amount_len, amount_pattern.
  set (u := c :: t). set (n := run_len is_digit u).
  assert (1 <= n) as Hn by (unfold n, u; cbn [run_len]; rewrite Hc; lia).
  cbn [rx plus]. cbn [rest]. rewrite run_len_digit_class. fold n. cbn [cap_len].
  replace (n <? 1) with false by (symmetry; apply Nat.ltb_ge; exact Hn).
  match goal with |- context [try_down ?K 1 (n - 1)] => set (K0 := K) end.
  assert (exists st', K0 n = Some st' /\
                      pos st' = i + (n + frac_len (skipn n u)) /\
                      caps st' = [(1, (i, pos st'))]) as [st' [HK [Hp Hcs]]].
  { unfold K0. clear K0. cbn [rest adv pos prev caps andb].
    change (py ".") with ["."%char]. cbn [lit_prefix length].
    unfold chr_eq. cbn [IGNORECASE no_flags].
    destruct (skipn n u) as [|d rest'] eqn:Esk.
    - unfold frac_len. eexists. split; [reflexivity|]. cbn [pos caps set_cap adv].
      split; [lia | reflexivity].
    - unfold frac_len. rewrite (Ascii.eqb_sym d ".").
      destruct (Ascii.eqb "." d); cbn [andb].
      + cbn [skipn]. rewrite run_len_digit_class.
        destruct rest' as [|a rest''].
        * cbn [run_len Nat.min Nat.ltb Nat.leb].
          eexists. split; [reflexivity|]. cbn [pos caps set_cap adv].
          split; [lia | reflexivity].
        * cbn [run_len]. destruct (is_digit a) eqn:Ea.
          -- destruct rest'' as [|b rest3].
             ++ cbn [run_len Nat.min Nat.ltb Nat.leb Nat.sub try_down Nat.add].
                eexists. split; [reflexivity|]. cbn [pos caps set_cap adv].
                split; [lia | reflexivity].
             ++ cbn [run_len]. destruct (is_digit b).
                ** cbn [Nat.min Nat.ltb Nat.leb Nat.sub try_down Nat.add].
                   eexists. split; [reflexivity|]. cbn [pos caps set_cap adv].
                   split; [lia | reflexivity].
                ** cbn [Nat.min Nat.ltb Nat.leb Nat.sub try_down Nat.add].
                   eexists. split; [reflexivity|]. cbn [pos caps set_cap adv].
                   split; [lia | reflexivity].
          -- cbn [Nat.min Nat.ltb Nat.leb].
             eexists. split; [reflexivity|]. cbn [pos caps set_cap adv].
             split; [lia | reflexivity].
      + eexists. split; [reflexivity|]. cbn [pos caps set_cap adv].
        split; [destruct rest'; lia | reflexivity]. }
  exists (pos st'). split; [exact Hp|].
  rewrite (try_down_accept _ K0 1 (n - 1) st');
    [|replace (1 + (n - 1)) with n by lia; exact HK].
  rewrite Hcs. reflexivity.
Qed.

Lemma skipn_lstrip (p : ascii -> bool) (s : str) :
  skipn (length s - length (lstrip_with p s)) s = lstrip_with p s.
Proof.
  induction s as [|c s IH]; [reflexivity|]. cbn [lstrip_with].
  destruct (p c).
  - pose proof (lstrip_length p s).
    replace (length (c :: s) - length (lstrip_with p s))
      with (S (length s - length (lstrip_with p s))) by (cbn [length]; lia).
    exact IH.
  - rewrite Nat.sub_diag. reflexivity.
Qed.

(** Where the amount pattern first matches: at the first digit, over the
    digits and the decimals that follow them. *)
Lemma money_search (s : str) :
  forall p i,
    search_from no_flags amount_pattern p i s =
    match lstrip_with (fun c => negb (is_digit c)) s with
    | [] => None
    | u =>
        let a := i + (length s - length u) in
        Some {| m_start := a; m_end := a + amount_len u;
                m_caps := [(1, (a, a + amount_len u))] |}
    end.
Proof.
  induction s as [|c s IH]; intros p i; cbn [search_from lstrip_with].
  - rewrite money_match_none by reflexivity. reflexivity.
  - destruct (is_digit c) eqn:Ec; cbn [negb].
    + destruct (money_match_some p i c s Ec) as [e [He ->]]. cbv zeta.
      rewrite Nat.sub_diag, Nat.add_0_r, He. reflexivity.
    + rewrite money_match_none by (cbn [hd_ok]; rewrite Ec; reflexivity).
      rewrite IH. pose proof (lstrip_length (fun c => negb (is_digit c)) s) as Hl.
      destruct (lstrip_with (fun c => negb (is_digit c)) s) as [|d u];
        [reflexivity|]. cbv zeta.
      replace (S i + (length s - length (d :: u)))
        with (i + (length (c :: s) - length (d :: u)))
        by (cbn [length] in *; lia).
      reflexivity.
Qed.

Lemma run_len_firstn_more (p : ascii -> bool) (u : str) (f : nat) :
  run_len p (firstn (run_len p u + f) u) = run_len p u.
Proof.
  induction u as [|c u IH]; [destruct f; reflexivity|].
  cbn [run_len]. destruct (p c) eqn:E.
  - cbn [Nat.add firstn run_len]. rewrite E, IH. reflexivity.
  - destruct f; cbn [Nat.add firstn run_len]; [reflexivity|]. rewrite E. reflexivity.
Qed.

(** [float] of the matched amount. *)
Lemma py_float_amount (c : ascii) (t : str) :
  is_digit c = true ->
  py_float (firstn (amount_len (c :: t)) (c :: t))
  = Ok match read_amount (c :: t) with Some f => f | None => 0%N end.
Proof.
  intros Hc. unfold py_float, amount_len, read_amount.
  rewrite (lstrip_id (fun c => negb (is_digit c)) (c :: t))
    by (cbn [hd_ok]; rewrite Hc; reflexivity).
  set (u := c :: t). rewrite run_len_firstn_more.
  set (n := run_len is_digit u).
  assert (1 <= n) as Hn by (unfold n, u; cbn [run_len]; rewrite Hc; lia).
  rewrite firstn_firstn, Nat.min_l by lia.
  pose proof (firstn_skipn_comm (frac_len (skipn n u)) n u) as E.
  clearbody n. destruct n as [|n']; [lia|]. rewrite <- E. clear E.
  unfold frac_len.
  destruct (skipn (S n') u) as [|d [|a rest']].
  - cbn [firstn]. unfold u. rewrite N.add_0_r. reflexivity.
  - cbn [firstn]. unfold u. rewrite N.add_0_r. reflexivity.
  - destruct (Ascii.eqb d ".") eqn:Ed.
    + apply Ascii.eqb_eq in Ed. subst d. destruct (is_digit a) eqn:Ea; cbn [andb].
      * destruct rest' as [|b rest''].
        -- cbn [Nat.add firstn forallb]. rewrite Ea. cbn [andb]. unfold u.
           f_equal. lia.
        -- destruct (is_digit b) eqn:Eb.
           ++ cbn [Nat.add firstn forallb]. rewrite Ea, Eb. cbn [andb]. unfold u.
              f_equal. lia.
           ++ cbn [Nat.add firstn forallb]. rewrite Ea. cbn [andb]. unfold u.
              f_equal. lia.
      * cbn [firstn]. unfold u. rewrite N.add_0_r. reflexivity.
    + cbn [andb firstn]. unfold u. rewrite N.add_0_r. reflexivity.
Qed.

Lemma lstrip_all (p : ascii -> bool) (s : str) :
  lstrip_with p s = [] <-> forallb p s = true.
Proof.
  induction s as [|c s IH]; cbn [lstrip_with forallb]; [tauto|].
  destruct (p c); cbn [andb]; [exact IH|]. split; discriminate.
Qed.

Lemma replace_comma_digits (s : str) :
  forallb (fun c => negb (is_digit c)) (replace_char "," [] s)
  = forallb (fun c => negb (is_digit c)) s.
Proof.
  unfold replace_char. induction s as [|c s IH]; [reflexivity|].
  cbn [flat_map forallb]. destruct (Ascii.eqb c ",") eqn:E.
  - apply Ascii.eqb_eq in E. subst c. cbn [app]. exact IH.
  - cbn [app forallb]. rewrite IH. reflexivity.
Qed.

Lemma read_amount_none (t : str) :
  read_amount t = None <-> lstrip_with (fun c => negb (is_digit c)) t = [].
Proof.
  unfold read_amount. destruct (lstrip_with _ t); split; congruence.
Qed.

(** Extra X9.  The amount parser drops the commas and reads the first
    amount the text shows: the first run of digits as the whole part and,
    when a point and digits follow it, one or two of them as hundredths.
    It never raises, and gives no amount exactly when its argument is
    absent or has no digit. *)
Theorem money_to_float_reads (s : str) :
  _money_to_float (Some s) = Ok (read_amount (replace_char "," [] s))
  /\ (_money_to_float (Some s) = Ok None <->
      forallb (fun c => negb (is_digit c)) s = true)
  /\ _money_to_float None = Ok None.
Proof.
  assert (_money_to_float (Some s) = Ok (read_amount (replace_char "," [] s)))
    as Hmain.
  { destruct s as [|c0 t0]; [reflexivity|].
    unfold _money_to_float. cbv zeta.
    set (s' := replace_char "," [] (c0 :: t0)).
    change (Group 1 _) with amount_pattern.
    unfold Re.search. rewrite money_search.
    pose proof (lstrip_hd_ok (fun c => negb (is_digit c)) s') as Hhd.
    pose proof (skipn_lstrip (fun c => negb (is_digit c)) s') as Hsk.
    assert (read_amount s'
            = read_amount (lstrip_with (fun c => negb (is_digit c)) s')) as Hr.
    { unfold read_amount. rewrite (lstrip_id _ (lstrip_with _ s'));
        [reflexivity | apply lstrip_hd_ok]. }
    rewrite Hr.
    destruct (lstrip_with (fun c => negb (is_digit c)) s') as [|d u].
    - reflexivity.
    - cbn [hd_ok] in Hhd. apply negb_true_iff, negb_false_iff in Hhd.
      cbv zeta. unfold Re.group. cbn [m_caps lookup_cap Nat.eqb Nat.add].
      unfold slice. rewrite Hsk.
      replace (length s' - length (d :: u) + amount_len (d :: u)
               - (length s' - length (d :: u)))
        with (amount_len (d :: u)) by lia.
      rewrite py_float_amount by exact Hhd. cbn [bind except_ValueError].
      destruct (read_amount (d :: u)) eqn:E; [reflexivity|].
      apply read_amount_none in E. cbn [lstrip_with] in E. rewrite Hhd in E.
      discriminate E. }
  split; [exact Hmain|]. split; [|reflexivity].
  rewrite Hmain, <- replace_comma_digits, <- lstrip_all, <- read_amount_none.
  split; [intros H; injection H as H; exact H | intros ->; reflexivity].
Qed.

(* ================================================================== *)
(** ** Texts without a colon *)

Lemma colon_chr (fl : flags) (c : ascii) : chr_eq fl ":" c = true -> c = ":"%char.
Proof.
  unfold chr_eq. destruct (IGNORECASE fl).
  - apply colon_eq.
  - intros H. apply Ascii.eqb_eq in H. symmetry. exact H.
Qed.

Lemma lit_prefix_needs (fl : flags) (l : str) :
  existsb (Ascii.eqb ":") l = true ->
  forall s, ~ In ":"%char s -> lit_prefix fl l s = false.
Proof.
  induction l as [|p l IH]; cbn [existsb]; [discriminate|].
  intros H [|c s] Hs; [reflexivity|]. cbn [lit_prefix].
  apply orb_prop in H. destruct H as [H|H].
  - apply Ascii.eqb_eq in H. subst p.
    destruct (chr_eq fl ":" c) eqn:E; [|reflexivity].
    apply colon_chr in E. subst c. exfalso. apply Hs. left. reflexivity.
  - rewrite (IH H s); [apply andb_false_r|].
    intros Hin. apply Hs. right. exact Hin.
Qed.

Lemma skipn_no_colon (j : nat) (s : str) :
  ~ In ":"%char s -> ~ In ":"%char (skipn j s).
Proof.
  intros H Hin. apply H. rewrite <- (firstn_skipn j s).
  apply in_or_app. right. exact Hin.
Qed.

(** On a text without a colon the matcher never reaches a continuation
    that fails on such texts. *)
Lemma rx_no_colon_k (fl : flags) (r : regex) :
  forall st k,
    ~ In ":"%char (rest st) ->
    (forall st', ~ In ":"%char (rest st') -> k st' = None) ->
    rx fl r st k = None.
Proof.
  induction r as [|l|a|a lo hi g|r1 IH1 r2 IH2|r1 IH1 r2 IH2|n r1 IH1|r1 IH1| | | |];
    intros st k Hst Hk; cbn [rx].
  - apply Hk, Hst.
  - destruct (lit_prefix fl l (rest st)); [|reflexivity].
    apply Hk. cbn [adv rest]. apply skipn_no_colon, Hst.
  - destruct (rest st) as [|c t] eqn:E; [reflexivity|].
    destruct (atom_ok fl a c); [|reflexivity].
    apply Hk. cbn [adv rest]. apply skipn_no_colon. rewrite E. exact Hst.
  - destruct (_ <? lo); [reflexivity|]. destruct g.
    + apply try_down_none. intros j _. apply Hk. cbn [adv rest].
      apply skipn_no_colon, Hst.
    + apply try_up_none. intros j _. apply Hk. cbn [adv rest].
      apply skipn_no_colon, Hst.
  - apply IH1; [exact Hst|]. intros st' Hst'. apply IH2; assumption.
  - rewrite IH1 by assumption. apply IH2; assumption.
  - apply IH1; [exact Hst|]. intros st' Hst'. apply Hk. exact Hst'.
  - rewrite (Hk st Hst). destruct (rx fl r1 st _); reflexivity.
  - rewrite (Hk st Hst). destruct (pos st =? 0); reflexivity.
  - rewrite (Hk st Hst). destruct (rest st) as [|c [|c' t]]; try reflexivity.
    destruct (Ascii.eqb c newline); reflexivity.
  - rewrite (Hk st Hst). destruct (rest st); reflexivity.
  - rewrite (Hk st Hst). destruct (xorb _ _); reflexivity.
Qed.

Lemma rx_needs_colon (fl : flags) (r : regex) :
  needs_colon r = true ->
  forall st k, ~ In ":"%char (rest st) -> rx fl r st k = None.
Proof.
  induction r as [|l|a|a lo hi g|r1 IH1 r2 IH2|r1 IH1 r2 IH2|n r1 IH1|r1 IH1| | | |];
    cbn [needs_colon]; try discriminate; intros H st k Hst; cbn [rx].
  - rewrite (lit_prefix_needs fl l H _ Hst). reflexivity.
  - apply orb_prop in H. destruct H as [H|H].
    + apply IH1; assumption.
    + apply rx_no_colon_k; [exact Hst|]. intros st' Hst'. apply IH2; assumption.
  - apply andb_prop in H. destruct H as [H1 H2].
    rewrite IH1 by assumption. apply IH2; assumption.
  - apply IH1; assumption.
Qed.

(** A pattern that needs a colon matches nowhere in a text without one. *)
Lemma search_needs_colon (fl : flags) (r : regex) (s : str) :
  needs_colon r = true -> ~ In ":"%char s -> Re.search fl r s = None.
Proof.
  intros Hr. unfold Re.search. generalize (@None ascii) 0.
  induction s as [|c s IH]; intros p i Hs; cbn [search_from].
  - unfold match_here. rewrite rx_needs_colon; [reflexivity | exact Hr | exact Hs].
  - unfold match_here. rewrite rx_needs_colon; [| exact Hr | exact Hs].
    apply IH. intros Hin. apply Hs. right. exact Hin.
Qed.

Lemma first_group_no_colon (r : regex) (text : str) (fl : flags) :
  needs_colon r = true -> ~ In ":"%char text -> _first_group r text fl = Ok None.
Proof.
  intros Hr Hs. unfold _first_group. rewrite search_needs_colon by assumption.
  reflexivity.
Qed.

Lemma needs_colon_label (label : str) (R : list regex) :
  needs_colon (seqs (label_colon label ++ R)) = true.
Proof.
  cbn [label_colon app seqs fold_right needs_colon].
  rewrite orb_true_iff. right. reflexivity.
Qed.

Lemma extract_value_by_label_no_colon (text label : str) (max_len : nat) :
  ~ In ":"%char text -> _extract_value_by_label text label max_len = Ok None.
Proof.
  intros H. unfold _extract_value_by_label.
  rewrite first_group_no_colon; [reflexivity | apply needs_colon_label | exact H].
Qed.

Lemma extract_block_no_colon (text label : str) (stops : list str) :
  ~ In ":"%char text -> _extract_block_after_label text label stops = Ok None.
Proof.
  intros H. unfold _extract_block_after_label.
  rewrite first_group_no_colon; [reflexivity | apply needs_colon_label | exact H].
Qed.

Lemma pick_customer_name_no_colon (text : str) :
  ~ In ":"%char text -> _pick_customer_name text = Ok None.
Proof.
  intros H. unfold _pick_customer_name.
  induction (map py ["Customer Name"; "Company Name"; "Customer ID";
                     "Account Number"]%string) as [|l ls IH]; [reflexivity|].
  cbn [_pick_customer_name_loop].
  rewrite extract_value_by_label_no_colon by exact H. exact IH.
Qed.

Lemma extract_section_no_colon (text marker : str) (ends : list str) :
  existsb (Ascii.eqb ":") marker = true -> ~ In ":"%char text ->
  _extract_section text marker ends = [].
Proof.
  intros Hm H. unfold _extract_section.
  rewrite (search_needs_colon f_I (Lit marker) text Hm H). reflexivity.
Qed.

Section NoColon.

Variable fromisoformat : str -> result datetime.

Lemma extract_labeled_date_no_colon (text label : str) :
  ~ In ":"%char text -> _extract_labeled_date fromisoformat text label = Ok None.
Proof.
  intros H. unfold _extract_labeled_date.
  rewrite first_group_no_colon; [reflexivity | apply needs_colon_label | exact H].
Qed.

Lemma pick_plan_no_colon (text : str) :
  ~ In ":"%char text ->
  _pick_plan_name_and_charge text text
  = Ok (_plan_name_fallback None (fallback_lines text), None).
Proof.
  intros H. unfold _pick_plan_name_and_charge.
  rewrite !extract_value_by_label_no_colon by exact H. reflexivity.
Qed.

End NoColon.

(* ================================================================== *)
(** ** What a record can hold *)

Ltac unbind H v E :=
  apply bind_ok_inv in H; destruct H as [v [E H]]; cbv beta in H.

Lemma ok_pair_inv {A B : Type} (a a' : A) (b b' : B) :
  Ok (a, b) = Ok (a', b') -> a = a' /\ b = b'.
Proof. intros H. injection H as -> ->. split; reflexivity. Qed.

(** The head of a split of a tidy value is tidy and stripped. *)
Lemma split_head_tidy (fl : flags) (r : regex) (g : option nat) (w v : str) :
  tidy is_space 1 " " w -> split_head fl r g w = Ok v ->
  tidy is_space 1 " " v /\ stripped is_space v.
Proof.
  intros Hw H. destruct (split_head_strip fl r g w) as [n Hn].
  rewrite Hn in H. injection H as <-. split; [|apply strip_with_stripped].
  destruct (strip_with_segment is_space (firstn n w)) as [pre [post Heq]].
  rewrite <- (firstn_skipn n w) in Hw.
  apply tidy_app_l in Hw; [|lia]. rewrite Heq in Hw.
  apply tidy_app_r in Hw. apply tidy_app_l in Hw; [|lia]. exact Hw.
Qed.

(** Collapsing the head of a split gives a clean value. *)
Lemma split_collapse_clean (fl : flags) (r : regex) (g : option nat) (x v w : str) :
  split_head fl r g x = Ok v -> _collapse_spaces (Some v) = Some w -> clean w.
Proof.
  intros H Hc. destruct (split_head_strip fl r g x) as [n Hn].
  rewrite Hn in H. injection H as <-.
  destruct (strip (firstn n x)) as [|c t] eqn:E; [discriminate Hc|].
  destruct (collapse_of_stripped (c :: t) w) as [Ht [Hs Hne]];
    [discriminate | rewrite <- E; apply strip_with_stripped | exact Hc |].
  apply clean_of_tidy; assumption.
Qed.

Lemma pick_customer_name_clean (info_section v : str) :
  _pick_customer_name info_section = Ok (Some v) -> clean v.
Proof.
  unfold _pick_customer_name.
  induction (map py ["Customer Name"; "Company Name"; "Customer ID";
                     "Account Number"]%string) as [|l ls IH];
    cbn [_pick_customer_name_loop]; [discriminate|].
  intros H. unbind H v0 E0.
  destruct (_collapse_spaces v0) as [[|c t]|] eqn:Ec; [exact (IH H) | | exact (IH H)].
  unbind H v1 E1. destruct v1 as [|a v1]; [exact (IH H)|].
  injection H as <-.
  destruct v0 as [s0|]; [|discriminate Ec].
  destruct (collapse_spaces_facts s0 (c :: t) Ec) as [Ht _].
  destruct (split_head_tidy _ _ _ _ _ Ht E1) as [Hv Hs].
  apply clean_of_tidy; [discriminate | exact Hv | exact Hs].
Qed.

Lemma plan_name_fallback_shape (lines : list str) (v : str) :
  _plan_name_fallback None lines = Some v -> v = [] \/ clean v.
Proof.
  induction lines as [|ln lines IH]; cbn [_plan_name_fallback]; [discriminate|].
  destruct (Re.search f_I _ ln); [exact IH|].
  destruct (Re.search f_I _ ln); [exact IH|].
  intros H. destruct ln as [|c t]; [discriminate H|].
  destruct (collapse_spaces_facts (c :: t) v H) as [Ht [Hs _]].
  destruct v as [|a v]; [left; reflexivity|].
  right. apply clean_of_tidy; [discriminate | exact Ht | exact Hs].
Qed.

(** A plan name is empty or clean. *)
Lemma pick_plan_name_shape (rate_section full_text : str) (pn : option str)
  (pc : option pyfloat) (v : str) :
  _pick_plan_name_and_charge rate_section full_text = Ok (pn, pc) ->
  pn = Some v -> v = [] \/ clean v.
Proof.
  unfold _pick_plan_name_and_charge. intros H Hpn.
  unbind H plan_line E1. unbind H pr E2. destruct pr as [pn0 pc0].
  cbv zeta in H. apply ok_pair_inv in H. destruct H as [H _].
  fold (fallback_lines rate_section) in H.
  assert (pn0 = None \/ exists w, pn0 = Some w /\ clean w) as Hshape.
  { destruct plan_line as [[|c t]|];
      [injection E2 as <- _; left; reflexivity | |
       injection E2 as <- _; left; reflexivity].
    unbind E2 x1 F1. unbind E2 x2 F2. unbind E2 x3 F3. unbind E2 x4 F4.
    apply ok_pair_inv in E2. destruct E2 as [<- _].
    destruct (_collapse_spaces (Some x4)) as [w|] eqn:Ec; [|left; reflexivity].
    right. exists w. split; [reflexivity|].
    apply (split_collapse_clean _ _ _ _ _ _ F4 Ec). }
  destruct Hshape as [->|[w [-> Hw]]].
  - cbn [truthy] in H. rewrite Hpn in H. apply (plan_name_fallback_shape _ _ H).
  - assert (truthy (Some w) = true) as Ht
      by (destruct w; [destruct Hw as [Hne _]; congruence | reflexivity]).
    rewrite Ht in H. rewrite Hpn in H. injection H as <-. right. exact Hw.
Qed.

(** The value the digit-run extractor computes. *)
Lemma digit_run_value (chunk : option str) (lo hi : nat) :
  lo <= hi ->
  _extract_long_digit_run chunk lo hi =
    Ok (if truthy chunk && (lo <=? length (_digits_only chunk))
        then Some (firstn (Nat.min hi (length (_digits_only chunk)))
                          (_digits_only chunk))
        else None).
Proof.
  intros Hlh. set (d := _digits_only chunk).
  destruct chunk as [[|c t]|]; [reflexivity | | reflexivity].
  unfold _extract_long_digit_run. fold d. cbn [well_formed truthy andb].
  replace (lo <=? hi) with true by (symmetry; apply Nat.leb_le; exact Hlh).
  cbn [negb]. rewrite findall_pieces. unfold finditer.
  pose proof (forallb_digit_class d (digits_only_digits _)) as Hall.
  destruct lo as [|lo'].
  - pose proof (scan0_segments no_flags a_digit (Some hi) d None 0) as HS.
    destruct (scan0_first _ hi d _ HS Hall) as [rest [-> Hrest]].
    cbn [Nat.leb]. rewrite max_by_len_first; [reflexivity|].
    eapply Forall_impl; [|exact Hrest]. cbn. intros t0 Ht.
    rewrite length_firstn. lia.
  - pose proof (scan_segments no_flags a_digit (S lo') (Some hi)
                  ltac:(lia) d None 0) as HS.
    destruct (S lo' <=? length d) eqn:E.
    + apply Nat.leb_le in E.
      destruct (scan_long _ (S lo') hi ltac:(lia) d _ HS Hall Hlh E)
        as [rest [-> Hrest]].
      rewrite max_by_len_first; [reflexivity|].
      eapply Forall_impl; [|exact Hrest]. cbn. intros t0 Ht.
      rewrite length_firstn. lia.
    + apply Nat.leb_gt in E.
      rewrite (scan_short _ (S lo') hi ltac:(lia) d _ HS E). reflexivity.
Qed.

(** A digit run that is returned is made of digits, within the bounds. *)
Lemma digit_run_shape (chunk : option str) (lo hi : nat) (v : str) :
  lo <= hi -> _extract_long_digit_run chunk lo hi = Ok (Some v) ->
  lo <= length v <= hi /\ forallb is_digit v = true.
Proof.
  intros Hlh H. rewrite (digit_run_value chunk lo hi Hlh) in H.
  destruct (truthy chunk && (lo <=? length (_digits_only chunk))) eqn:E;
    [|discriminate].
  apply andb_prop in E. destruct E as [_ E]. apply Nat.leb_le in E.
  injection H as <-. split; [rewrite length_firstn; lia|].
  apply forallb_forall. intros x Hx.
  pose proof (digits_only_digits chunk) as Hd. rewrite forallb_forall in Hd.
  apply Hd. rewrite <- (firstn_skipn (Nat.min hi (length (_digits_only chunk)))).
  apply in_or_app. left. exact Hx.
Qed.

Section Record.

Variable fromisoformat : str -> result datetime.

(** Extra X11.  Whatever the text, the fields of the record it gives are
    well formed: a name, address, order number, activity or device model
    that is set is not empty and has single blanks as its only white
    space; a plan name that is set is such a value or the empty string;
    the phone number is ten digits, the IMEI ten to twenty digits and the
    SIM number eighteen to twenty-two digits; the down payment, the serial
    number and the add-ons are never set. *)
Theorem record_well_formed (full_text : str) (r : ContractExtraction) :
  parse_contract_text fromisoformat full_text = Ok r ->
  (forall v, customer_name r = Some v -> clean v)
  /\ (forall v, customer_phone r = Some v ->
        length v = 10 /\ forallb is_digit v = true)
  /\ (forall v, customer_address r = Some v -> clean v)
  /\ (forall v, plan_name r = Some v -> v = [] \/ clean v)
  /\ (forall v, order_number r = Some v -> clean v)
  /\ (forall v, activity r = Some v -> clean v)
  /\ (forall v, device_model r = Some v -> clean v)
  /\ (forall v, device_imei r = Some v ->
        10 <= length v <= 20 /\ forallb is_digit v = true)
  /\ (forall v, sim_number r = Some v ->
        18 <= length v <= 22 /\ forallb is_digit v = true)
  /\ down_payment r = None /\ serial_number r = None /\ add_ons r = [].
Proof.
  intros H. unfold parse_contract_text in H. cbv zeta in H.
  unbind H v1 E1. unbind H v2 E2. unbind H v3 E3. unbind H v4 E4.
  unbind H v5 E5. unbind H v6 E6. unbind H v7 E7. unbind H v8 E8.
  unbind H v9 E9. unbind H v10 E10. unbind H v11 E11.
  destruct v11 as [pn pc].
  unbind H v12 E12. unbind H v13 E13. unbind H v14 E14. unbind H v15 E15.
  unbind H v16 E16. unbind H v17 E17. unbind H v18 E18. unbind H v19 E19.
  unbind H v20 E20.
  rewrite init_of_fields in H. injection H as <-.
  cbn [customer_name customer_phone customer_address plan_name order_number
       activity device_model device_imei sim_number down_payment
       serial_number add_ons].
  assert (forall fl rg g (a b : option str) w,
            match a with
            | Some (c :: t) => v <- split_head fl rg g (c :: t) ;; Ok (Some v)
            | other => Ok other
            end = Ok b ->
            _collapse_spaces b = Some w -> clean w) as Hcut.
  { intros fl rg g a b w Ha Hb. destruct a as [[|c t]|].
    - injection Ha as <-. discriminate Hb.
    - unbind Ha x F. injection Ha as <-.
      apply (split_collapse_clean _ _ _ _ _ _ F Hb).
    - injection Ha as <-. discriminate Hb. }
  split; [intros v ->; apply (pick_customer_name_clean _ _ E1)|].
  split.
  { intros v ->. destruct v2 as [[|c t]|]; try discriminate E3.
    apply (phone_ten_digits _ _ E3). }
  split; [intros v ->; apply (block_after_label_clean _ _ _ _ E4)|].
  split; [intros v Hv; apply (pick_plan_name_shape _ _ _ _ _ E11 Hv)|].
  split; [intros v Hv; apply (Hcut _ _ _ _ _ _ E6 Hv)|].
  split; [intros v Hv; apply (Hcut _ _ _ _ _ _ E8 Hv)|].
  split; [intros v Hv; apply (Hcut _ _ _ _ _ _ E16 Hv)|].
  split; [intros v ->; apply (digit_run_shape _ 10 20 _ ltac:(lia) E18)|].
  split; [intros v ->; apply (digit_run_shape _ 18 22 _ ltac:(lia) E20)|].
  split; [reflexivity|]. split; reflexivity.
Qed.

End Record.

(* ================================================================== *)
(** ** Values and the text they come from *)

Lemma piece_of_refl (s : str) : piece_of s s.
Proof. exists [], []. rewrite app_nil_r. reflexivity. Qed.

Lemma piece_of_trans (a b c : str) : piece_of a b -> piece_of b c -> piece_of a c.
Proof.
  intros [p1 [q1 ->]] [p2 [q2 ->]]. exists (p2 ++ p1), (q1 ++ q2).
  rewrite <- !app_assoc. reflexivity.
Qed.

Lemma piece_of_strip (s : str) : piece_of (strip s) s.
Proof. apply strip_with_segment. Qed.

Lemma piece_of_firstn (n : nat) (s : str) : piece_of (firstn n s) s.
Proof. exists [], (skipn n s). symmetry. apply firstn_skipn. Qed.

Lemma piece_of_skipn (n : nat) (s : str) : piece_of (skipn n s) s.
Proof.
  exists (firstn n s), []. rewrite app_nil_r. symmetry. apply firstn_skipn.
Qed.

Lemma piece_of_slice (s : str) (a b : nat) : piece_of (slice s a b) s.
Proof.
  unfold slice. eapply piece_of_trans; [apply piece_of_firstn | apply piece_of_skipn].
Qed.

Lemma piece_of_in (v s : str) (c : ascii) : piece_of v s -> In c v -> In c s.
Proof.
  intros [pre [post ->]] H. apply in_or_app. right. apply in_or_app. left. exact H.
Qed.

Lemma in_step_adv (text : str) (st : mstate) (j : nat) :
  in_step text st -> in_step text (adv st j).
Proof.
  unfold in_step. cbn [adv rest pos]. intros ->. rewrite skipn_skipn.
  f_equal. apply Nat.add_comm.
Qed.

(** A match goes through its continuation in a state in step with the
    text. *)
Lemma rx_reach (fl : flags) (text : str) (r : regex) :
  forall st k res,
    in_step text st -> rx fl r st k = Some res ->
    exists st', in_step text st' /\ k st' = Some res.
Proof.
  induction r as [|l|a|a lo hi g|r1 IH1 r2 IH2|r1 IH1 r2 IH2|n r1 IH1|r1 IH1| | | |];
    intros st k res Hst H; cbn [rx] in H.
  - eauto.
  - destruct (lit_prefix fl l (rest st)); [|discriminate].
    eexists. split; [apply in_step_adv, Hst | exact H].
  - destruct (rest st) as [|c t]; [discriminate|].
    destruct (atom_ok fl a c); [|discriminate].
    eexists. split; [apply in_step_adv, Hst | exact H].
  - destruct (_ <? lo); [discriminate|]. destruct g.
    + apply try_down_some in H. destruct H as [j [_ H]].
      eexists. split; [apply in_step_adv, Hst | exact H].
    + apply try_up_some in H. destruct H as [j [_ H]].
      eexists. split; [apply in_step_adv, Hst | exact H].
  - destruct (IH1 _ _ _ Hst H) as [st1 [H1 H']]. apply (IH2 _ _ _ H1 H').
  - destruct (rx fl r1 st k) eqn:E.
    + injection H as <-. apply (IH1 _ _ _ Hst E).
    + apply (IH2 _ _ _ Hst H).
  - destruct (IH1 _ _ _ Hst H) as [st1 [H1 H']].
    eexists. split; [|exact H']. exact H1.
  - destruct (rx fl r1 st _); [eauto | discriminate].
  - destruct (pos st =? 0); [eauto | discriminate].
  - destruct (rest st) as [|c [|c' t]]; [eauto | | discriminate].
    destruct (Ascii.eqb c newline); [eauto | discriminate].
  - destruct (rest st); [eauto | discriminate].
  - destruct (xorb _ _); [eauto | discriminate].
Qed.

(** The group of a pattern that ends in a captured run of one class of
    characters is made of characters of the class. *)
Lemma match_here_run_group (fl : flags) (text : str) (r0 : regex) (a : atom)
  (lo : nat) (hi : option nat) (must : bool) (p : option ascii) (i : nat)
  (m : rmatch) (g : str) :
  match_here fl (Seq r0 (Seq (Group 1 (Rep a lo hi true)) Eps)) must p i
             (skipn i text) = Some m ->
  Re.group text m 1 = Some g ->
  forallb (atom_ok fl a) g = true.
Proof.
  unfold match_here. intros H Hg.
  destruct (rx fl _ _ _) as [stf|] eqn:E; [|discriminate]. injection H as <-.
  cbn [rx] in E.
  apply (rx_reach fl text r0) in E; [|reflexivity].
  destruct E as [st1 [H1 E]].
  destruct (_ <? lo) eqn:Elo; [discriminate|]. apply Nat.ltb_ge in Elo.
  apply try_down_some in E. destruct E as [j [Hj E]].
  destruct (must && _); [discriminate|]. injection E as <-.
  unfold Re.group in Hg. cbn [m_caps caps set_cap adv lookup_cap Nat.eqb pos] in Hg.
  injection Hg as <-. unfold slice.
  replace (pos st1 + j - pos st1) with j by lia.
  rewrite <- H1. apply firstn_run.
  pose proof (cap_len_le hi (run_len (atom_ok fl a) (rest st1))). lia.
Qed.

Lemma skipn_cons_tail (i : nat) (text : str) (c : ascii) (s : str) :
  skipn i text = c :: s -> skipn (S i) text = s.
Proof.
  intros H. replace (S i) with (1 + i) by lia.
  rewrite <- skipn_skipn, H. reflexivity.
Qed.

Lemma search_run_group (fl : flags) (text : str) (r0 : regex) (a : atom)
  (lo : nat) (hi : option nat) (m : rmatch) (g : str) :
  Re.search fl (Seq r0 (Seq (Group 1 (Rep a lo hi true)) Eps)) text = Some m ->
  Re.group text m 1 = Some g ->
  forallb (atom_ok fl a) g = true.
Proof.
  unfold Re.search. intros H Hg.
  assert (forall s p i, s = skipn i text ->
            search_from fl (Seq r0 (Seq (Group 1 (Rep a lo hi true)) Eps)) p i s
            = Some m -> forallb (atom_ok fl a) g = true) as Hall.
  { induction s as [|c s IH]; intros p i Hs Hm; cbn [search_from] in Hm.
    - destruct (match_here _ _ _ _ _ _) as [m'|] eqn:E; [|discriminate].
      injection Hm as ->. rewrite Hs in E.
      apply (match_here_run_group _ _ _ _ _ _ _ _ _ _ _ E Hg).
    - destruct (match_here _ _ _ _ _ _) as [m'|] eqn:E.
      + injection Hm as ->. rewrite Hs in E.
        apply (match_here_run_group _ _ _ _ _ _ _ _ _ _ _ E Hg).
      + apply (IH _ _ (eq_sym (skipn_cons_tail _ _ _ _ (eq_sym Hs))) Hm). }
  apply (Hall text None 0 eq_refl H).
Qed.

Lemma search_ext (fl : flags) (r1 r2 : regex) (s : str) :
  (forall st k, rx fl r1 st k = rx fl r2 st k) ->
  Re.search fl r1 s = Re.search fl r2 s.
Proof.
  intros H. unfold Re.search.
  assert (forall s p i, search_from fl r1 p i s = search_from fl r2 p i s) as Hs.
  { clear s. induction s as [|c s IH]; intros p i; cbn [search_from];
      unfold match_here; rewrite H; [reflexivity|].
    rewrite IH. reflexivity. }
  apply Hs.
Qed.

Lemma not_newline_class (c : ascii) :
  atom_ok f_I (ncls [CChar newline]) c = true -> c <> newline.
Proof. intros H ->. vm_compute in H. discriminate H. Qed.

(** Extra X12.  A value read after a label is a contiguous piece of the
    text and lies on one line: it contains no newline. *)
Theorem extract_value_by_label_on_a_line (text label : str) (max_len : nat)
  (v : str) :
  _extract_value_by_label text label max_len = Ok (Some v) ->
  piece_of v text /\ ~ In newline v.
Proof.
  unfold _extract_value_by_label, _first_group. intros H.
  destruct (Re.search f_I _ text) as [m|] eqn:Es; [|discriminate H].
  destruct (Re.group text m 1) as [g|] eqn:Eg; [|discriminate H].
  cbn [bind] in H.
  assert (piece_of g text) as Hgt.
  { unfold Re.group in Eg. destruct (lookup_cap 1 (m_caps m)) as [[a b]|];
      [|discriminate]. injection Eg as <-. apply piece_of_slice. }
  assert (piece_of v g) as Hvg.
  { destruct (strip g) as [|c t] eqn:E; [discriminate H|].
    destruct (max_len <? _) in H; injection H as <-.
    - eapply piece_of_trans; [apply piece_of_strip|].
      eapply piece_of_trans; [apply piece_of_firstn|].
      eapply piece_of_trans; [apply piece_of_strip|].
      rewrite <- E. apply piece_of_strip.
    - eapply piece_of_trans; [apply piece_of_strip|].
      rewrite <- E. apply piece_of_strip. }
  split; [apply (piece_of_trans _ _ _ Hvg Hgt)|].
  intros Hin. apply (piece_of_in _ _ _ Hvg) in Hin.
  cbn [label_colon app seqs fold_right] in Es.
  pose proof (search_run_group f_I text
                (Seq (Lit label) (Seq (star a_space) (Seq (Lit (py ":")) (star a_space))))
                (ncls [CChar newline]) 1 None m g) as Hrun.
  assert (forallb (atom_ok f_I (ncls [CChar newline])) g = true) as Hall.
  { apply Hrun; [|exact Eg]. rewrite <- Es.
    apply search_ext. intros st k. reflexivity. }
  rewrite forallb_forall in Hall. apply (not_newline_class _ (Hall _ Hin)).
  reflexivity.
Qed.

(* ================================================================== *)
(** ** Fields and their labels *)

Lemma collapse_fixed (v : str) :
  v <> [] -> tidy is_space 1 " " v -> stripped is_space v ->
  _collapse_spaces (Some v) = Some v.
Proof.
  intros Hne Ht Hs. unfold _collapse_spaces.
  destruct v as [|c t]; [congruence|]. f_equal.
  rewrite sub_pieces. unfold finditer. change (py " ") with [" "%char].
  rewrite (sub_tidy (atom_ok no_flags a_space) 1 " " (le_n 1) (c :: t)).
  - apply strip_with_id, Hs.
  - apply scan_segments. lia.
  - apply (tidy_ext is_space); [|exact Ht]. intros x. symmetry. apply space_class.
Qed.

(** Extra X13.  Collapsing is idempotent on what it returns, but for the
    empty string: a blank text collapses to the empty string, and the
    empty string to absent. *)
Theorem collapse_spaces_idempotent (s : option str) (v : str) :
  _collapse_spaces s = Some v ->
  _collapse_spaces (Some v) = match v with [] => None | _ => Some v end.
Proof.
  intros H. destruct s as [s|]; [|discriminate H].
  destruct (collapse_spaces_facts s v H) as [Ht [Hs _]].
  destruct v as [|c t]; [reflexivity|].
  apply collapse_fixed; [discriminate | exact Ht | exact Hs].
Qed.

Lemma lit_prefix_app (fl : flags) (l : str) :
  forall a b, lit_prefix fl l a = true -> lit_prefix fl l (a ++ b) = true.
Proof.
  induction l as [|p l IH]; intros a b H; [reflexivity|].
  destruct a as [|c a]; [discriminate H|]. cbn [lit_prefix app] in *.
  apply andb_prop in H. destruct H as [H1 H2]. rewrite H1, (IH _ _ H2). reflexivity.
Qed.

Lemma lstrip_app_cons (p : ascii -> bool) (a b : str) (c : ascii) (t : str) :
  lstrip_with p a = c :: t -> lstrip_with p (a ++ b) = c :: t ++ b.
Proof.
  induction a as [|x a IH]; cbn [lstrip_with app]; [discriminate|].
  destruct (p x); [exact IH|]. intros H. injection H as -> ->. reflexivity.
Qed.

Lemma skipn_app_pre (pre x : str) (j : nat) :
  skipn (length pre + j) (pre ++ x) = skipn j x.
Proof. induction pre as [|c pre IH]; [reflexivity | exact IH]. Qed.

Lemma skipn_app_in (a b : str) (j : nat) :
  j <= length a -> skipn j (a ++ b) = skipn j a ++ b.
Proof.
  intros H. rewrite skipn_app. replace (j - length a) with 0 by lia. reflexivity.
Qed.

(** A label followed by a colon in a piece of the text is one in the
    text. *)
Lemma label_colon_at_piece (l v s : str) (j : nat) :
  piece_of v s -> label_colon_at l v j -> exists j', label_colon_at l s j'.
Proof.
  intros [pre [post ->]] [Hj [Hl [t Ht]]].
  pose proof (lit_prefix_length _ _ _ Hl) as Hlen. rewrite length_skipn in Hlen.
  exists (length pre + j). split; [|split].
  - rewrite !length_app. lia.
  - rewrite skipn_app_pre, skipn_app_in by exact Hj. apply lit_prefix_app, Hl.
  - exists (t ++ post). rewrite <- Nat.add_assoc, skipn_app_pre.
    rewrite skipn_app_in by lia. apply lstrip_app_cons, Ht.
Qed.

Lemma unlabelled_piece (label : string) (v s : str) :
  piece_of v s -> unlabelled label s -> unlabelled label v.
Proof.
  intros Hp Hs j Hj. destruct (label_colon_at_piece _ _ _ _ Hp Hj) as [j' Hj'].
  apply (Hs j' Hj').
Qed.

(** A section, or the text when the section is empty, is a piece of the
    text. *)
Lemma or_section_piece (text marker : str) (ends : list str) :
  piece_of (or_text (_extract_section text marker ends) text) text.
Proof.
  unfold _extract_section. destruct (Re.search f_I (Lit marker) text) as [m|];
    [|apply piece_of_refl].
  set (sec := strip _). assert (piece_of sec text) as H.
  { unfold sec. eapply piece_of_trans; [apply piece_of_strip | apply piece_of_slice]. }
  destruct sec; [apply piece_of_refl | exact H].
Qed.

Lemma extract_value_by_label_absent (text label : str) (max_len : nat) :
  (forall j, ~ label_colon_at label text j) ->
  _extract_value_by_label text label max_len = Ok None.
Proof.
  intros Hno. unfold _extract_value_by_label, _first_group.
  cbn [label_colon app seqs fold_right].
  rewrite (search_label_none label text _ Hno). reflexivity.
Qed.

Lemma pick_customer_name_absent (info_section : str) :
  (forall label, In label ["Customer Name"; "Company Name"; "Customer ID";
                           "Account Number"]%string ->
                 unlabelled label info_section) ->
  _pick_customer_name info_section = Ok None.
Proof.
  unfold _pick_customer_name.
  induction ["Customer Name"; "Company Name"; "Customer ID";
             "Account Number"]%string as [|l ls IH]; intros H; [reflexivity|].
  cbn [map _pick_customer_name_loop].
  rewrite extract_value_by_label_absent by (apply H; left; reflexivity).
  cbn [bind _collapse_spaces]. apply IH. intros l' Hl'. apply H. right. exact Hl'.
Qed.

(** Extra X14.  A customer identifier that is returned is not empty and
    has single blanks as its only white space; without any of the four
    labels followed by a colon there is none. *)
Theorem pick_customer_name_shape (info_section : str) :
  (forall v, _pick_customer_name info_section = Ok (Some v) -> clean v)
  /\ (unlabelled "Customer Name" info_section ->
      unlabelled "Company Name" info_section ->
      unlabelled "Customer ID" info_section ->
      unlabelled "Account Number" info_section ->
      _pick_customer_name info_section = Ok None).
Proof.
  split; [intros v; apply pick_customer_name_clean|].
  intros H1 H2 H3 H4. apply pick_customer_name_absent.
  intros label [<-|[<-|[<-|[<-|[]]]]]; assumption.
Qed.

Section Labels.

Variable fromisoformat : str -> result datetime.

Lemma extract_labeled_date_absent (text label : str) :
  (forall j, ~ label_colon_at label text j) ->
  _extract_labeled_date fromisoformat text label = Ok None.
Proof.
  intros Hno. unfold _extract_labeled_date, _first_group.
  cbn [label_colon app seqs fold_right].
  rewrite (search_label_none label text _ Hno). reflexivity.
Qed.

(** Extra X15.  No field without its label: when the normalised text
    nowhere has the label of a field followed by a colon (for a field
    with several labels, none of them), the field is absent from the
    record. *)
Theorem field_needs_label (full_text : str) (r : ContractExtraction) :
  let text := _norm_text full_text in
  parse_contract_text fromisoformat full_text = Ok r ->
  (unlabelled "Customer Name" text -> unlabelled "Company Name" text ->
   unlabelled "Customer ID" text -> unlabelled "Account Number" text ->
   customer_name r = None)
  /\ (unlabelled "Phone Number" text -> unlabelled "Phone" text ->
      customer_phone r = None)
  /\ (unlabelled "Address" text -> customer_address r = None)
  /\ (unlabelled "Order Number" text -> order_number r = None)
  /\ (unlabelled "Activity" text -> activity r = None)
  /\ (unlabelled "Start Date" text -> contract_start_date r = None)
  /\ (unlabelled "End Date" text -> contract_end_date r = None)
  /\ (unlabelled "Model" text -> device_model r = None)
  /\ (unlabelled "IMEI/ESN/MEID" text -> unlabelled "IMEI" text ->
      device_imei r = None)
  /\ (unlabelled "SIM Number" text -> unlabelled "SIM" text ->
      sim_number r = None).
Proof.
  intros text H. unfold parse_contract_text in H. cbv zeta in H. fold text in H.
  unbind H v1 E1. unbind H v2 E2. unbind H v3 E3. unbind H v4 E4.
  unbind H v5 E5. unbind H v6 E6. unbind H v7 E7. unbind H v8 E8.
  unbind H v9 E9. unbind H v10 E10. unbind H v11 E11.
  destruct v11 as [pn pc].
  unbind H v12 E12. unbind H v13 E13. unbind H v14 E14. unbind H v15 E15.
  unbind H v16 E16. unbind H v17 E17. unbind H v18 E18. unbind H v19 E19.
  unbind H v20 E20.
  rewrite init_of_fields in H. injection H as <-.
  cbn [customer_name customer_phone customer_address order_number activity
       contract_start_date contract_end_date device_model device_imei
       sim_number].
  assert (forall label marker ends,
            unlabelled label text ->
            unlabelled label (or_text (_extract_section text marker ends) text))
    as Hsec.
  { intros label marker ends. apply unlabelled_piece, or_section_piece. }
  split.
  { intros H1 H2 H3 H4. rewrite pick_customer_name_absent in E1; [congruence|].
    intros label [<-|[<-|[<-|[<-|[]]]]]; apply Hsec; assumption. }
  split.
  { intros H1 H2.
    rewrite !extract_value_by_label_absent in E2 by (apply Hsec; assumption).
    injection E2 as <-. congruence. }
  split.
  { intros H1. rewrite block_after_label_absent in E4 by (apply Hsec; exact H1).
    congruence. }
  split.
  { intros H1. rewrite extract_value_by_label_absent in E5 by exact H1.
    injection E5 as <-. injection E6 as <-. reflexivity. }
  split.
  { intros H1. rewrite extract_value_by_label_absent in E7 by exact H1.
    injection E7 as <-. injection E8 as <-. reflexivity. }
  split.
  { intros H1. rewrite !extract_labeled_date_absent in E9
      by (exact H1 || (apply Hsec; exact H1)).
    injection E9 as <-. reflexivity. }
  split.
  { intros H1. rewrite !extract_labeled_date_absent in E10
      by (exact H1 || (apply Hsec; exact H1)).
    injection E10 as <-. reflexivity. }
  split.
  { intros H1. rewrite extract_value_by_label_absent in E15 by (apply Hsec; exact H1).
    injection E15 as <-. injection E16 as <-. reflexivity. }
  split.
  { intros H1 H2.
    rewrite !extract_value_by_label_absent in E17 by (apply Hsec; assumption).
    injection E17 as <-. injection E18 as <-. reflexivity. }
  intros H1 H2.
  rewrite !extract_value_by_label_absent in E19 by (apply Hsec; assumption).
  injection E19 as <-. injection E20 as <-. reflexivity.
Qed.

End Labels.

(* ================================================================== *)
(** ** The pipeline and the endpoint *)

Lemma str_eqb_eq (a b : str) : str_eqb a b = true <-> a = b.
Proof.
  unfold str_eqb. destruct (list_eq_dec ascii_dec a b); split; congruence.
Qed.

(** [endswith] holds of the texts that end in the suffix. *)
Lemma endswith_spec (s suffix : str) :
  endswith s suffix = true <-> exists pre, s = pre ++ suffix.
Proof.
  unfold endswith. rewrite andb_true_iff, str_eqb_eq, Nat.leb_le. split.
  - intros [H _]. exists (firstn (length s - length suffix) s).
    rewrite <- H at 2. symmetry. apply firstn_skipn.
  - intros [pre ->]. rewrite length_app. split; [|lia].
    replace (length pre + length suffix - length suffix) with (length pre + 0) by lia.
    apply skipn_app_pre.
Qed.

Section ServiceFacts.

Variable image : Type.
Variable ext_error : Type.
Variable pdf_to_images : list Byte.byte -> outcome ext_error (list image).
Variable ocr_image : image -> outcome ext_error str.
Variable fromisoformat : str -> result datetime.
Variable str_of : failure ext_error -> str.

Let pages := ocr_pages image ext_error ocr_image.
Let pipeline :=
  extract_from_pdf image ext_error pdf_to_images ocr_image fromisoformat.
Let endpoint :=
  extract_contract image ext_error pdf_to_images ocr_image fromisoformat str_of.

(** The pages are read in order, and all of them. *)
Lemma ocr_pages_done (images : list image) (texts : list str) :
  pages images = Done texts
  <-> Forall2 (fun img t => ocr_image img = Done t) images texts.
Proof.
  unfold pages. revert texts.
  induction images as [|img images IH]; intros texts; cbn [ocr_pages].
  - split.
    + intros H. injection H as <-. constructor.
    + intros H. inversion H. reflexivity.
  - split.
    + intros H. destruct (ocr_image img) as [t|e] eqn:E; [|discriminate H].
      cbn [and_then] in H.
      destruct (ocr_pages image ext_error ocr_image images) as [ts|e] eqn:Es;
        [|discriminate H].
      cbn [and_then] in H. injection H as <-.
      constructor; [exact E | apply IH; reflexivity].
    + intros H. inversion H as [|? t ? ts Ht Hts]; subst.
      rewrite Ht. cbn [and_then]. apply IH in Hts. rewrite Hts. reflexivity.
Qed.

(** Reading the pages fails with the failure of the first page that
    cannot be read. *)
Lemma ocr_pages_fail (images : list image) (e : failure ext_error) :
  pages images = Fail e ->
  exists pre img post,
    images = pre ++ img :: post
    /\ Forall (fun i => exists t, ocr_image i = Done t) pre
    /\ ocr_image img = Fail e.
Proof.
  unfold pages. induction images as [|img images IH]; cbn [ocr_pages];
    [discriminate|].
  intros H. destruct (ocr_image img) as [t|e0] eqn:E; cbn [and_then] in H.
  - destruct (ocr_pages image ext_error ocr_image images) as [ts|e1] eqn:Es;
      cbn [and_then] in H; [discriminate H|].
    injection H as ->. destruct (IH eq_refl) as [pre [i [post [-> [Hpre Hi]]]]].
    exists (img :: pre), i, post. split; [reflexivity|]. split; [|exact Hi].
    constructor; [exists t; exact E | exact Hpre].
  - injection H as ->. exists [], img, images. split; [reflexivity|].
    split; [constructor | exact E].
Qed.

(** Extra X16.  The pipeline gives a record exactly when the document is
    rendered, every page is read, and the record is what the parser makes
    of the page texts joined by newlines, in page order. *)
Theorem extract_from_pdf_done (pdf_bytes : list Byte.byte) (r : ContractExtraction) :
  pipeline pdf_bytes = Done r
  <-> exists images texts,
        pdf_to_images pdf_bytes = Done images
        /\ Forall2 (fun img t => ocr_image img = Done t) images texts
        /\ parse_contract_text fromisoformat (join (py "\n") texts) = Ok r.
Proof.
  unfold pipeline, extract_from_pdf. split.
  - intros H. destruct (pdf_to_images pdf_bytes) as [images|e]; [|discriminate H].
    cbn [and_then] in H.
    destruct (ocr_pages image ext_error ocr_image images) as [texts|e] eqn:Es;
      [|discriminate H].
    cbn [and_then] in H. exists images, texts. split; [reflexivity|].
    split; [apply ocr_pages_done; exact Es|].
    destruct (parse_contract_text fromisoformat _) as [r'|e]; [|discriminate H].
    injection H as <-. reflexivity.
  - intros [images [texts [-> [Hp Hr]]]]. cbn [and_then].
    apply ocr_pages_done in Hp. unfold pages in Hp. rewrite Hp. cbn [and_then].
    rewrite Hr. reflexivity.
Qed.

Hypothesis fromisoformat_raises :
  forall s e, fromisoformat s = Raise e -> e = ValueError.

(** Extra X17.  The pipeline fails only where the libraries fail: with
    the failure of the rendering, or with that of the first page that
    cannot be read.  The parser never makes it fail. *)
Theorem extract_from_pdf_fail (pdf_bytes : list Byte.byte) (e : failure ext_error) :
  pipeline pdf_bytes = Fail e ->
  pdf_to_images pdf_bytes = Fail e
  \/ exists pre img post,
       pdf_to_images pdf_bytes = Done (pre ++ img :: post)
       /\ Forall (fun i => exists t, ocr_image i = Done t) pre
       /\ ocr_image img = Fail e.
Proof.
  unfold pipeline, extract_from_pdf. intros H.
  destruct (pdf_to_images pdf_bytes) as [images|e0]; cbn [and_then] in H;
    [|left; injection H as ->; reflexivity].
  right.
  destruct (ocr_pages image ext_error ocr_image images) as [texts|e1] eqn:Es;
    cbn [and_then] in H.
  - destruct (parse_contract_text_ok fromisoformat fromisoformat_raises
                (join (py "\n") texts)) as [r Hr].
    rewrite Hr in H. discriminate H.
  - injection H as ->.
    destruct (ocr_pages_fail images e Es) as [pre [img [post [-> [Hpre Hi]]]]].
    exists pre, img, post. split; [reflexivity|]. split; assumption.
Qed.

(** Extra X18.  The endpoint turns down, with status 400, a file whose
    name does not end in .pdf, letter case apart.  For every other name
    it answers: with the success response and the record when the upload
    is read, is not empty and the pipeline gives a record; with status
    500, success false, no record and the text of the failure when the
    upload cannot be read or the pipeline fails; and with status 500 for
    an empty upload, the status 400 raised for it being caught by the
    handler.  These are all its answers. *)
Theorem extract_contract_answers (f : str) (read : outcome ext_error (list Byte.byte)) :
  (~ (exists pre, map lower f = pre ++ py ".pdf") ->
   endpoint (Some f) read
   = Fail (HTTPException ext_error 400 (py "Only PDF files are supported.")))
  /\ ((exists pre, map lower f = pre ++ py ".pdf") ->
      (forall b bs r,
         read = Done (b :: bs) -> pipeline (b :: bs) = Done r ->
         endpoint (Some f) read
         = Done (ExtractResponse true (py "Extraction completed.") (Some r)))
      /\ (read = Done [] ->
          endpoint (Some f) read
          = Done (JSONResponse 500 false
                    (py "Error during extraction: "
                     ++ str_of (HTTPException ext_error 400 (py "Empty file.")))
                    None))
      /\ (forall ex,
            read = Fail ex ->
            endpoint (Some f) read
            = Done (JSONResponse 500 false
                      (py "Error during extraction: " ++ str_of ex) None))
      /\ (forall b bs ex,
            read = Done (b :: bs) -> pipeline (b :: bs) = Fail ex ->
            endpoint (Some f) read
            = Done (JSONResponse 500 false
                      (py "Error during extraction: " ++ str_of ex) None))
      /\ (forall resp, endpoint (Some f) read = Done resp ->
            (exists r, resp = ExtractResponse true (py "Extraction completed.")
                                (Some r))
            \/ (exists ex, resp = JSONResponse 500 false
                                    (py "Error during extraction: " ++ str_of ex)
                                    None))
      /\ exists resp, endpoint (Some f) read = Done resp).
Proof.
  unfold endpoint, extract_contract. cbn [and_then].
  destruct (endswith (map lower f) (py ".pdf")) eqn:E.
  - apply endswith_spec in E. split; [intros H; contradiction|]. intros _.
    cbn [negb]. split; [|split; [|split; [|split; [|split]]]].
    + intros b bs r -> Hr. cbn [and_then]. unfold pipeline in Hr. rewrite Hr.
      reflexivity.
    + intros ->. reflexivity.
    + intros ex ->. reflexivity.
    + intros b bs ex -> Hr. cbn [and_then]. unfold pipeline in Hr. rewrite Hr.
      reflexivity.
    + intros resp H. destruct read as [[|b bs]|e]; cbn [and_then except_Exception] in H.
      * injection H as <-. right. eexists. reflexivity.
      * destruct (extract_from_pdf _ _ _ _ _ _) as [r|e];
          cbn [and_then except_Exception] in H; injection H as <-.
        -- left. eexists. reflexivity.
        -- right. eexists. reflexivity.
      * injection H as <-. right. eexists. reflexivity.
    + destruct read as [[|b bs]|e]; cbn [and_then except_Exception].
      * eexists. reflexivity.
      * destruct (extract_from_pdf _ _ _ _ _ _) as [r|e];
          cbn [and_then except_Exception]; eexists; reflexivity.
      * eexists. reflexivity.
  - split.
    + intros _. reflexivity.
    + intros H. apply endswith_spec in H. congruence.
Qed.

End ServiceFacts.

(* ================================================================== *)
(** ** The plan-name fallback *)

Lemma search_from_bos_none (fl : flags) (r : regex) :
  forall s p i, search_from fl (Seq Bos r) p (S i) s = None.
Proof.
  induction s as [|c s IH]; intros p i; cbn [search_from];
    unfold match_here; cbn [rx pos Nat.eqb]; [reflexivity | apply IH].
Qed.

(** A pattern anchored at the start matches at the start or nowhere. *)
Lemma search_bos (fl : flags) (r : regex) (s : str) :
  Re.search fl (Seq Bos r) s = match_here fl (Seq Bos r) false None 0 s.
Proof.
  unfold Re.search. destruct s as [|c s]; cbn [search_from];
    destruct (match_here fl (Seq Bos r) false None 0 _); try reflexivity.
  apply search_from_bos_none.
Qed.

Lemma header_line_search (ln : str) :
  found (Re.search f_I
           (Seq Bos (Group 1 (lits ["YOUR RATE PLAN DETAILS"; "YOUR RATE PLAN ADD-ONS";
                                    "MINIMUM MONTHLY CHARGE"; "TOTAL MONTHLY CHARGE"]%string)))
           ln)
  = is_header_line ln.
Proof.
  rewrite search_bos. unfold match_here, is_header_line.
  cbn [lits alts map fold_left rx pos Nat.eqb rest existsb andb].
  destruct (lit_prefix f_I (py "YOUR RATE PLAN DETAILS") ln); [reflexivity|].
  destruct (lit_prefix f_I (py "YOUR RATE PLAN ADD-ONS") ln); [reflexivity|].
  destruct (lit_prefix f_I (py "MINIMUM MONTHLY CHARGE") ln); [reflexivity|].
  destruct (lit_prefix f_I (py "TOTAL MONTHLY CHARGE") ln); reflexivity.
Qed.

Lemma plan_line_search (ln : str) :
  found (Re.search f_I
           (Seq Bos (Group 1 (seqs [Lit (py "Plan"); star a_space; Lit (py ":")])))
           ln)
  = is_plan_line ln.
Proof.
  rewrite search_bos. unfold match_here, is_plan_line.
  cbn [seqs fold_right rx pos Nat.eqb rest star andb].
  destruct (lit_prefix f_I (py "Plan") ln); [|reflexivity].
  cbn [andb adv rest cap_len Nat.ltb Nat.leb]. change (length (py "Plan")) with 4.
  rewrite (run_len_ext _ is_space _ (space_class f_I)).
  set (s := skipn 4 ln). set (n := run_len is_space s).
  destruct (lstrip_with is_space s) as [|c t] eqn:E.
  - rewrite try_down_none; [reflexivity|].
    intros j Hj. cbn [rest adv].
    rewrite colon_after_blanks; [reflexivity | fold n; lia |].
    intros t. rewrite E. discriminate.
  - destruct (Ascii.eqb c ":") eqn:Ec.
    + apply Ascii.eqb_eq in Ec. subst c.
      match goal with
      | |- context [try_down ?K 0 (n - 0)] =>
          assert (exists st, K n = Some st) as [st Hst]
      end.
      { cbn [rest adv]. unfold n. rewrite skipn_run_len, E.
        change (py ":") with [":"%char]. cbn [lit_prefix].
        eexists. reflexivity. }
      erewrite try_down_accept; [reflexivity|].
      replace (0 + (n - 0)) with n by lia. exact Hst.
    + rewrite try_down_none; [reflexivity|].
      intros j Hj. cbn [rest adv].
      rewrite colon_after_blanks; [reflexivity | fold n; lia |].
      intros t'. rewrite E. intros H. injection H as -> _. discriminate Ec.
Qed.

(** Extra X19.  The plan-name fallback takes the first line that neither
    opens with a header of the rate section nor is a Plan line, and
    returns it collapsed; with no such line the plan name is left as it
    was. *)
Theorem plan_name_fallback_first (plan_name : option str) (lines : list str) :
  _plan_name_fallback plan_name lines =
  match find (fun ln => negb (is_header_line ln || is_plan_line ln)) lines with
  | Some ln => _collapse_spaces (Some ln)
  | None => plan_name
  end.
Proof.
  induction lines as [|ln lines IH]; [reflexivity|].
  cbn [_plan_name_fallback find].
  rewrite <- header_line_search, <- plan_line_search.
  destruct (Re.search f_I _ ln); cbn [found orb negb]; [exact IH|].
  destruct (Re.search f_I _ ln); cbn [found orb negb]; [exact IH | reflexivity].
Qed.

(* ================================================================== *)
(** ** The record of a text without a colon *)

Lemma split_on_in (sep : ascii) (s ln : str) (x : ascii) :
  In ln (split_on sep s) -> In x ln -> In x s.
Proof.
  revert ln. induction s as [|c s IH]; intros ln Hln Hx; cbn [split_on] in Hln.
  - destruct Hln as [<-|[]]. exact Hx.
  - destruct (Ascii.eqb c sep).
    + destruct Hln as [<-|Hln]; [destruct Hx|]. right. apply (IH ln Hln Hx).
    + destruct (split_on sep s) as [|piece rest] eqn:E.
      * destruct Hln as [<-|[]]. destruct Hx as [<-|[]]. left. reflexivity.
      * destruct Hln as [<-|Hln].
        -- destruct Hx as [<-|Hx]; [left; reflexivity|].
           right. apply (IH piece); [left; reflexivity | exact Hx].
        -- right. apply (IH ln); [right; exact Hln | exact Hx].
Qed.

Lemma strip_blank (g : str) : forallb is_space g = true -> strip g = [].
Proof.
  intros H. unfold strip, strip_with.
  rewrite (proj2 (lstrip_all is_space g) H). reflexivity.
Qed.

(** A line is kept by the fallback when it is not all white space. *)
Lemma truthy_strip (ln : str) :
  truthy (Some (strip ln)) = negb (forallb is_space ln).
Proof.
  destruct (forallb is_space ln) eqn:E.
  - rewrite (strip_blank ln E). reflexivity.
  - unfold strip, strip_with.
    destruct (lstrip_with is_space ln) as [|c t] eqn:El.
    + apply lstrip_all in El. congruence.
    + pose proof (lstrip_hd_ok is_space ln) as Hc. rewrite El in Hc.
      cbn [hd_ok] in Hc. apply negb_true_iff in Hc.
      pose proof (strip_with_nonempty is_space c t Hc) as Hne.
      unfold strip_with in Hne. cbn [lstrip_with] in Hne. rewrite Hc in Hne.
      destruct (rstrip_with is_space (c :: t)); [congruence | reflexivity].
Qed.

Lemma fallback_lines_plain (text : str) :
  fallback_lines text
  = map (strip_chars bullet_chars)
        (filter (fun ln => negb (forallb is_space ln)) (split_on newline text)).
Proof.
  unfold fallback_lines. f_equal. apply filter_ext. intros ln. apply truthy_strip.
Qed.

Lemma fallback_lines_no_colon (text ln : str) :
  ~ In ":"%char text -> In ln (fallback_lines text) -> ~ In ":"%char ln.
Proof.
  intros H Hln Hin. apply H. unfold fallback_lines in Hln.
  apply in_map_iff in Hln. destruct Hln as [raw [<- Hraw]].
  apply filter_In in Hraw. destruct Hraw as [Hraw _].
  apply (split_on_in newline text raw); [exact Hraw|].
  apply (piece_of_in (strip_chars bullet_chars raw)); [|exact Hin].
  apply strip_with_segment.
Qed.

(** Among lines without a colon the fallback takes the first that does
    not open with a header. *)
Lemma fallback_no_colon (plan_name : option str) (lines : list str) :
  (forall ln, In ln lines -> ~ In ":"%char ln) ->
  _plan_name_fallback plan_name lines =
  match find (fun ln => negb (is_header_line ln)) lines with
  | Some ln => _collapse_spaces (Some ln)
  | None => plan_name
  end.
Proof.
  induction lines as [|ln lines IH]; intros H; [reflexivity|].
  cbn [_plan_name_fallback find]. rewrite <- header_line_search.
  destruct (Re.search f_I _ ln); cbn [found negb].
  - apply IH. intros l Hl. apply H. right. exact Hl.
  - rewrite search_needs_colon; [reflexivity | reflexivity |].
    apply H. left. reflexivity.
Qed.

Section NoColonRecord.

Variable fromisoformat : str -> result datetime.

(** Extra X10.  From a text without any colon no labelled field is read:
    every field of the record but the plan name is absent.  The plan name
    comes from the lines of the normalised text: the lines that are all
    white space are left out and the others are stripped of bullets,
    blanks and tabs at both ends; the first of them that does not open
    with a header of the rate section, letter case apart, is collapsed
    and taken (absent when nothing is left of it), and with no such line
    the plan name is absent. *)
Theorem no_colon_no_field (full_text : str) :
  ~ In ":"%char full_text ->
  parse_contract_text fromisoformat full_text
  = Ok {| customer_name := None;
          customer_phone := None;
          customer_address := None;
          plan_name :=
            match find (fun ln => negb (is_header_line ln))
                       (map (strip_chars bullet_chars)
                            (filter (fun ln => negb (forallb is_space ln))
                                    (split_on newline (_norm_text full_text)))) with
            | Some ln => _collapse_spaces (Some ln)
            | None => None
            end;
          plan_charge := None;
          minimum_monthly_plan := None;
          contract_start_date := None;
          contract_end_date := None;
          order_number := None;
          activity := None;
          down_payment := None;
          device_model := None;
          device_imei := None;
          serial_number := None;
          sim_number := None;
          add_ons := [] |}.
Proof.
  intros Hraw.
  assert (~ In ":"%char (_norm_text full_text)) as H.
  { intros Hin. apply Hraw.
    assert (forall t, In ":"%char t
                      <-> In ":"%char (filter (fun c => negb (is_space c)) t)) as Hf.
    { intros t. rewrite filter_In. cbn. tauto. }
    apply (Hf full_text). rewrite <- norm_text_nonspace.
    apply (Hf (_norm_text full_text)). exact Hin. }
  rewrite <- fallback_lines_plain.
  rewrite <- (fallback_no_colon None (fallback_lines (_norm_text full_text)))
    by (intros ln Hln; apply (fallback_lines_no_colon _ _ H Hln)).
  unfold parse_contract_text. cbv zeta.
  set (text := _norm_text full_text) in *.
  rewrite (extract_section_no_colon text (py "YOUR INFORMATION:") _ eq_refl H).
  rewrite (extract_section_no_colon text (py "YOUR DEVICE DETAILS:") _ eq_refl H).
  rewrite (extract_section_no_colon text (py "YOUR RATE PLAN DETAILS:") _ eq_refl H).
  change (or_text [] text) with text.
  rewrite pick_customer_name_no_colon by exact H. cbn [bind].
  rewrite !extract_value_by_label_no_colon by exact H. cbn [bind or_else].
  rewrite extract_block_no_colon by exact H. cbn [bind _collapse_spaces].
  rewrite !(extract_labeled_date_no_colon fromisoformat) by exact H.
  cbn [bind or_else_dt].
  rewrite pick_plan_no_colon by exact H. cbn [bind].
  rewrite !first_group_no_colon by (reflexivity || exact H).
  cbn [bind _money_to_float _extract_long_digit_run option_map].
  apply init_of_fields.
Qed.

End NoColonRecord.

(* ================================================================== *)
(** ** Reading back a labelled value *)

Lemma rx_lit_accept (fl : flags) (l : str) (st res : mstate)
  (k : mstate -> option mstate) :
  lit_prefix fl l (rest st) = true -> k (adv st (length l)) = Some res ->
  rx fl (Lit l) st k = Some res.
Proof. intros H Hk. cbn [rx]. rewrite H. exact Hk. Qed.

(** A greedy repetition without upper bound takes the whole run when
    the rest of the pattern accepts it. *)
Lemma rx_rep_accept (fl : flags) (a : atom) (lo n : nat) (st res : mstate)
  (k : mstate -> option mstate) :
  run_len (atom_ok fl a) (rest st) = n -> lo <= n ->
  k (adv st n) = Some res ->
  rx fl (Rep a lo None true) st k = Some res.
Proof.
  intros Hn Hlo Hk. cbn [rx cap_len]. rewrite Hn.
  replace (n <? lo) with false by (symmetry; apply Nat.ltb_ge; exact Hlo).
  apply try_down_accept. replace (lo + (n - lo)) with n by lia. exact Hk.
Qed.

Lemma run_len_app_stop (P : ascii -> bool) (a b : str) :
  forallb P a = true -> hd_ok P b = true -> run_len P (a ++ b) = length a.
Proof.
  intros Ha Hb. induction a as [|c a IH]; cbn [app length].
  - destruct b as [|c b]; [reflexivity|]. cbn [run_len hd_ok] in *.
    apply negb_true_iff in Hb. rewrite Hb. reflexivity.
  - cbn [forallb] in Ha. apply andb_prop in Ha. destruct Ha as [Hc Ha].
    cbn [run_len]. rewrite Hc, (IH Ha). reflexivity.
Qed.

Lemma skipn_length_app (a b : str) : skipn (length a) (a ++ b) = b.
Proof. induction a as [|c a IH]; [reflexivity | exact IH]. Qed.

Lemma lit_prefix_self (fl : flags) (l s : str) : lit_prefix fl l (l ++ s) = true.
Proof.
  induction l as [|c l IH]; [reflexivity|]. cbn [app lit_prefix]. rewrite IH.
  unfold chr_eq. destruct (IGNORECASE fl); rewrite Ascii.eqb_refl; reflexivity.
Qed.

Lemma search_from_here (fl : flags) (r : regex) (p : option ascii) (i : nat)
  (s : str) (m : rmatch) :
  match_here fl r false p i s = Some m -> search_from fl r p i s = Some m.
Proof. intros H. destruct s; cbn [search_from]; rewrite H; reflexivity. Qed.

Lemma newline_class (c : ascii) :
  c <> newline -> atom_ok f_I (ncls [CChar newline]) c = true.
Proof.
  intros H. destruct (atom_ok f_I (ncls [CChar newline]) c) eqn:E; [reflexivity|].
  exfalso. apply H. revert E. each_char c.
Qed.

(** Extra X20.  A value written after its label is read back: when the
    text opens with the label, optional white space, a colon and optional
    white space, and goes on with a value that is not empty, has no white
    space at its ends, no newline, and at most the maximum length, up to
    the end of the line, the extraction returns this value. *)
Theorem extract_value_by_label_reads (label sp1 sp2 v post : str) (max_len : nat) :
  forallb is_space sp1 = true -> forallb is_space sp2 = true ->
  v <> [] -> strip v = v -> ~ In newline v -> length v <= max_len ->
  (post = [] \/ exists post', post = newline :: post') ->
  _extract_value_by_label (label ++ sp1 ++ ":"%char :: sp2 ++ v ++ post)
                          label max_len
  = Ok (Some v).
Proof.
  intros Hsp1 Hsp2 Hne Hstrip Hnl Hlen Hpost.
  set (text := label ++ sp1 ++ ":"%char :: sp2 ++ v ++ post).
  assert (stripped is_space v) as Hs by (rewrite <- Hstrip; apply strip_with_stripped).
  destruct (stripped_nonempty_hd v Hs Hne) as [c [t [Hv Hc]]].
  set (P := atom_ok f_I a_space).
  assert (forall s, forallb is_space s = true -> forallb P s = true) as HP.
  { intros s H. rewrite forallb_forall in *. intros x Hx. unfold P.
    rewrite space_class. apply H, Hx. }
  set (st0 := {| pos := 0; prev := None; rest := text; caps := [] |}).
  set (st1 := adv st0 (length label)).
  set (st2 := adv st1 (length sp1)).
  set (st3 := adv st2 (length (py ":"))).
  set (st4 := adv st3 (length sp2)).
  assert (rest st1 = sp1 ++ ":"%char :: sp2 ++ v ++ post) as R1
    by apply skipn_length_app.
  assert (rest st2 = ":"%char :: sp2 ++ v ++ post) as R2.
  { unfold st2. cbn [adv rest]. fold (rest st1). rewrite R1. apply skipn_length_app. }
  assert (rest st3 = sp2 ++ v ++ post) as R3.
  { unfold st3. cbn [adv rest]. fold (rest st2). rewrite R2. reflexivity. }
  assert (rest st4 = v ++ post) as R4.
  { unfold st4. cbn [adv rest]. fold (rest st3). rewrite R3. apply skipn_length_app. }
  assert (in_step text st4) as I4.
  { unfold st4, st3, st2, st1. repeat apply in_step_adv. reflexivity. }
  set (stf := set_cap (adv st4 (length v)) 1 (pos st4, pos (adv st4 (length v)))).
  assert (match_here f_I
            (seqs (label_colon label ++ [Group 1 (plus (ncls [CChar newline]))]))
            false None 0 text
          = Some {| m_start := 0; m_end := pos stf; m_caps := caps stf |}) as Hm.
  { unfold match_here. fold st0.
    assert (rx f_I (seqs (label_colon label ++ [Group 1 (plus (ncls [CChar newline]))]))
               st0 (fun st => if false && (pos st =? 0) then None else Some st)
            = Some stf) as ->; [|reflexivity].
    cbn [label_colon app seqs fold_right]. cbn [andb].
    change (rx f_I (Seq ?a ?b) ?st ?k) with (rx f_I a st (fun st' => rx f_I b st' k)).
    apply rx_lit_accept; [apply lit_prefix_self|]. fold st1.
    change (rx f_I (Seq ?a ?b) ?st ?k) with (rx f_I a st (fun st' => rx f_I b st' k)).
    apply (rx_rep_accept f_I a_space 0 (length sp1)); [|lia|].
    { rewrite R1. apply run_len_app_stop; [apply HP, Hsp1 | reflexivity]. }
    fold st2.
    change (rx f_I (Seq ?a ?b) ?st ?k) with (rx f_I a st (fun st' => rx f_I b st' k)).
    apply rx_lit_accept; [rewrite R2; reflexivity|]. fold st3.
    change (rx f_I (Seq ?a ?b) ?st ?k) with (rx f_I a st (fun st' => rx f_I b st' k)).
    apply (rx_rep_accept f_I a_space 0 (length sp2)); [|lia|].
    { rewrite R3. apply run_len_app_stop; [apply HP, Hsp2|].
      rewrite Hv. cbn [app hd_ok]. fold P. unfold P. rewrite space_class, Hc.
      reflexivity. }
    fold st4.
    change (rx f_I (Seq ?a ?b) ?st ?k) with (rx f_I a st (fun st' => rx f_I b st' k)).
    change (rx f_I (Group ?n ?r) ?st ?k)
      with (rx f_I r st (fun st' => k (set_cap st' n (pos st, pos st')))).
    apply (rx_rep_accept f_I (ncls [CChar newline]) 1 (length v)).
    - rewrite R4. apply run_len_app_stop.
      + apply forallb_forall. intros x Hx. apply newline_class.
        intros ->. apply Hnl, Hx.
      + destruct Hpost as [->|[post' ->]]; reflexivity.
    - rewrite Hv. cbn [length]. lia.
    - reflexivity. }
  unfold _extract_value_by_label, _first_group, Re.search. fold text.
  rewrite (search_from_here _ _ _ _ _ _ Hm).
  unfold Re.group. cbn [m_caps stf set_cap caps lookup_cap Nat.eqb adv pos].
  unfold slice.
  replace (pos st4 + length v - pos st4) with (length v) by lia.
  rewrite <- I4, R4.
  replace (firstn (length v) (v ++ post)) with v
    by (rewrite firstn_app, Nat.sub_diag, firstn_all; cbn [firstn];
        rewrite app_nil_r; reflexivity).
  unfold bind. rewrite Hstrip.
  clear - Hne Hstrip Hlen. destruct v as [|c t]; [congruence|].
  rewrite Hstrip.
  replace (max_len <? length (c :: t)) with false
    by (symmetry; apply Nat.ltb_ge; exact Hlen).
  reflexivity.
Qed.

(* ================================================================== *)
(** ** The text of a date *)

Lemma tail_class (c : ascii) :
  atom_ok no_flags (cls [CChar ";"; CChar "|"]) c = is_date_tail c.
Proof. each_char c. Qed.

Lemma forallb_rev (P : ascii -> bool) (s : str) : forallb P (rev s) = forallb P s.
Proof.
  induction s as [|c s IH]; [reflexivity|]. cbn [rev forallb].
  rewrite forallb_app, IH. cbn [forallb]. rewrite andb_true_r. apply andb_comm.
Qed.

Lemma lstrip_snoc (T : ascii -> bool) (a : str) (c : ascii) :
  lstrip_with T (a ++ [c]) =
  if forallb T a then (if T c then [] else [c]) else lstrip_with T a ++ [c].
Proof.
  induction a as [|x a IH]; cbn [app lstrip_with forallb]; [reflexivity|].
  destruct (T x); [exact IH | reflexivity].
Qed.

Lemma rstrip_cons (T : ascii -> bool) (c : ascii) (s : str) :
  rstrip_with T (c :: s) =
  if forallb T (c :: s) then [] else c :: rstrip_with T s.
Proof.
  unfold rstrip_with. cbn [rev forallb]. rewrite lstrip_snoc, forallb_rev.
  destruct (forallb T s) eqn:Es.
  - rewrite andb_true_r. destruct (T c); [reflexivity|].
    rewrite (proj2 (lstrip_all T (rev s))) by (rewrite forallb_rev; exact Es).
    reflexivity.
  - rewrite andb_false_r, rev_app_distr. reflexivity.
Qed.

Lemma run_len_full (P : ascii -> bool) (s : str) :
  forallb P s = false -> run_len P s < length s.
Proof.
  induction s as [|c s IH]; cbn [forallb run_len length]; [discriminate|].
  destruct (P c); cbn [andb]; [intros H; apply IH in H; lia | lia].
Qed.

(** The pattern matches where nothing but semicolons and bars is left. *)
Lemma tail_match_all (p : option ascii) (i : nat) (s : str) :
  s <> [] -> forallb is_date_tail s = true ->
  exists m, match_here no_flags date_tail false p i s = Some m
            /\ m_end m = i + length s.
Proof.
  intros Hne Hall. unfold match_here, date_tail. cbn [rx plus cap_len rest].
  rewrite (run_len_ext _ is_date_tail _ tail_class), (run_len_all _ _ Hall).
  destruct s as [|c s]; [congruence|]. cbn [length Nat.ltb Nat.leb].
  match goal with
  | |- context [try_down ?K 1 ?d] => set (K0 := K); set (d0 := d)
  end.
  assert (exists st', K0 (1 + d0) = Some st' /\ pos st' = i + S (length s))
    as [st' [HK Hp]].
  { unfold K0, d0. cbn [Nat.add Nat.sub adv rest pos andb].
    rewrite Nat.sub_0_r.
    change (skipn (S (length s)) (c :: s)) with (skipn (length s) s).
    rewrite skipn_all. eexists. split; reflexivity. }
  rewrite (try_down_accept _ K0 1 d0 st' HK).
  eexists. split; [reflexivity|]. exact Hp.
Qed.

Lemma tail_match_none (p : option ascii) (i : nat) (s : str) :
  ~ In newline s -> forallb is_date_tail s = false ->
  match_here no_flags date_tail false p i s = None.
Proof.
  intros Hnl Hall. unfold match_here, date_tail. cbn [rx plus cap_len rest].
  rewrite (run_len_ext _ is_date_tail _ tail_class).
  pose proof (run_len_full _ _ Hall) as Hlt.
  destruct (_ <? 1) eqn:E1; [reflexivity|]. apply Nat.ltb_ge in E1.
  rewrite try_down_none; [reflexivity|].
  intros j Hj. cbn [adv rest].
  assert (j < length s) as Hjs by lia.
  destruct (skipn j s) as [|x xs] eqn:E.
  - apply (f_equal (@length ascii)) in E. rewrite length_skipn in E.
    cbn [length] in E. lia.
  - destruct xs; [|reflexivity].
    destruct (Ascii.eqb x newline) eqn:Ex; [|reflexivity].
    apply Ascii.eqb_eq in Ex. subst x. exfalso. apply Hnl.
    rewrite <- (firstn_skipn j s), E. apply in_or_app. right. left. reflexivity.
Qed.

(** Dropping the matches of the pattern is dropping the semicolons and
    bars at the end. *)
Lemma sub_date_tail (s : str) :
  ~ In newline s -> Re.sub no_flags date_tail [] s = rstrip_with is_date_tail s.
Proof.
  unfold Re.sub, finditer.
  assert (forall p i,
            ~ In newline s ->
            flat_map (fun sg => match sg with Txt c => [c] | Hit _ _ => [] end)
                     (segments no_flags date_tail p i s 0)
            = rstrip_with is_date_tail s) as H; [|apply H].
  induction s as [|c s IH]; intros p i Hnl; [reflexivity|].
  rewrite rstrip_cons. cbn [segments].
  destruct (forallb is_date_tail (c :: s)) eqn:E.
  - destruct (tail_match_all p i (c :: s)) as [m [-> Hend]]; [discriminate | exact E|].
    rewrite Hend. cbn [length].
    replace (i + S (length s) =? i) with false by (symmetry; apply Nat.eqb_neq; lia).
    cbn [flat_map app].
    rewrite segments_skip by lia.
    replace (i + S (length s) - i - 1) with (length s) by lia.
    rewrite skipn_all. reflexivity.
  - rewrite tail_match_none by assumption. cbn [flat_map app]. f_equal.
    apply IH. intros H. apply Hnl. right. exact H.
Qed.

Section DateText.

Variable fromisoformat : str -> result datetime.

(** Extra X21.  The text of a date is cleaned before the formats are
    tried: its white space is collapsed, the semicolons and bars at its
    end are dropped, and then the white space left at the ends.  An
    absent, empty or blank text gives no date, and no format is tried. *)
Theorem parse_date_str_cleans (s : option str) :
  _parse_date_str fromisoformat s =
  match _collapse_spaces s with
  | Some (c :: t) =>
      try_formats fromisoformat
        (strip (rstrip_with is_date_tail (c :: t))) DATE_PATTERNS
  | _ => Ok None
  end.
Proof.
  unfold _parse_date_str. destruct s as [[|c0 t0]|]; try reflexivity.
  destruct (_collapse_spaces _) as [[|c t]|] eqn:E; try reflexivity.
  change (Re.sub no_flags _ [] (c :: t)) with (Re.sub no_flags date_tail [] (c :: t)).
  rewrite sub_date_tail; [reflexivity|].
  destruct (collapse_spaces_facts _ _ E) as [Ht [Hs _]].
  destruct (clean_of_tidy (c :: t) ltac:(discriminate) Ht Hs) as [_ [Hb _]].
  intros Hin. specialize (Hb newline Hin eq_refl). discriminate Hb.
Qed.

End DateText.

(* ================================================================== *)
(** ** Label to line value: what is returned *)

Lemma rx_lit_inv (fl : flags) (l : str) (st res : mstate)
  (k : mstate -> option mstate) :
  rx fl (Lit l) st k = Some res ->
  lit_prefix fl l (rest st) = true /\ k (adv st (length l)) = Some res.
Proof.
  cbn [rx]. destruct (lit_prefix fl l (rest st)); [auto | discriminate].
Qed.

Lemma rx_rep_inv (fl : flags) (a : atom) (lo : nat) (st res : mstate)
  (k : mstate -> option mstate) :
  rx fl (Rep a lo None true) st k = Some res ->
  exists j, lo <= j <= run_len (atom_ok fl a) (rest st)
            /\ k (adv st j) = Some res.
Proof.
  cbn [rx cap_len]. destruct (_ <? lo) eqn:E; [discriminate|].
  apply Nat.ltb_ge in E. intros H. apply try_down_some in H.
  destruct H as [j [Hj H]]. exists j. split; [lia | exact H].
Qed.

Lemma not_newline_test (c : ascii) :
  atom_ok f_I (ncls [CChar newline]) c = negb (Ascii.eqb c newline).
Proof. each_char c. Qed.

Lemma space_not_colon (c : ascii) : is_space c = true -> c <> ":"%char.
Proof. intros H ->. discriminate H. Qed.

Lemma forallb_piece (P : ascii -> bool) (v s : str) :
  piece_of v s -> forallb P s = true -> forallb P v = true.
Proof.
  intros Hp Hs. rewrite forallb_forall in *. intros x Hx.
  apply Hs. apply (piece_of_in _ _ _ Hp Hx).
Qed.

(** The pattern of the extraction, [label\s*:\s*([^\n]+)]. *)
Lemma label_line_pattern (label : str) :
  seqs (label_colon label ++ [Group 1 (plus (ncls [CChar newline]))])
  = Seq (Lit label)
      (Seq (star a_space)
         (Seq (Lit (py ":"))
            (Seq (star a_space)
               (Seq (Group 1 (plus (ncls [CChar newline]))) Eps)))).
Proof. reflexivity. Qed.

Lemma skipn_label (text label : str) (i : nat) :
  skipn (length label) (skipn i text) = skipn (i + length label) text.
Proof. rewrite skipn_skipn. f_equal. apply Nat.add_comm. Qed.

(** At a place where the label and its colon stand and a character that is
    not white space follows, the pattern matches, and its group is the
    text from this character to the end of the line. *)
Lemma match_at_label_value (text label : str) (p : option ascii) (i : nat)
  (r : str) (c : ascii) (t : str) :
  lit_prefix f_I label (skipn i text) = true ->
  lstrip_with is_space (skipn (i + length label) text) = ":"%char :: r ->
  lstrip_with is_space r = c :: t ->
  exists m,
    match_here f_I
      (seqs (label_colon label ++ [Group 1 (plus (ncls [CChar newline]))]))
      false p i (skipn i text) = Some m
    /\ Re.group text m 1 = Some (line_of (c :: t)).
Proof.
  intros Hl Hr Hu. rewrite label_line_pattern.
  set (st0 := {| pos := i; prev := p; rest := skipn i text; caps := [] |}).
  set (st1 := adv st0 (length label)).
  set (n1 := run_len (atom_ok f_I a_space) (rest st1)).
  set (st2 := adv st1 n1).
  set (st3 := adv st2 (length (py ":"))).
  set (n2 := run_len (atom_ok f_I a_space) (rest st3)).
  set (st4 := adv st3 n2).
  set (n3 := run_len (atom_ok f_I (ncls [CChar newline])) (rest st4)).
  set (stf := set_cap (adv st4 n3) 1 (pos st4, pos (adv st4 n3))).
  assert (rest st1 = skipn (i + length label) text) as R1 by apply skipn_label.
  assert (rest st2 = ":"%char :: r) as R2.
  { unfold st2, n1. cbn [adv rest]. fold (rest st1).
    rewrite (run_len_ext _ is_space _ (space_class f_I)), skipn_run_len, R1.
    exact Hr. }
  assert (rest st3 = r) as R3.
  { unfold st3. cbn [adv rest]. fold (rest st2). rewrite R2. reflexivity. }
  assert (rest st4 = c :: t) as R4.
  { unfold st4, n2. cbn [adv rest]. fold (rest st3).
    rewrite (run_len_ext _ is_space _ (space_class f_I)), skipn_run_len, R3.
    exact Hu. }
  assert (in_step text st4) as I4.
  { unfold st4, st3, st2, st1. repeat apply in_step_adv. reflexivity. }
  assert (is_space c = false) as Hc.
  { pose proof (lstrip_hd_ok is_space r) as H. rewrite Hu in H.
    apply negb_true_iff in H. exact H. }
  assert (n3 = run_len (fun x => negb (Ascii.eqb x newline)) (c :: t)) as N3.
  { unfold n3. rewrite R4. apply run_len_ext, not_newline_test. }
  assert (1 <= n3) as Hn3.
  { rewrite N3. cbn [run_len].
    destruct (Ascii.eqb c newline) eqn:E; [|cbn [negb]; lia].
    apply Ascii.eqb_eq in E. subst c. discriminate Hc. }
  exists {| m_start := i; m_end := pos stf; m_caps := caps stf |}. split.
  - unfold match_here. fold st0.
    assert (rx f_I
              (Seq (Lit label)
                 (Seq (star a_space)
                    (Seq (Lit (py ":"))
                       (Seq (star a_space)
                          (Seq (Group 1 (plus (ncls [CChar newline]))) Eps)))))
              st0 (fun st => if false && (pos st =? i) then None else Some st)
            = Some stf) as ->; [|reflexivity].
    cbn [andb].
    change (rx f_I (Seq ?a ?b) ?st ?k) with (rx f_I a st (fun st' => rx f_I b st' k)).
    apply rx_lit_accept; [exact Hl|]. fold st1.
    change (rx f_I (Seq ?a ?b) ?st ?k) with (rx f_I a st (fun st' => rx f_I b st' k)).
    apply (rx_rep_accept f_I a_space 0 n1); [reflexivity | lia |]. fold st2.
    change (rx f_I (Seq ?a ?b) ?st ?k) with (rx f_I a st (fun st' => rx f_I b st' k)).
    apply rx_lit_accept; [rewrite R2; reflexivity|]. fold st3.
    change (rx f_I (Seq ?a ?b) ?st ?k) with (rx f_I a st (fun st' => rx f_I b st' k)).
    apply (rx_rep_accept f_I a_space 0 n2); [reflexivity | lia |]. fold st4.
    change (rx f_I (Seq ?a ?b) ?st ?k) with (rx f_I a st (fun st' => rx f_I b st' k)).
    change (rx f_I (Group ?n ?r0) ?st ?k)
      with (rx f_I r0 st (fun st' => k (set_cap st' n (pos st, pos st')))).
    apply (rx_rep_accept f_I (ncls [CChar newline]) 1 n3);
      [reflexivity | exact Hn3 | reflexivity].
  - unfold Re.group. cbn [m_caps stf set_cap caps lookup_cap Nat.eqb adv pos].
    unfold slice. replace (pos st4 + n3 - pos st4) with n3 by lia.
    rewrite <- I4, R4, N3. reflexivity.
Qed.

(** At a place where the label and its colon stand and only white space
    follows, the group of a match is white space. *)
Lemma match_at_label_blank (text label : str) (p : option ascii) (i : nat)
  (r : str) (m : rmatch) :
  lstrip_with is_space (skipn (i + length label) text) = ":"%char :: r ->
  forallb is_space r = true ->
  match_here f_I
    (seqs (label_colon label ++ [Group 1 (plus (ncls [CChar newline]))]))
    false p i (skipn i text) = Some m ->
  exists g, Re.group text m 1 = Some g /\ forallb is_space g = true.
Proof.
  intros Hr Hall. rewrite label_line_pattern. unfold match_here.
  set (st0 := {| pos := i; prev := p; rest := skipn i text; caps := [] |}).
  destruct (rx f_I _ st0 _) as [stf|] eqn:E; [|discriminate].
  intros H. injection H as <-.
  change (rx f_I (Seq ?a ?b) ?st ?k) with (rx f_I a st (fun st' => rx f_I b st' k)) in E.
  apply rx_lit_inv in E. destruct E as [_ E].
  set (st1 := adv st0 (length label)) in *.
  assert (rest st1 = skipn (i + length label) text) as R1 by apply skipn_label.
  change (rx f_I (Seq ?a ?b) ?st ?k) with (rx f_I a st (fun st' => rx f_I b st' k)) in E.
  apply rx_rep_inv in E. destruct E as [j1 [Hj1 E]].
  rewrite (run_len_ext _ is_space _ (space_class f_I)) in Hj1.
  set (st2 := adv st1 j1) in *.
  change (rx f_I (Seq ?a ?b) ?st ?k) with (rx f_I a st (fun st' => rx f_I b st' k)) in E.
  apply rx_lit_inv in E. destruct E as [Hcolon E].
  assert (rest st2 = ":"%char :: r) as R2.
  { unfold st2 in *. cbn [adv rest] in *. fold (rest st1) in *.
    destruct (Nat.eq_dec j1 (run_len is_space (rest st1))) as [->|Hne].
    - rewrite skipn_run_len, R1. exact Hr.
    - destruct (skipn_in_run is_space (rest st1) j1) as [x [t [Hx Hsp]]]; [lia|].
      rewrite Hx in Hcolon. change (py ":") with [":"%char] in Hcolon.
      cbn [lit_prefix] in Hcolon. rewrite (colon_not_space x Hsp) in Hcolon.
      discriminate Hcolon. }
  set (st3 := adv st2 (length (py ":"))) in *.
  assert (rest st3 = r) as R3.
  { unfold st3. cbn [adv rest]. fold (rest st2). rewrite R2. reflexivity. }
  change (rx f_I (Seq ?a ?b) ?st ?k) with (rx f_I a st (fun st' => rx f_I b st' k)) in E.
  apply rx_rep_inv in E. destruct E as [j2 [_ E]].
  set (st4 := adv st3 j2) in *.
  assert (rest st4 = skipn j2 r) as R4.
  { unfold st4. cbn [adv rest]. fold (rest st3). rewrite R3. reflexivity. }
  assert (in_step text st4) as I4.
  { unfold st4, st3, st2, st1. repeat apply in_step_adv. reflexivity. }
  change (rx f_I (Seq ?a ?b) ?st ?k) with (rx f_I a st (fun st' => rx f_I b st' k)) in E.
  change (rx f_I (Group ?n ?r0) ?st ?k)
    with (rx f_I r0 st (fun st' => k (set_cap st' n (pos st, pos st')))) in E.
  apply rx_rep_inv in E. destruct E as [j3 [_ E]].
  cbn [rx andb] in E. injection E as <-.
  unfold Re.group. cbn [m_caps set_cap caps lookup_cap Nat.eqb adv pos].
  eexists. split; [reflexivity|].
  change (i + length label + j1 + 1 + j2) with (pos st4).
  unfold slice. replace (pos st4 + j3 - pos st4) with j3 by lia.
  rewrite <- I4, R4.
  apply (forallb_piece is_space _ r); [|exact Hall].
  eapply piece_of_trans; [apply piece_of_firstn | apply piece_of_skipn].
Qed.

(** A match of the pattern stands at the label and its colon. *)
Lemma match_at_label_colon (text label : str) (p : option ascii) (i : nat)
  (m : rmatch) :
  match_here f_I
    (seqs (label_colon label ++ [Group 1 (plus (ncls [CChar newline]))]))
    false p i (skipn i text) = Some m ->
  lit_prefix f_I label (skipn i text) = true
  /\ exists r, lstrip_with is_space (skipn (i + length label) text) = ":"%char :: r.
Proof.
  rewrite label_line_pattern. intros H.
  destruct (lit_prefix f_I label (skipn i text)) eqn:El.
  - split; [reflexivity|].
    destruct (lstrip_with is_space (skipn (i + length label) text)) as [|x r] eqn:Er.
    + rewrite match_here_label_none in H; [discriminate|].
      intros [_ [t Ht]]. rewrite skipn_label, Er in Ht. discriminate.
    + destruct (Ascii.eqb x ":") eqn:Ex.
      * apply Ascii.eqb_eq in Ex. subst x. exists r. reflexivity.
      * rewrite match_here_label_none in H; [discriminate|].
        intros [_ [t Ht]]. rewrite skipn_label, Er in Ht. injection Ht as -> _.
        rewrite Ascii.eqb_refl in Ex. discriminate.
  - rewrite match_here_label_none in H; [discriminate|].
    intros [Hl _]. congruence.
Qed.

Lemma skipn_step (text : str) (i : nat) (c : ascii) (s : str) :
  skipn i text = c :: s -> skipn (S i) text = s.
Proof.
  intros H. replace (S i) with (1 + i) by lia. rewrite <- skipn_skipn, H. reflexivity.
Qed.

(** The search finds the match at the first place where the label and its
    colon stand. *)
Lemma search_first_label (text label : str) (j : nat) (g : str) :
  j <= length text ->
  (forall j', j' < j -> ~ label_colon_at label text j') ->
  (forall p, exists m,
     match_here f_I
       (seqs (label_colon label ++ [Group 1 (plus (ncls [CChar newline]))]))
       false p j (skipn j text) = Some m
     /\ Re.group text m 1 = Some g) ->
  exists m,
    Re.search f_I
      (seqs (label_colon label ++ [Group 1 (plus (ncls [CChar newline]))])) text
    = Some m
    /\ Re.group text m 1 = Some g.
Proof.
  intros Hj Hfirst Hat. unfold Re.search.
  assert (forall d i p, i + d = j ->
            exists m,
              search_from f_I
                (seqs (label_colon label ++ [Group 1 (plus (ncls [CChar newline]))]))
                p i (skipn i text) = Some m
              /\ Re.group text m 1 = Some g) as H.
  { induction d as [|d IH]; intros i p Hi.
    - replace i with j by lia. destruct (Hat p) as [m [Hm Hg]].
      exists m. split; [apply search_from_here, Hm | exact Hg].
    - destruct (skipn i text) as [|c s] eqn:Es.
      + apply (f_equal (@length ascii)) in Es. rewrite length_skipn in Es.
        cbn [length] in Es. lia.
      + cbn [search_from].
        destruct (match_here f_I _ false p i (c :: s)) as [m|] eqn:Em.
        * exfalso. rewrite <- Es in Em.
          destruct (match_at_label_colon _ _ _ _ _ Em) as [Hl [r Hr]].
          apply (Hfirst i); [lia|]. split; [lia|]. split; [exact Hl|].
          exists r. exact Hr.
        * rewrite <- (skipn_step _ _ _ _ Es). apply IH. lia. }
  apply (H j 0 None). lia.
Qed.

(** Where every place with the label and its colon is followed by white
    space only, the search finds nothing or a group of white space. *)
Lemma search_blank_label (text label : str) :
  (forall k r, lit_prefix f_I label (skipn k text) = true ->
               lstrip_with is_space (skipn (k + length label) text) = ":"%char :: r ->
               forallb is_space r = true) ->
  match Re.search f_I
          (seqs (label_colon label ++ [Group 1 (plus (ncls [CChar newline]))])) text with
  | Some m => exists g, Re.group text m 1 = Some g /\ forallb is_space g = true
  | None => True
  end.
Proof.
  intros Hall. unfold Re.search.
  assert (forall s i p, s = skipn i text ->
            match search_from f_I
                    (seqs (label_colon label ++ [Group 1 (plus (ncls [CChar newline]))]))
                    p i s with
            | Some m => exists g, Re.group text m 1 = Some g /\ forallb is_space g = true
            | None => True
            end) as H.
  { induction s as [|c s IH]; intros i p Hs; cbn [search_from].
    - destruct (match_here f_I _ false p i []) as [m|] eqn:Em; [|exact I].
      rewrite Hs in Em.
      destruct (match_at_label_colon _ _ _ _ _ Em) as [Hl [r Hr]].
      apply (match_at_label_blank _ _ _ _ r _ Hr (Hall _ _ Hl Hr) Em).
    - destruct (match_here f_I _ false p i (c :: s)) as [m|] eqn:Em.
      + rewrite Hs in Em.
        destruct (match_at_label_colon _ _ _ _ _ Em) as [Hl [r Hr]].
        apply (match_at_label_blank _ _ _ _ r _ Hr (Hall _ _ Hl Hr) Em).
      + apply IH. symmetry. apply (skipn_step _ _ _ _ (eq_sym Hs)). }
  apply (H text 0 None). reflexivity.
Qed.

(** After a colon followed by white space only there is no other colon. *)
Lemma colon_rest_blank (T r : str) :
  lstrip_with is_space T = ":"%char :: r -> forallb is_space r = true ->
  forall d r', lstrip_with is_space (skipn d T) = ":"%char :: r' ->
               forallb is_space r' = true.
Proof.
  induction T as [|x T IH]; cbn [lstrip_with]; [discriminate|].
  intros HT Hr d r' Hd. destruct (is_space x) eqn:Ex.
  - destruct d as [|d]; cbn [skipn] in Hd.
    + cbn [lstrip_with] in Hd. rewrite Ex in Hd. rewrite HT in Hd.
      injection Hd as <-. exact Hr.
    + apply (IH HT Hr d r' Hd).
  - injection HT as -> ->. destruct d as [|d]; cbn [skipn] in Hd.
    + cbn [lstrip_with] in Hd. rewrite Ex in Hd. injection Hd as <-. exact Hr.
    + exfalso.
      assert (In ":"%char r) as Hin.
      { apply (piece_of_in (":"%char :: r') r); [|left; reflexivity].
        rewrite <- Hd.
        destruct (lstrip_suffix is_space (skipn d r)) as [pre [Hp _]].
        eapply piece_of_trans; [|apply (piece_of_skipn d)].
        exists pre, []. rewrite app_nil_r. exact Hp. }
      rewrite forallb_forall in Hr. specialize (Hr _ Hin). discriminate Hr.
Qed.

(** Claim C9, as amended.  Label-to-line extraction never raises.  It
    returns absent when the label followed by optional white space and a
    colon stands nowhere in the text, letter case apart.  Otherwise the
    first such place decides: when only white space follows its colon to
    the end of the text, the result is absent; else the value is the text
    from the first character after the colon that is not white space,
    which can stand on a later line, to the end of its line, trimmed and,
    when longer than the maximum, cut to the maximum and trimmed again.
    For a maximum of at least one character a returned value is not
    empty, at most the maximum long, and has no white space at its
    ends. *)
Theorem extract_value_by_label_spec (text label : str) (max_len : nat) :
  (exists v, _extract_value_by_label text label max_len = Ok v)
  /\ ((forall j, ~ label_colon_at label text j) ->
      _extract_value_by_label text label max_len = Ok None)
  /\ (forall j r,
        first_label_colon label text j r ->
        _extract_value_by_label text label max_len =
        Ok match lstrip_with is_space r with
           | [] => None
           | c :: t => Some (cut_to max_len (strip (line_of (c :: t))))
           end)
  /\ (1 <= max_len ->
      forall v, _extract_value_by_label text label max_len = Ok (Some v) ->
                v <> [] /\ length v <= max_len /\ strip v = v).
Proof.
  split; [apply extract_value_by_label_ok|].
  split; [apply extract_value_by_label_absent|].
  split.
  - intros j r [Hj [Hl [Hr Hfirst]]].
    unfold _extract_value_by_label, _first_group.
    destruct (lstrip_with is_space r) as [|c t] eqn:Eu.
    + (* only white space after the colon *)
      apply lstrip_all in Eu.
      pose proof (search_blank_label text label) as Hb.
      destruct (Re.search f_I _ text) as [m|]; [|reflexivity].
      destruct Hb as [g [-> Hg]]; [|cbn [bind]; rewrite (strip_blank g Hg); reflexivity].
      intros k r' Hlk Hrk.
      destruct (Nat.lt_trichotomy k j) as [Hlt|[->|Hgt]].
      * exfalso. apply (Hfirst k Hlt). split; [lia|]. split; [exact Hlk|].
        exists r'. exact Hrk.
      * rewrite Hr in Hrk. injection Hrk as <-. exact Eu.
      * apply (colon_rest_blank _ r Hr Eu (k - j) r').
        rewrite skipn_skipn. replace (k - j + (j + length label))
          with (k + length label) by lia. exact Hrk.
    + destruct (search_first_label text label j (line_of (c :: t)) Hj Hfirst)
        as [m [-> ->]].
      { intros p. apply (match_at_label_value _ _ _ _ r c t Hl Hr Eu). }
      cbn [bind].
      assert (exists c' t', strip (line_of (c :: t)) = c' :: t') as [c' [t' Hs]].
      { assert (is_space c = false) as Hc.
        { pose proof (lstrip_hd_ok is_space r) as H. rewrite Eu in H.
          apply negb_true_iff in H. exact H. }
        unfold line_of. cbn [run_len].
        destruct (Ascii.eqb c newline) eqn:E.
        - apply Ascii.eqb_eq in E. subst c. discriminate Hc.
        - cbn [negb firstn].
          destruct (strip (c :: firstn _ t)) as [|c' t'] eqn:Es; [|eauto].
          exfalso. revert Es. apply strip_with_nonempty. exact Hc. }
      rewrite Hs. unfold cut_to. rewrite <- Hs.
      rewrite (strip_with_idem is_space (line_of (c :: t))
               : strip (strip (line_of (c :: t))) = strip (line_of (c :: t))).
      reflexivity.
  - intros Hmax v Hv.
    destruct (proj1 (label_value_shape text label max_len Hmax)) as [v0 [H0 Hshape]].
    rewrite Hv in H0. injection H0 as <-. exact Hshape.
Qed.

(** Claim C9 as stated fails where the label stands with nothing but a
    blank after its colon: the result is absent although the label
    occurs. *)
Lemma label_to_line_counterexample :
  ~ value_by_label_as_stated (py "A: ") (py "A") 200.
Proof.
  intros [_ H]. destruct H as [v [Hv _]].
  - exists 0. split; [cbn; lia|]. split; [reflexivity|].
    exists (py " "). reflexivity.
  - vm_compute in Hv. discriminate Hv.
Qed.

(** The example of the docstring with a second line, and the label with
    a blank after its colon. *)
Lemma extract_value_by_label_witness :
  _extract_value_by_label (py "Order Number: 151687471\nStore: 12")
                          (py "Order Number") 200
  = Ok (Some (py "151687471"))
  /\ _extract_value_by_label (py "A: ") (py "A") 200 = Ok None.
Proof.
  split.
  - apply (proj1 (proj2 (proj2 (extract_value_by_label_spec
                                  (py "Order Number: 151687471\nStore: 12")
                                  (py "Order Number") 200)))
             0 (py " 151687471\nStore: 12")).
    split; [cbn; lia|]. split; [reflexivity|]. split; [reflexivity|].
    intros j' Hj'. lia.
  - apply (proj1 (proj2 (proj2 (extract_value_by_label_spec
                                  (py "A: ") (py "A") 200)))
             0 (py " ")).
    split; [cbn; lia|]. split; [reflexivity|]. split; [reflexivity|].
    intros j' Hj'. lia.
Defined.

(* ================================================================== *)
(** ** Closed instances of the further properties *)

(** The letter x of a padded text. *)
Lemma norm_text_keeps_content_witness :
  In "x"%char (_norm_text (py " x ")) <-> In "x"%char (py " x ").
Proof.
  apply (proj2 (norm_text_keeps_content (py " x ")) "x"%char). reflexivity.
Defined.

(** A padded text with a run of blanks. *)
Lemma collapse_spaces_shape_witness :
  (forall c, In c (py "a b") -> is_space c = true -> c = " "%char)
  /\ (forall pre post, py "a b" <> pre ++ " "%char :: " "%char :: post)
  /\ strip (py "a b") = py "a b".
Proof.
  apply (collapse_spaces_shape (Some (py " a   b ")) (py "a b")).
  vm_compute. reflexivity.
Defined.

(** An address on two lines. *)
Lemma extract_block_after_label_shape_witness :
  clean (py "123 Main St Edmonton, AB").
Proof.
  apply (proj1 (extract_block_after_label_shape
                  (py "Address: 123 Main St\nEdmonton, AB") (py "Address") [])).
  vm_compute. reflexivity.
Defined.

(** A phone number in the usual form. *)
Lemma extract_phone_from_chunk_digits_witness :
  length (py "7806174431") = 10
  /\ forallb is_digit (py "7806174431") = true
  /\ exists pre post,
       filter is_digit (py "(780) 617-4431") = pre ++ py "7806174431" ++ post.
Proof.
  apply (proj1 (extract_phone_from_chunk_digits (py "(780) 617-4431"))).
  vm_compute. reflexivity.
Defined.

(** A bulleted line without a colon: stripped of its bullet, it becomes
    the plan name. *)
Lemma no_colon_no_field_witness :
  parse_contract_text fromisoformat_calendar (py "* hello")
  = Ok {| customer_name := None;
          customer_phone := None;
          customer_address := None;
          plan_name := Some (py "hello");
          plan_charge := None;
          minimum_monthly_plan := None;
          contract_start_date := None;
          contract_end_date := None;
          order_number := None;
          activity := None;
          down_payment := None;
          device_model := None;
          device_imei := None;
          serial_number := None;
          sim_number := None;
          add_ons := [] |}.
Proof.
  apply (no_colon_no_field fromisoformat_calendar (py "* hello")).
  intros H. cbn in H. repeat (destruct H as [H|H]; [discriminate H|]). exact H.
Defined.

(** The phone number of the end-to-end scenario. *)
Lemma record_well_formed_witness :
  exists r,
    parse_contract_text fromisoformat_calendar scenario = Ok r
    /\ forall v, customer_phone r = Some v ->
                 length v = 10 /\ forallb is_digit v = true.
Proof.
  assert (exists r, parse_contract_text fromisoformat_calendar scenario = Ok r)
    as [r Hr] by (eexists; vm_compute; reflexivity).
  exists r. split; [exact Hr|].
  apply (record_well_formed fromisoformat_calendar scenario r Hr).
Defined.

(** The example of the docstring. *)
Lemma extract_value_by_label_on_a_line_witness :
  piece_of (py "151687471") (py "Order Number: 151687471")
  /\ ~ In newline (py "151687471").
Proof.
  apply (extract_value_by_label_on_a_line (py "Order Number: 151687471")
           (py "Order Number") 200 (py "151687471")).
  vm_compute. reflexivity.
Defined.

(** Collapsing twice. *)
Lemma collapse_spaces_idempotent_witness :
  _collapse_spaces (Some (py "a b")) = Some (py "a b").
Proof.
  apply (collapse_spaces_idempotent (Some (py " a   b ")) (py "a b")).
  vm_compute. reflexivity.
Defined.

(** The customer name of a labelled line. *)
Lemma pick_customer_name_shape_witness :
  clean (py "Jane Doe").
Proof.
  apply (proj1 (pick_customer_name_shape (py "Customer Name:  Jane   Doe"))).
  vm_compute. reflexivity.
Defined.

(** A text with one label, which is not Activity. *)
Lemma field_needs_label_witness :
  exists r,
    parse_contract_text fromisoformat_calendar (py "A: 1") = Ok r
    /\ activity r = None.
Proof.
  assert (exists r, parse_contract_text fromisoformat_calendar (py "A: 1") = Ok r)
    as [r Hr] by (eexists; vm_compute; reflexivity).
  exists r. split; [exact Hr|].
  apply (field_needs_label fromisoformat_calendar (py "A: 1") r Hr).
  change (_norm_text (py "A: 1")) with (py "A: 1").
  intros j [Hj [Hl _]].
  do 5 (destruct j as [|j]; [discriminate Hl|]). cbn in Hj. lia.
Defined.

(** A document whose second page cannot be read. *)
Lemma extract_from_pdf_fail_witness :
  sample_render [] = Fail (External unit tt)
  \/ exists pre img post,
       sample_render [] = Done (pre ++ img :: post)
       /\ Forall (fun i => exists t, sample_ocr i = Done t) pre
       /\ sample_ocr img = Fail (External unit tt).
Proof.
  apply (extract_from_pdf_fail nat unit sample_render sample_ocr
           fromisoformat_calendar fromisoformat_calendar_raises []
           (External unit tt)).
  reflexivity.
Defined.

(** A text file is turned down; an empty upload named as a PDF is
    answered with status 500, and so is a document whose second page
    cannot be read. *)
Lemma extract_contract_answers_witness :
  extract_contract nat unit sample_render sample_ocr fromisoformat_calendar
    sample_str_of (Some (py "notes.txt")) (Done [])
  = Fail (HTTPException unit 400 (py "Only PDF files are supported."))
  /\ extract_contract nat unit sample_render sample_ocr fromisoformat_calendar
       sample_str_of (Some (py "Scan.PDF")) (Done [])
     = Done (JSONResponse 500 false (py "Error during extraction: Empty file.") None)
  /\ extract_contract nat unit sample_render sample_ocr fromisoformat_calendar
       sample_str_of (Some (py "Scan.PDF")) (Done [Byte.x25])
     = Done (JSONResponse 500 false (py "Error during extraction: error") None).
Proof.
  split; [|split].
  - apply (proj1 (extract_contract_answers nat unit sample_render sample_ocr
                    fromisoformat_calendar sample_str_of (py "notes.txt") (Done []))).
    intros H. apply endswith_spec in H. discriminate H.
  - apply (proj1 (proj2 (proj2 (extract_contract_answers nat unit sample_render
                                  sample_ocr fromisoformat_calendar sample_str_of
                                  (py "Scan.PDF") (Done []))
                                ltac:(apply endswith_spec; reflexivity)))).
    reflexivity.
  - apply (proj1 (proj2 (proj2 (proj2
             (proj2 (extract_contract_answers nat unit sample_render
                       sample_ocr fromisoformat_calendar sample_str_of
                       (py "Scan.PDF") (Done [Byte.x25]))
                    ltac:(apply endswith_spec; reflexivity)))))
             Byte.x25 [] (External unit tt)); reflexivity.
Defined.

(** A text of two blanks collapses to the empty string. *)
Lemma collapse_spaces_empty_witness :
  _collapse_spaces (Some (py "  ")) = Some []
  <-> forallb is_space (py "  ") = true.
Proof.
  apply (proj2 (collapse_spaces_empty (Some (py "  "))) (py "  ")).
  - reflexivity.
  - discriminate.
Defined.

(** The example of the docstring, read back. *)
Lemma extract_value_by_label_reads_witness :
  _extract_value_by_label (py "Order Number: 151687471\nStore: 12")
                          (py "Order Number") 200
  = Ok (Some (py "151687471")).
Proof.
  apply (extract_value_by_label_reads (py "Order Number") [] (py " ")
           (py "151687471") (py "\nStore: 12") 200).
  - reflexivity.
  - reflexivity.
  - discriminate.
  - reflexivity.
  - intros H. cbn in H. repeat (destruct H as [H|H]; [discriminate H|]). exact H.
  - cbn. lia.
  - right. eexists. reflexivity.
Defined.
